(** * parking-admin: the two document-store endpoints and the car-registration form

    A shallow embedding of

    - [src/app/api/admin/pending-payments/route.ts] ([GET]),
    - [src/app/api/push-subscriptions/route.ts] ([POST], [DELETE]),
    - the [CarRegistration] client component ([handleInputChange],
      [handleTicketChange], [handleVehicleDetected], [handleSubmit],
      [isFormValid], [openCamera], [handleCarUpdate], [areArraysEqual],
      [fetchAvailableTickets] and the list of parked cars of the desktop
      layout),

    followed by the properties of these handlers.

    Layout: [Js] holds the JavaScript values the handlers pass around,
    [Store] the document collections and the driver operations the routes call,
    [Http] the request/response records and the effect monad of a route
    handler, [Routes] the three route handlers, [CarRegistration] the
    component as a transition system over its hooks, [CarLists] the lists
    the component fetches and renders, [Frames] the relations between the
    world before and after a route, [Samples] a small store and a few
    requests.  [StoreFacts], [RouteFacts], [FormFacts], [FrameFacts],
    [SubscriptionFacts], [PairFacts], [CarListFacts] and [TrimFacts] hold the
    lemmas; the claims and the further properties of the routes and of the
    component come last. *)

From Stdlib Require Import ZArith QArith List String Ascii Bool Lia Sorted Permutation.
Import ListNotations.
Open Scope string_scope.
Open Scope list_scope.
Open Scope Z_scope.

Set Warnings "-register-all".

(* ================================================================== *)
(** ** JavaScript values *)
(* ================================================================== *)

Module Js.

(** The values that reach the handlers: what [JSON.parse] yields, plus the
    two object kinds the database driver adds ([Date] and [ObjectId]).
    [undefined] is [None] in [option value].  Numbers are kept as rationals:
    every finite double is one, and the handlers only test them for zero and
    pass them on.  Object fields are an association list in insertion order;
    a property is read at its first occurrence. *)
Inductive value : Type :=
| VNull
| VBool (b : bool)
| VNum (q : Q)
| VStr (s : string)
| VDate (ms : Z)
| VId (n : N)
| VArr (xs : list value)
| VObj (fields : list (string * value)).

Definition object := list (string * value).

Fixpoint lookup (k : string) (o : object) : option value :=
  match o with
  | [] => None
  | (k', v) :: rest => if String.eqb k k' then Some v else lookup k rest
  end.

(** [!!v] *)
Definition truthy (v : value) : bool :=
  match v with
  | VNull => false
  | VBool b => b
  | VNum q => negb (Qeq_bool q 0)
  | VStr s => negb (String.eqb s "")
  | VDate _ | VId _ | VArr _ | VObj _ => true
  end.

Definition truthy_opt (o : option value) : bool :=
  match o with
  | Some v => truthy v
  | None => false
  end.

(** [v == null], i.e. [null] or [undefined]. *)
Definition nullish (o : option value) : bool :=
  match o with
  | None | Some VNull => true
  | _ => false
  end.

(** [o.k] for a value that is not nullish.  Only own properties of plain
    objects are visible here: none of the names the handlers read
    ([subscription], [userType], [ticketCode], [endpoint], [p256dh], [auth],
    [message], [ticketCodes]) is inherited by a string, number, boolean or
    array, and [keys], which an array inherits as a method, is only read
    through [keys?.p256dh] and [keys?.auth], both [undefined] on it. *)
Definition prop (v : value) (k : string) : option value :=
  match v with
  | VObj o => lookup k o
  | _ => None
  end.

(** [o?.k] *)
Definition opt_prop (o : option value) (k : string) : option value :=
  match o with
  | Some VNull | None => None
  | Some v => prop v k
  end.

(** [a || b] on possibly undefined values. *)
Definition or_else (a b : option value) : option value :=
  if truthy_opt a then a else b.

(** Strict structural comparison of two values, numbers by value. *)
Fixpoint value_eqb (a b : value) {struct a} : bool :=
  let fix list_eqb (xs ys : list value) {struct xs} : bool :=
    match xs, ys with
    | [], [] => true
    | x :: xs', y :: ys' => value_eqb x y && list_eqb xs' ys'
    | _, _ => false
    end in
  let fix fields_eqb (xs ys : list (string * value)) {struct xs} : bool :=
    match xs, ys with
    | [], [] => true
    | (k, x) :: xs', (k', y) :: ys' =>
        String.eqb k k' && value_eqb x y && fields_eqb xs' ys'
    | _, _ => false
    end in
  match a, b with
  | VNull, VNull => true
  | VBool x, VBool y => Bool.eqb x y
  | VNum x, VNum y => Qeq_bool x y
  | VStr x, VStr y => String.eqb x y
  | VDate x, VDate y => Z.eqb x y
  | VId x, VId y => N.eqb x y
  | VArr xs, VArr ys => list_eqb xs ys
  | VObj xs, VObj ys => fields_eqb xs ys
  | _, _ => false
  end.

(** [String(v)], the conversion a template literal applies to a value it
    interpolates, goes through.  A plain object is converted by the
    [toString] it inherits, unless it has a field of that name: a field that
    comes from JSON or from the database is never a function, and the
    conversion then throws a [TypeError].  An array is converted by joining
    the conversions of its elements.  Everything else, [undefined] included,
    has a text. *)
Fixpoint coercible (v : value) : bool :=
  match v with
  | VArr xs => forallb coercible xs
  | VObj fields => negb (existsb (fun kv => String.eqb (fst kv) "toString") fields)
  | _ => true
  end.

Definition coercible_opt (o : option value) : bool :=
  match o with
  | Some v => coercible v
  | None => true
  end.

(** Text is held as UTF-8 bytes, while [substring] counts UTF-16 code units:
    a code point encoded in one, two or three bytes is one unit, a code point
    encoded in four bytes is two (a surrogate pair).  When the cut falls
    inside a pair the high surrogate stays, here in the three bytes of its
    own encoding. *)
Definition high_surrogate (b1 : ascii) (rest : string) : string :=
  match rest with
  | String b2 (String b3 _) =>
      let top :=
        N.lor (N.shiftl (N.land (N_of_ascii b1) 7) 8)
          (N.lor (N.shiftl (N.land (N_of_ascii b2) 63) 2)
             (N.shiftr (N.land (N_of_ascii b3) 63) 4)) in
      let hi := (55296 + (top - 64))%N in
      String (ascii_of_N 237)
        (String (ascii_of_N (N.lor 128 (N.land (N.shiftr hi 6) 63)))
           (String (ascii_of_N (N.lor 128 (N.land hi 63))) EmptyString))
  | _ => EmptyString
  end.

(** The first [n] code units of [s]; [pending] counts the bytes still to be
    copied of the code point being taken. *)
Fixpoint take_units (n pending : nat) (s : string) : string :=
  match s with
  | EmptyString => EmptyString
  | String c rest =>
      match pending with
      | S p => String c (take_units n p rest)
      | O =>
          match n with
          | O => EmptyString
          | S n' =>
              if (N_of_ascii c <? 192)%N then String c (take_units n' 0 rest)
              else if (N_of_ascii c <? 224)%N then String c (take_units n' 1 rest)
              else if (N_of_ascii c <? 240)%N then String c (take_units n' 2 rest)
              else
                match n' with
                | S n'' => String c (take_units n'' 3 rest)
                | O => high_surrogate c rest
                end
          end
      end
  end.

(** [s.substring(0, 50) + "..."], the shortened text the routes log and echo. *)
Definition shorten (s : string) : string :=
  (take_units 50 0 s ++ "...")%string.

(** A header name as [Headers] holds it: in lower case. *)
Definition lower (s : string) : string :=
  string_of_list_ascii
    (map (fun c =>
            if ((65 <=? N_of_ascii c) && (N_of_ascii c <=? 90))%N
            then ascii_of_N (N_of_ascii c + 32)
            else c)
       (list_ascii_of_string s)).

End Js.

(* ================================================================== *)
(** ** The document store *)
(* ================================================================== *)

Module Store.
Import Js.

(** A document is an object, a collection the list of its documents in
    natural order.  A filter [{ k1: v1, k2: v2 }] selects the documents that
    meet the condition [v1] at [k1] and the condition [v2] at [k2]; a key may
    be a dotted path (none of the keys the routes use is a number, so that
    no key indexes into an array). *)
Definition doc := object.
Definition collection := list doc.
Definition path := list string.
Definition filter_spec := list (path * value).

(** The value at a dotted path of embedded documents. *)
Fixpoint get_path (p : path) (v : value) : option value :=
  match p with
  | [] => Some v
  | k :: p' =>
      match prop v k with
      | Some x => get_path p' x
      | None => None
      end
  end.

(** A filter value that is a document whose first key begins with [$] is
    not a value to compare with: the database reads it as query operators
    ([{ $ne: v }], [{ $in: [...] }], [{ $regex: ... }], ...).  Which of these
    documents the database refuses, with which message, and which stored
    documents each of the others selects is the database's to say; the
    handlers are modelled for every way of saying it. *)
Record operators : Type := {
  refuses : object -> option string;
  selects : object -> path -> doc -> bool
}.

Definition operator_document (v : value) : option object :=
  match v with
  | VObj ((String "$"%char k, x) :: rest) => Some ((String "$"%char k, x) :: rest)
  | _ => None
  end.

(** The values a dotted path reaches in a document.  Where the path comes to
    an array it goes on in each element that is a document; where it comes
    to nothing, or to a value that is neither, the field is missing
    ([None]). *)
Fixpoint reached (p : path) (x : option value) : list (option value) :=
  match p with
  | [] => [x]
  | k :: p' =>
      match x with
      | Some (VObj o) => reached p' (lookup k o)
      | Some (VArr xs) =>
          flat_map
            (fun e =>
               match e with
               | VObj o => reached p' (lookup k o)
               | _ => []
               end)
            xs
      | _ => [None]
      end
  end.

(** A reached value meets the condition [v] when it is [v], or when it is an
    array with [v] among its elements; a missing field meets [null] only. *)
Definition holds (v : value) (x : option value) : bool :=
  match x with
  | None => match v with VNull => true | _ => false end
  | Some (VArr xs) => value_eqb (VArr xs) v || existsb (fun e => value_eqb e v) xs
  | Some y => value_eqb y v
  end.

Definition field_matches (q : operators) (d : doc) (c : path * value) : bool :=
  match operator_document (snd c) with
  | Some o => selects q o (fst c) d
  | None => existsb (holds (snd c)) (reached (fst c) (Some (VObj d)))
  end.

Definition matches (q : operators) (f : filter_spec) (d : doc) : bool :=
  forallb (field_matches q d) f.

(** The message with which the database refuses the filter, when it holds
    an operator document the database cannot read. *)
Fixpoint refusal (q : operators) (f : filter_spec) : option string :=
  match f with
  | [] => None
  | c :: rest =>
      match operator_document (snd c) with
      | Some o =>
          match refuses q o with
          | Some msg => Some msg
          | None => refusal q rest
          end
      | None => refusal q rest
      end
  end.

(** [find(f).toArray()] *)
Definition find (q : operators) (f : filter_spec) (c : collection) : list doc :=
  List.filter (matches q f) c.

(** [findOne(f)]: the first match, [null] when there is none. *)
Definition findOne (q : operators) (f : filter_spec) (c : collection) : option doc :=
  List.find (matches q f) c.

(** [deleteMany(f)]: what is left, and [deletedCount]. *)
Definition deleteMany (q : operators) (f : filter_spec) (c : collection)
    : collection * nat :=
  (List.filter (fun d => negb (matches q f d)) c, List.length (find q f c)).

(** [insertOne(d)]: the driver gives the document the identifier [id]. *)
Definition insertOne (id : N) (d : doc) (c : collection) : collection :=
  c ++ [("_id", VId id) :: d].

(** *** [$set] *)

Fixpoint set_field (k : string) (v : value) (o : object) : object :=
  match o with
  | [] => [(k, v)]
  | (k', x) :: rest =>
      if String.eqb k k' then (k, v) :: rest else (k', x) :: set_field k v rest
  end.

(** Setting a dotted path creates the embedded documents that are missing;
    the database refuses to go through a field that holds something else
    than a document.  A field that is new is put last, in the order of the
    update; the properties below read fields by name and do not depend on
    where a new field is put. *)
Fixpoint set_path (p : path) (v : value) (o : object) : option object :=
  match p with
  | [] => None
  | [k] => Some (set_field k v o)
  | k :: p' =>
      match lookup k o with
      | None =>
          option_map (fun sub => set_field k (VObj sub) o) (set_path p' v [])
      | Some (VObj sub) =>
          option_map (fun sub => set_field k (VObj sub) o) (set_path p' v sub)
      | Some _ => None
      end
  end.

Fixpoint apply_set (upd : list (path * value)) (d : doc) : option doc :=
  match upd with
  | [] => Some d
  | (p, v) :: rest =>
      match set_path p v d with
      | Some d' => apply_set rest d'
      | None => None
      end
  end.

Definition doc_eqb (a b : doc) : bool := value_eqb (VObj a) (VObj b).

Record update_result : Type := {
  updated : collection;
  modifiedCount : nat;
  writeError : bool
}.

(** [updateMany(f, { $set: upd })].  Documents are updated one after the
    other; a document the update cannot be applied to stops the operation
    with a write error, the documents before it stay updated.
    [modifiedCount] counts the matched documents the update changed. *)
Fixpoint updateMany (q : operators) (f : filter_spec) (upd : list (path * value))
    (c : collection) : update_result :=
  match c with
  | [] => {| updated := []; modifiedCount := 0; writeError := false |}
  | d :: rest =>
      if matches q f d then
        match apply_set upd d with
        | None => {| updated := d :: rest; modifiedCount := 0; writeError := true |}
        | Some d' =>
            let r := updateMany q f upd rest in
            {| updated := d' :: updated r;
               modifiedCount := (if doc_eqb d d' then 0 else 1) + modifiedCount r;
               writeError := writeError r |}
        end
      else
        let r := updateMany q f upd rest in
        {| updated := d :: updated r;
           modifiedCount := modifiedCount r;
           writeError := writeError r |}
  end.

(** *** [sort] and [project] *)

(** The order the database sorts field values by: first by kind
    (null or missing, numbers, strings, documents, arrays, identifiers,
    booleans, dates), then inside a kind: numbers and dates by value, strings
    byte by byte, [false] before [true].  A sort key is the list of rationals
    [kind :: contents], compared lexicographically.  Embedded documents, and
    arrays met as elements of an array, are ordered by kind only; the
    database goes on to compare them field by field, so that its order
    refines this one. *)
Definition element_key (v : value) : list Q :=
  match v with
  | VNull => [1%Q]
  | VNum q => [2%Q; q]
  | VStr s =>
      3%Q :: map (fun c => inject_Z (Z.of_nat (nat_of_ascii c))) (list_ascii_of_string s)
  | VObj _ => [4%Q]
  | VArr _ => [5%Q]
  | VId n => [7%Q; inject_Z (Z.of_N n)]
  | VBool b => [8%Q; if b then 1%Q else 0%Q]
  | VDate ms => [9%Q; inject_Z ms]
  end.

Fixpoint key_leb (a b : list Q) : bool :=
  match a, b with
  | [], _ => true
  | _ :: _, [] => false
  | x :: a', y :: b' =>
      match (x ?= y)%Q with
      | Lt => true
      | Gt => false
      | Eq => key_leb a' b'
      end
  end.

Definition key_max (a b : list Q) : list Q := if key_leb a b then b else a.

(** The key of a field in a descending sort.  An array field is sorted by
    its largest element, and an empty array goes below [null] and below a
    missing field. *)
Definition sort_key (o : option value) : list Q :=
  match o with
  | None => [1%Q]
  | Some (VArr xs) => fold_right (fun x k => key_max (element_key x) k) [0%Q] xs
  | Some v => element_key v
  end.

Definition field_key (k : string) (d : doc) : list Q := sort_key (lookup k d).

(** [d] goes in front of the first document whose key is not above its own. *)
Fixpoint insert_desc (k : string) (d : doc) (l : list doc) : list doc :=
  match l with
  | [] => [d]
  | x :: rest =>
      if key_leb (field_key k x) (field_key k d) then d :: l
      else x :: insert_desc k d rest
  end.

(** [sort({ k: -1 })] *)
Definition sort_desc (k : string) (l : list doc) : list doc :=
  fold_right (insert_desc k) [] l.

(** [project({ f1: 1, f2: 1, ... })]: the listed fields the document has, in
    the document's order. *)
Definition project (fields : list string) (d : doc) : doc :=
  List.filter (fun kv => existsb (String.eqb (fst kv)) fields) d.

(** *** Vocabulary for the properties below *)

(** [a] comes no later than [b] in a descending sort on field [k]. *)
Definition desc (k : string) (a b : doc) : Prop :=
  key_leb (field_key k b) (field_key k a) = true.

(** What [updateMany(f, { $set: upd })] makes of one document. *)
Definition updated_by (q : operators) (f : filter_spec) (upd : list (path * value))
    (d d' : doc) : Prop :=
  if matches q f d then apply_set upd d = Some d' else d' = d.

End Store.

(* ================================================================== *)
(** ** Requests, responses and the effects of a route handler *)
(* ================================================================== *)

Module Http.
Import Js Store.

(** What [await request.json()] gives: the parsed body, or a rejection when
    the body is not JSON. *)
Inductive body : Type :=
| Malformed (why : string)
| Json (v : value).

(** Header names are held in lower case, as [Headers] stores them. *)
Record request : Type := {
  req_body : body;
  req_headers : list (string * string)
}.

Record response : Type := {
  status : Z;
  payload : value;
  headers : list (string * string)
}.

(** [NextResponse.json(v, { status })]; the status is 200 when none is
    given.  [v] is the value handed over, before it is written as JSON; the
    response says what it carries in its [content-type] header. *)
Definition NextResponse_json (v : value) (st : Z) : response :=
  {| status := st; payload := v;
     headers := [ ("content-type", "application/json") ] |}.

(** [response.headers.set(name, v)] *)
Definition headers_set (name v : string) (r : response) : response :=
  {| status := status r;
     payload := payload r;
     headers :=
       List.filter (fun h => negb (String.eqb (fst h) (lower name))) (headers r)
       ++ [(lower name, v)] |}.

(** [request.headers.get(name)] *)
Fixpoint headers_get (name : string) (hs : list (string * string)) : option string :=
  match hs with
  | [] => None
  | (n, v) :: rest => if String.eqb n name then Some v else headers_get name rest
  end.

(** [response.headers.get(name)], whatever the case of [name]. *)
Definition response_header (name : string) (r : response) : option string :=
  headers_get (lower name) (headers r).

(** [request.headers.get(name) || dflt] *)
Definition header_or (name : string) (dflt : string) (hs : list (string * string)) : string :=
  match headers_get name hs with
  | Some v => if String.eqb v "" then dflt else v
  | None => dflt
  end.

(** What a handler can throw. *)
Inductive error : Type :=
| SyntaxError (msg : string)
| TypeError (msg : string)
| MongoError (msg : string).

Definition error_message (e : error) : string :=
  match e with
  | SyntaxError m | TypeError m | MongoError m => m
  end.

(** The calls a handler awaits on the database driver. *)
Inductive call : Type :=
| CConnect
| CFind (coll : string)
| CDeleteMany (coll : string)
| CInsertOne (coll : string)
| CFindOne (coll : string)
| CUpdateMany (coll : string).

(** The world a handler runs in: the collections of database ["parking"],
    the driver calls awaited so far (newest first), the calls the
    environment will reject ([faults n] is the rejection of the call number
    [n], counted from 0), the readings of the clock with the number of
    readings taken, the next identifier the driver hands out (nothing
    below relies on identifiers being fresh), and the database's reading of
    query operators. *)
Record world : Type := {
  db : string -> collection;
  calls : list call;
  faults : nat -> option string;
  clock : nat -> Z;
  reads : nat;
  next_id : N;
  ops : operators
}.

Definition set_coll (name : string) (c : collection) (w : world) : world :=
  {| db := fun n => if String.eqb n name then c else db w n;
     calls := calls w; faults := faults w;
     clock := clock w; reads := reads w; next_id := next_id w; ops := ops w |}.

Definition log_call (c : call) (w : world) : world :=
  {| db := db w; calls := c :: calls w; faults := faults w;
     clock := clock w; reads := reads w; next_id := next_id w; ops := ops w |}.

Inductive result (A : Type) : Type :=
| Ok (a : A)
| Throw (e : error).
Arguments Ok {A} a.
Arguments Throw {A} e.

(** A handler body: it changes the world and returns or throws. *)
Definition M (A : Type) : Type := world -> result A * world.

Definition ret {A} (a : A) : M A := fun w => (Ok a, w).

Definition throw {A} (e : error) : M A := fun w => (Throw e, w).

Definition bind {A B} (m : M A) (k : A -> M B) : M B :=
  fun w =>
    match m w with
    | (Ok a, w') => k a w'
    | (Throw e, w') => (Throw e, w')
    end.

(** [try { body } catch (error) { handler }] *)
Definition try_catch {A} (m : M A) (handler : error -> M A) : M A :=
  fun w =>
    match m w with
    | (Ok a, w') => (Ok a, w')
    | (Throw e, w') => handler e w'
    end.

Declare Scope route_scope.
Delimit Scope route_scope with route.
Notation "x <- m ;; k" := (bind m (fun x => k))
  (at level 61, m at next level, right associativity) : route_scope.
Notation "m ;;; k" := (bind m (fun _ => k))
  (at level 61, right associativity) : route_scope.

(** An awaited driver call: it is recorded, then rejected when the
    environment says so and carried out otherwise.  A rejected call leaves
    the collections as they were. *)
Definition driver {A} (c : call) (op : M A) : M A :=
  fun w =>
    match faults w (List.length (calls w)) with
    | Some msg => (Throw (MongoError msg), log_call c w)
    | None => op (log_call c w)
    end.

(** [await clientPromise] *)
Definition connect : M unit := driver CConnect (ret tt).

(** A driver call that sends the filter [f]: a filter the database cannot
    read is answered with an error, and nothing is done. *)
Definition query {A} (c : call) (f : filter_spec) (op : M A) : M A :=
  driver c
    (fun w =>
       match refusal (ops w) f with
       | None => op w
       | Some msg => (Throw (MongoError msg), w)
       end).

Definition db_find (coll : string) (f : filter_spec) : M (list doc) :=
  query (CFind coll) f (fun w => (Ok (find (ops w) f (db w coll)), w)).

(** Documents with the same sort key come in stored order; the database
    promises no order among them, and nothing below depends on it. *)
Definition db_find_sort_project (coll : string) (f : filter_spec)
    (k : string) (fields : list string) : M (list doc) :=
  query (CFind coll) f
    (fun w =>
       (Ok (map (project fields) (sort_desc k (find (ops w) f (db w coll)))), w)).

Definition db_deleteMany (coll : string) (f : filter_spec) : M nat :=
  query (CDeleteMany coll) f
    (fun w =>
       let (left, n) := deleteMany (ops w) f (db w coll) in
       (Ok n, set_coll coll left w)).

(** Returns [insertedId]. *)
Definition db_insertOne (coll : string) (d : doc) : M N :=
  driver (CInsertOne coll)
    (fun w =>
       let id := next_id w in
       let w' := set_coll coll (insertOne id d (db w coll)) w in
       (Ok id,
        {| db := db w'; calls := calls w'; faults := faults w';
           clock := clock w'; reads := reads w'; next_id := N.succ id;
           ops := ops w' |})).

Definition db_findOne (coll : string) (f : filter_spec) : M (option doc) :=
  query (CFindOne coll) f (fun w => (Ok (findOne (ops w) f (db w coll)), w)).

(** Returns [modifiedCount]. *)
Definition db_updateMany (coll : string) (f : filter_spec)
    (upd : list (path * value)) : M nat :=
  query (CUpdateMany coll) f
    (fun w =>
       let r := updateMany (ops w) f upd (db w coll) in
       let w' := set_coll coll (updated r) w in
       if writeError r then (Throw (MongoError "Cannot create field in element"), w')
       else (Ok (modifiedCount r), w')).

(** [new Date()] *)
Definition new_Date : M value :=
  fun w =>
    (Ok (VDate (clock w (reads w))),
     {| db := db w; calls := calls w; faults := faults w;
        clock := clock w; reads := S (reads w); next_id := next_id w;
        ops := ops w |}).

(** [await request.json()] *)
Definition request_json (r : request) : M value :=
  match req_body r with
  | Malformed why => throw (SyntaxError why)
  | Json v => ret v
  end.

(** [const { ... } = v]: destructuring [null] throws (the text of the
    message is the engine's; no property below depends on it). *)
Definition destructure (v : value) : M value :=
  match v with
  | VNull =>
      throw
        (TypeError
           "Cannot destructure property 'subscription' of '(intermediate value)' as it is null.")
  | _ => ret v
  end.

(** The argument of the log line
    [subscription?.endpoint?.substring(0, 50) + "..." || "NO ENDPOINT"]:
    the chain stops at a nullish [subscription] or [endpoint]; any other
    [endpoint] has its [substring] called, which only a string has. *)
Definition log_endpoint (subscription : option value) : M unit :=
  match opt_prop subscription "endpoint" with
  | None | Some VNull => ret tt
  | Some (VStr _) => ret tt
  | Some _ => throw (TypeError "subscription?.endpoint?.substring is not a function")
  end.

(** A template literal [`... ${v1} ... ${vn} ...`]: the values are converted
    to text one after the other. *)
Definition template (vs : list (option value)) : M unit :=
  if forallb coercible_opt vs then ret tt
  else throw (TypeError "Cannot convert object to primitive value").

(** [l.forEach((x, index) => f(x, index))], counting from [i]. *)
Fixpoint forEach_from {A} (i : nat) (f : A -> nat -> M unit) (l : list A) : M unit :=
  match l with
  | [] => ret tt
  | x :: rest => bind (f x i) (fun _ => forEach_from (S i) f rest)
  end.

Definition forEach {A} (f : A -> nat -> M unit) (l : list A) : M unit :=
  forEach_from 0 f l.

(** A value a guard has shown to be truthy. *)
Definition defined (o : option value) : value :=
  match o with
  | Some v => v
  | None => VNull
  end.

(** *** Vocabulary for the properties below *)

(** A computation that awaits nothing on the driver. *)
Definition silent {A} (m : M A) : Prop :=
  forall w, calls (snd (m w)) = calls w /\ faults (snd (m w)) = faults w.

(** A computation stops at the first driver call that is rejected: a rejected
    call is the last call made, and the computation has thrown. *)
Definition fails_fast {A} (m : M A) : Prop :=
  forall w,
    faults (snd (m w)) = faults w /\
    (List.length (calls w) <= List.length (calls (snd (m w))))%nat /\
    forall k,
      (List.length (calls w) <= k < List.length (calls (snd (m w))))%nat ->
      faults w k <> None ->
      S k = List.length (calls (snd (m w))) /\ exists e, fst (m w) = Throw e.

(** Every response the computation returns has one of the [allowed] codes. *)
Definition answers (allowed : list Z) (m : M response) : Prop :=
  forall w r w', m w = (Ok r, w') -> In (status r) allowed.

(** How a route built as [try { block } catch { ... }] deals with failure in
    world [w]: it always answers; what the block throws is answered by 500
    with the world left as it was when the error occurred; a rejected driver
    call is the last call made; and when nothing is thrown the answer is the
    block's own, with one of the codes [oks]. *)
Definition recovers_by_500 (block route : M response) (oks : list Z) (w : world) : Prop :=
  exists r w',
    route w = (Ok r, w') /\
    (forall e w1, block w = (Throw e, w1) -> status r = 500 /\ w' = w1) /\
    (forall k,
        (List.length (calls w) <= k < List.length (calls w'))%nat ->
        faults w k <> None ->
        status r = 500 /\ List.length (calls w') = S k) /\
    (forall r1 w1, block w = (Ok r1, w1) -> r = r1 /\ w' = w1 /\ In (status r) oks).

End Http.

(* ================================================================== *)
(** ** The route handlers *)
(* ================================================================== *)

Module Routes.
Import Js Store Http.
Local Open Scope route_scope.

(** [console.log] and [console.error] lines are left out where evaluating
    their arguments cannot throw.  Those that can are kept: [log_endpoint],
    and the lines that build their text with a template literal from values
    of the request or of the store. *)

Definition number (n : nat) : option value := Some (VNum (inject_Z (Z.of_nat n))).

Definition text (s : string) : option value := Some (VStr s).

(** *** [GET /api/admin/pending-payments] *)

Definition pending_filter : filter_spec :=
  [ (["estado"], VStr "pendiente_validacion");
    (["estadoValidacion"], VStr "pendiente") ].

Definition pending_projection : list string :=
  [ "_id"; "ticketId"; "codigoTicket"; "tipoPago"; "referenciaTransferencia";
    "banco"; "telefono"; "numeroIdentidad"; "montoPagado"; "montoPagadoUsd";
    "montoCalculado"; "montoCalculadoTotal"; "tasaCambioUsada"; "fechaPago";
    "estado"; "estadoValidacion"; "tiempoSalida"; "tiempoSalidaEstimado";
    "carInfo"; "urlImagenComprobante"; "urlImagenTickets"; "isMultiplePayment";
    "ticketQuantity" ].

Definition message_body (m : string) : value := VObj [("message", VStr m)].

(** The [try] block. *)
Definition GET_try : M response :=
  connect ;;;
  pendingPayments <-
    db_find_sort_project "pagos" pending_filter "fechaPago" pending_projection ;;
  template [number (List.length pendingPayments)] ;;;
  forEach
    (fun payment _ =>
       template
         [ lookup "codigoTicket" payment;
           text (if truthy_opt (lookup "urlImagenComprobante" payment)
                 then "SÍ" else "NO") ] ;;;
       template
         [ lookup "codigoTicket" payment;
           text (if truthy_opt (lookup "urlImagenTickets" payment)
                 then "SÍ" else "NO") ])
    pendingPayments ;;;
  let response := NextResponse_json (VArr (map VObj pendingPayments)) 200 in
  let response :=
    headers_set "Cache-Control"
      "no-store, no-cache, must-revalidate, proxy-revalidate" response in
  let response := headers_set "Pragma" "no-cache" response in
  let response := headers_set "Expires" "0" response in
  let response := headers_set "Surrogate-Control" "no-store" response in
  ret response.

(** The [catch] block. *)
Definition GET_catch (error : error) : M response :=
  ret (NextResponse_json (message_body "Error al obtener pagos pendientes") 500).

Definition GET : M response := try_catch GET_try GET_catch.

(** *** [POST /api/push-subscriptions] *)

Definition subscription_filter (endpoint userType : value) : filter_spec :=
  [ (["subscription"; "endpoint"], endpoint); (["userType"], userType) ].

Definition internal_error (e : error) : response :=
  NextResponse_json
    (VObj [ ("message", VStr "Error interno del servidor");
            ("error", VStr (error_message e)) ])
    500.

Definition endpoint_text (endpoint : value) : string :=
  match endpoint with
  | VStr s => s
  | _ => ""
  end.

Definition POST_try (request : request) : M response :=
  connect ;;;
  json <- request_json request ;;
  json <- destructure json ;;
  let subscription := prop json "subscription" in
  let userType := prop json "userType" in
  let ticketCode := prop json "ticketCode" in
  log_endpoint subscription ;;;
  if negb (truthy_opt subscription) || negb (truthy_opt userType) then
    ret (NextResponse_json (message_body "Datos incompletos") 400)
  else if negb (truthy_opt (opt_prop subscription "endpoint"))
          || negb (truthy_opt (opt_prop (opt_prop subscription "keys") "p256dh"))
          || negb (truthy_opt (opt_prop (opt_prop subscription "keys") "auth")) then
    ret (NextResponse_json (message_body "Suscripción inválida") 400)
  else
    let endpoint := defined (opt_prop subscription "endpoint") in
    let p256dh := defined (opt_prop (opt_prop subscription "keys") "p256dh") in
    let auth := defined (opt_prop (opt_prop subscription "keys") "auth") in
    let userType := defined userType in
    existingSubscriptions <-
      db_find "ticket_subscriptions" (subscription_filter endpoint userType) ;;
    (if Nat.ltb 0 (List.length existingSubscriptions) then
       forEach
         (fun sub index =>
            template
              [ number (index + 1); lookup "_id" sub; lookup "isActive" sub;
                lookup "createdAt" sub ])
         existingSubscriptions
     else ret tt) ;;;
    deleteResult <-
      db_deleteMany "ticket_subscriptions" (subscription_filter endpoint userType) ;;
    createdAt <- new_Date ;;
    lastUsed <- new_Date ;;
    lifecycleCreatedAt <- new_Date ;;
    lifecycleUpdatedAt <- new_Date ;;
    let userAgent := header_or "user-agent" "Unknown" (req_headers request) in
    timestamp <- new_Date ;;
    let ip :=
      header_or "x-forwarded-for"
        (header_or "x-real-ip" "Unknown" (req_headers request))
        (req_headers request) in
    let subscriptionData : doc :=
      [ ("subscription",
         VObj [ ("endpoint", endpoint);
                ("keys", VObj [ ("p256dh", p256dh); ("auth", auth) ]) ]);
        ("userType", userType);
        ("ticketCodes",
         VArr (if truthy_opt ticketCode then [defined ticketCode] else []));
        ("isActive", VBool true);
        ("createdAt", createdAt);
        ("lastUsed", lastUsed);
        ("lifecycle",
         VObj [ ("stage", VStr "active");
                ("createdAt", lifecycleCreatedAt);
                ("updatedAt", lifecycleUpdatedAt) ]);
        ("autoExpire", VBool false);
        ("expiresAt", VNull);
        ("deviceInfo",
         VObj [ ("userAgent", VStr userAgent);
                ("timestamp", timestamp);
                ("ip", VStr ip) ]) ] in
    insertedId <- db_insertOne "ticket_subscriptions" subscriptionData ;;
    template
      [ Some userType;
        or_else ticketCode (text "Sin ticket específico") ] ;;;
    savedSubscription <-
      db_findOne "ticket_subscriptions" [ (["_id"], VId insertedId) ] ;;
    ret (NextResponse_json
           (VObj [ ("message", VStr "Suscripción guardada exitosamente");
                   ("success", VBool true);
                   ("subscriptionId", VId insertedId);
                   ("debug",
                    VObj [ ("userType", userType);
                           ("ticketCodes",
                            defined
                              (or_else
                                 (opt_prop (option_map VObj savedSubscription)
                                    "ticketCodes")
                                 (Some (VArr []))));
                           ("endpoint", VStr (shorten (endpoint_text endpoint)));
                           ("lifecycle", VStr "active") ]) ])
           201).

Definition POST_catch (error : error) : M response :=
  ret (internal_error error).

Definition POST (request : request) : M response :=
  try_catch (POST_try request) POST_catch.

(** *** [DELETE /api/push-subscriptions] *)

Definition endpoint_filter (endpoint : value) : filter_spec :=
  [ (["subscription"; "endpoint"], endpoint) ].

Definition DELETE_try (request : request) : M response :=
  connect ;;;
  json <- request_json request ;;
  json <- destructure json ;;
  let subscription := prop json "subscription" in
  log_endpoint subscription ;;;
  if negb (truthy_opt (opt_prop subscription "endpoint")) then
    ret (NextResponse_json (message_body "Endpoint de suscripción requerido") 400)
  else
    let endpoint := defined (opt_prop subscription "endpoint") in
    existingSubscriptions <-
      db_find "ticket_subscriptions" (endpoint_filter endpoint) ;;
    (if Nat.ltb 0 (List.length existingSubscriptions) then
       forEach
         (fun sub index =>
            template
              [ number (index + 1); lookup "userType" sub;
                lookup "ticketCodes" sub; lookup "isActive" sub ])
         existingSubscriptions
     else ret tt) ;;;
    unsubscribedAt <- new_Date ;;
    lifecycleUpdatedAt <- new_Date ;;
    modifiedCount <-
      db_updateMany "ticket_subscriptions" (endpoint_filter endpoint)
        [ (["isActive"], VBool false);
          (["unsubscribedAt"], unsubscribedAt);
          (["lifecycle"; "stage"], VStr "unsubscribed");
          (["lifecycle"; "updatedAt"], lifecycleUpdatedAt) ] ;;
    if Nat.eqb modifiedCount 0 then
      ret (NextResponse_json (message_body "Suscripción no encontrada") 404)
    else
      ret (NextResponse_json
             (VObj [ ("message", VStr "Suscripción desactivada exitosamente");
                     ("deactivated", VNum (inject_Z (Z.of_nat modifiedCount))) ])
             200).

Definition DELETE_catch (error : error) : M response :=
  ret (internal_error error).

Definition DELETE (request : request) : M response :=
  try_catch (DELETE_try request) DELETE_catch.

(** *** Vocabulary for the properties below *)

(** The field [k] of [d] holds the text [s]: it is [s], or an array with [s]
    among its elements. *)
Definition holds_text (k s : string) (d : doc) : Prop :=
  lookup k d = Some (VStr s) \/
  exists xs, lookup k d = Some (VArr xs) /\ In (VStr s) xs.

(** A payment awaiting manual validation, as the query of [GET] reads it. *)
Definition pending (d : doc) : Prop :=
  holds_text "estado" "pendiente_validacion" d /\
  holds_text "estadoValidacion" "pendiente" d.

(** What [GET] reads from the store in world [w]. *)
Definition pending_payments (w : world) : list doc :=
  map (project pending_projection)
    (sort_desc "fechaPago" (find (ops w) pending_filter (db w "pagos"))).

(** The debug lines of [GET] go through for the payment [d]: its
    [codigoTicket] has a text. *)
Definition printable_payment (d : doc) : bool :=
  coercible_opt (lookup "codigoTicket" d).

(** The debug line of [POST] goes through for the stored record [d]. *)
Definition printable_duplicate (d : doc) : bool :=
  coercible_opt (lookup "_id" d) && coercible_opt (lookup "isActive" d)
  && coercible_opt (lookup "createdAt" d).

(** The debug line of [DELETE] goes through for the stored record [d]. *)
Definition printable_subscription (d : doc) : bool :=
  coercible_opt (lookup "userType" d) && coercible_opt (lookup "ticketCodes" d)
  && coercible_opt (lookup "isActive" d).

(** A record [DELETE] has gone over at the times [t1] and [t2]: one stored
    under [endpoint] is kept, still under that endpoint and with its
    identifier and [userType]; it is marked inactive and unsubscribed, with
    [unsubscribedAt] set to [t1] and [lifecycle.updatedAt] to [t2].  Any
    other record is left as it was. *)
Definition kept_inactive (q : operators) (endpoint : value) (t1 t2 : Z)
    (d d' : doc) : Prop :=
  if matches q (endpoint_filter endpoint) d then
    lookup "isActive" d' = Some (VBool false) /\
    lookup "unsubscribedAt" d' = Some (VDate t1) /\
    get_path ["lifecycle"; "stage"] (VObj d') = Some (VStr "unsubscribed") /\
    get_path ["lifecycle"; "updatedAt"] (VObj d') = Some (VDate t2) /\
    matches q (endpoint_filter endpoint) d' = true /\
    lookup "userType" d' = lookup "userType" d /\
    lookup "_id" d' = lookup "_id" d
  else d' = d.

(** The record [d] is one of the endpoint [endpoint] and of the user type
    [userType]: these are the two values it holds. *)
Definition of_pair (endpoint userType : value) (d : doc) : bool :=
  match get_path ["subscription"; "endpoint"] (VObj d), lookup "userType" d with
  | Some e, Some u => value_eqb e endpoint && value_eqb u userType
  | _, _ => false
  end.

(** The log line of [POST] and [DELETE] goes through: [endpoint] is absent,
    [null] or a string. *)
Definition loggable (subscription : option value) : Prop :=
  match opt_prop subscription "endpoint" with
  | None | Some VNull | Some (VStr _) => True
  | Some _ => False
  end.

(** The call number [k] a handler makes when it starts in world [w] is the
    first call the database rejects, with the message [msg]. *)
Definition first_rejected (w : world) (k : nat) (msg : string) : Prop :=
  (forall j, (j < k)%nat -> faults w (j + List.length (calls w)) = None) /\
  faults w (k + List.length (calls w)) = Some msg.

(** A body that passes the two checks of [POST], for the endpoint [endpoint]
    and the user type [userType]. *)
Definition well_formed (json : value) (endpoint : string) (userType : value) : Prop :=
  opt_prop (prop json "subscription") "endpoint" = Some (VStr endpoint) /\
  endpoint <> "" /\
  truthy_opt (opt_prop (opt_prop (prop json "subscription") "keys") "p256dh") = true /\
  truthy_opt (opt_prop (opt_prop (prop json "subscription") "keys") "auth") = true /\
  prop json "userType" = Some userType /\
  truthy userType = true.

(** Nothing but a rejected call stops [POST] on such a body in world [w]:
    the database can read the filter, and the debug lines go through. *)
Definition unhindered (json : value) (endpoint : string) (userType : value)
    (w : world) : Prop :=
  refusal (ops w) (subscription_filter (VStr endpoint) userType) = None /\
  (forall d,
      In d (db w "ticket_subscriptions") ->
      matches (ops w) (subscription_filter (VStr endpoint) userType) d = true ->
      printable_duplicate d = true) /\
  coercible userType = true /\
  coercible_opt (prop json "ticketCode") = true.

(** The update [DELETE] sends when it starts in world [w], with the two
    dates it reads from the clock. *)
Definition deactivation (w : world) : list (path * value) :=
  [ (["isActive"], VBool false);
    (["unsubscribedAt"], VDate (clock w (reads w)));
    (["lifecycle"; "stage"], VStr "unsubscribed");
    (["lifecycle"; "updatedAt"], VDate (clock w (S (reads w)))) ].

(** The answer of [DELETE] once the update has modified [n] records. *)
Definition deactivated_response (n : nat) : response :=
  if Nat.eqb n 0 then
    NextResponse_json (message_body "Suscripción no encontrada") 404
  else
    NextResponse_json
      (VObj [ ("message", VStr "Suscripción desactivada exitosamente");
              ("deactivated", VNum (inject_Z (Z.of_nat n))) ])
      200.

End Routes.

(* ================================================================== *)
(** ** The [CarRegistration] component *)
(* ================================================================== *)

Module CarRegistration.
Import Js.
Local Open Scope nat_scope.

(** *** [String.prototype.trim] *)

(** Text is a sequence of UTF-8 bytes; these are the encodings of the code
    points [trim] strips (WhiteSpace and LineTerminator). *)
Definition utf8 (bytes : list nat) : string :=
  string_of_list_ascii (map ascii_of_nat bytes).

Definition white_space : list string :=
  [ utf8 [9]; utf8 [10]; utf8 [11]; utf8 [12]; utf8 [13]; utf8 [32];
    utf8 [194; 160];
    utf8 [225; 154; 128];
    utf8 [226; 128; 128]; utf8 [226; 128; 129]; utf8 [226; 128; 130];
    utf8 [226; 128; 131]; utf8 [226; 128; 132]; utf8 [226; 128; 133];
    utf8 [226; 128; 134]; utf8 [226; 128; 135]; utf8 [226; 128; 136];
    utf8 [226; 128; 137]; utf8 [226; 128; 138];
    utf8 [226; 128; 168]; utf8 [226; 128; 169];
    utf8 [226; 128; 175];
    utf8 [226; 129; 159];
    utf8 [227; 128; 128];
    utf8 [239; 187; 191] ].

Definition reverse (s : string) : string :=
  string_of_list_ascii (rev (list_ascii_of_string s)).

Fixpoint drop_prefix (p s : string) : option string :=
  match p, s with
  | EmptyString, _ => Some s
  | String a p', String b s' => if Ascii.eqb a b then drop_prefix p' s' else None
  | String _ _, EmptyString => None
  end.

(** The text after one leading character of [ws], if it starts with one. *)
Fixpoint drop_one (ws : list string) (s : string) : option string :=
  match ws with
  | [] => None
  | w :: rest =>
      match drop_prefix w s with
      | Some r => Some r
      | None => drop_one rest s
      end
  end.

Fixpoint drop_leading (fuel : nat) (ws : list string) (s : string) : string :=
  match fuel with
  | O => s
  | S n =>
      match drop_one ws s with
      | Some r => drop_leading n ws r
      | None => s
      end
  end.

Definition trimStart (s : string) : string :=
  drop_leading (String.length s) white_space s.

Definition trimEnd (s : string) : string :=
  reverse (drop_leading (String.length s) (map reverse white_space) (reverse s)).

Definition trim (s : string) : string := trimEnd (trimStart s).

(** [s.trim() !== ""] *)
Definition not_blank (s : string) : bool := negb (String.eqb (trim s) "").

(** *** State *)

Record CarFormData : Type := {
  placa : string;
  marca : string;
  modelo : string;
  color : string;
  nombreDueño : string;
  telefono : string;
  ticketAsociado : string;
  nota : string
}.

Definition emptyForm : CarFormData :=
  {| placa := ""; marca := ""; modelo := ""; color := ""; nombreDueño := "";
     telefono := ""; ticketAsociado := ""; nota := "" |}.

(** The [name] of a form control. *)
Inductive field : Type :=
| Placa | Marca | Modelo | Color | NombreDueño | Telefono | TicketAsociado | Nota.

(** [{ ...prev, [name]: value }] *)
Definition with_field (name : field) (value : string) (prev : CarFormData) : CarFormData :=
  {| placa := match name with Placa => value | _ => placa prev end;
     marca := match name with Marca => value | _ => marca prev end;
     modelo := match name with Modelo => value | _ => modelo prev end;
     color := match name with Color => value | _ => color prev end;
     nombreDueño := match name with NombreDueño => value | _ => nombreDueño prev end;
     telefono := match name with Telefono => value | _ => telefono prev end;
     ticketAsociado :=
       match name with TicketAsociado => value | _ => ticketAsociado prev end;
     nota := match name with Nota => value | _ => nota prev end |}.

(** [Object.values(formData)] *)
Definition Object_values (d : CarFormData) : list string :=
  [ placa d; marca d; modelo d; color d; nombreDueño d; telefono d;
    ticketAsociado d; nota d ].

(** The state [capturedImages] holds when it is not [null]; every field is
    optional in its declared type. *)
Record CapturedImages : Type := {
  placaUrl : option string;
  vehiculoUrl : option string;
  confianzaPlaca : option Q;
  confianzaVehiculo : option Q
}.

(** The argument of [onVehicleDetected]. *)
Module VehicleData.
Record t : Type := {
  placa : string;
  marca : string;
  modelo : string;
  color : string;
  plateImageUrl : string;
  vehicleImageUrl : string;
  plateConfidence : Q;
  vehicleConfidence : Q
}.
End VehicleData.

(** The banner text, by the statement that sets it. *)
Inductive message : Type :=
| NoMessage                          (* "" *)
| VehicleCaptured (v : VehicleData.t) (* `✅ Vehículo capturado: ...` *)
| ServerSaid (ok : bool) (m : option value)
                                     (* `✅ ${data.message}`, `❌ ${data.message}` *)
| SubmitError                        (* "❌ Error al registrar el carro" *)
| CameraLimit  (* "❌ Máximo de intentos de cámara alcanzado. Verifique permisos o hardware." *)
| CarUpdated   (* "✅ Información del vehículo actualizada correctamente" *).

(** The hooks of the component that the form handlers read or write.  The
    lists fetched from the server ([cars], [availableTickets], [isLoading])
    are independent of them and left out. *)
Record state : Type := {
  formData : CarFormData;
  capturedImages : option CapturedImages;
  isSubmitting : bool;
  banner : message;
  showVehicleCapture : bool;
  selectedCarImages : option string;
  cameraRetryCount : nat;
  isMobile : bool
}.

Definition maxRetries : nat := 10.

Definition initial (mobile : bool) : state :=
  {| formData := emptyForm; capturedImages := None; isSubmitting := false;
     banner := NoMessage; showVehicleCapture := false;
     selectedCarImages := None; cameraRetryCount := 0; isMobile := mobile |}.

Definition setFormData (d : CarFormData) (s : state) : state :=
  {| formData := d; capturedImages := capturedImages s;
     isSubmitting := isSubmitting s; banner := banner s;
     showVehicleCapture := showVehicleCapture s;
     selectedCarImages := selectedCarImages s;
     cameraRetryCount := cameraRetryCount s; isMobile := isMobile s |}.

Definition setCapturedImages (c : option CapturedImages) (s : state) : state :=
  {| formData := formData s; capturedImages := c;
     isSubmitting := isSubmitting s; banner := banner s;
     showVehicleCapture := showVehicleCapture s;
     selectedCarImages := selectedCarImages s;
     cameraRetryCount := cameraRetryCount s; isMobile := isMobile s |}.

Definition setIsSubmitting (b : bool) (s : state) : state :=
  {| formData := formData s; capturedImages := capturedImages s;
     isSubmitting := b; banner := banner s;
     showVehicleCapture := showVehicleCapture s;
     selectedCarImages := selectedCarImages s;
     cameraRetryCount := cameraRetryCount s; isMobile := isMobile s |}.

Definition setMessage (m : message) (s : state) : state :=
  {| formData := formData s; capturedImages := capturedImages s;
     isSubmitting := isSubmitting s; banner := m;
     showVehicleCapture := showVehicleCapture s;
     selectedCarImages := selectedCarImages s;
     cameraRetryCount := cameraRetryCount s; isMobile := isMobile s |}.

Definition setShowVehicleCapture (b : bool) (s : state) : state :=
  {| formData := formData s; capturedImages := capturedImages s;
     isSubmitting := isSubmitting s; banner := banner s;
     showVehicleCapture := b;
     selectedCarImages := selectedCarImages s;
     cameraRetryCount := cameraRetryCount s; isMobile := isMobile s |}.

Definition setSelectedCarImages (c : option string) (s : state) : state :=
  {| formData := formData s; capturedImages := capturedImages s;
     isSubmitting := isSubmitting s; banner := banner s;
     showVehicleCapture := showVehicleCapture s;
     selectedCarImages := c;
     cameraRetryCount := cameraRetryCount s; isMobile := isMobile s |}.

(** [cameraRetryCount.current = n] *)
Definition setCameraRetryCount (n : nat) (s : state) : state :=
  {| formData := formData s; capturedImages := capturedImages s;
     isSubmitting := isSubmitting s; banner := banner s;
     showVehicleCapture := showVehicleCapture s;
     selectedCarImages := selectedCarImages s;
     cameraRetryCount := n; isMobile := isMobile s |}.

(** A new value of [useMobileDetection()]. *)
Definition setIsMobile (b : bool) (s : state) : state :=
  {| formData := formData s; capturedImages := capturedImages s;
     isSubmitting := isSubmitting s; banner := banner s;
     showVehicleCapture := showVehicleCapture s;
     selectedCarImages := selectedCarImages s;
     cameraRetryCount := cameraRetryCount s; isMobile := b |}.

(** *** Handlers *)

Definition handleInputChange (name : field) (value : string) (s : state) : state :=
  setFormData (with_field name value (formData s)) s.

Definition handleTicketChange (value : string) (s : state) : state :=
  setFormData (with_field TicketAsociado value (formData s)) s.

Definition handleVehicleDetected (vehicleData : VehicleData.t) (s : state) : state :=
  let prev := formData s in
  let s :=
    setFormData
      {| placa := VehicleData.placa vehicleData;
         marca := VehicleData.marca vehicleData;
         modelo := VehicleData.modelo vehicleData;
         color := VehicleData.color vehicleData;
         nombreDueño := nombreDueño prev;
         telefono := telefono prev;
         ticketAsociado := ticketAsociado prev;
         nota := nota prev |} s in
  let s :=
    setCapturedImages
      (Some {| placaUrl := Some (VehicleData.plateImageUrl vehicleData);
               vehiculoUrl := Some (VehicleData.vehicleImageUrl vehicleData);
               confianzaPlaca := Some (VehicleData.plateConfidence vehicleData);
               confianzaVehiculo := Some (VehicleData.vehicleConfidence vehicleData) |})
      s in
  let s := setShowVehicleCapture false s in
  setMessage (VehicleCaptured vehicleData) s.

(** [JSON.stringify] of an object literal: a property whose value is
    [undefined] is not written. *)
Fixpoint stringify_object (fields : list (string * option value)) : object :=
  match fields with
  | [] => []
  | (k, Some v) :: rest => (k, v) :: stringify_object rest
  | (_, None) :: rest => stringify_object rest
  end.

(** The body [handleSubmit] posts to [/api/admin/cars]:
    [JSON.stringify({ ...formData, imagenes: capturedImages ? {...} : undefined })]. *)
Definition submitData (s : state) : object :=
  let d := formData s in
  stringify_object
    [ ("placa", Some (VStr (placa d)));
      ("marca", Some (VStr (marca d)));
      ("modelo", Some (VStr (modelo d)));
      ("color", Some (VStr (color d)));
      ("nombreDueño", Some (VStr (nombreDueño d)));
      ("telefono", Some (VStr (telefono d)));
      ("ticketAsociado", Some (VStr (ticketAsociado d)));
      ("nota", Some (VStr (nota d)));
      ("imagenes",
       match capturedImages s with
       | Some capturedImages =>
           Some (VObj (stringify_object
             [ ("plateImageUrl", option_map VStr (placaUrl capturedImages));
               ("vehicleImageUrl", option_map VStr (vehiculoUrl capturedImages));
               ("capturaMetodo",
                Some (VStr (if isMobile s then "camara_movil" else "camara_desktop")));
               ("confianzaPlaca", option_map VNum (confianzaPlaca capturedImages));
               ("confianzaVehiculo",
                option_map VNum (confianzaVehiculo capturedImages)) ]))
       | None => None
       end) ].

(** [handleSubmit] up to its [fetch]: the state it leaves and the body it sends. *)
Definition handleSubmit_send (s : state) : state * object :=
  (setMessage NoMessage (setIsSubmitting true s), submitData s).

(** How the [fetch] of [handleSubmit] ends: it rejects, or it resolves to a
    response with its [ok] flag and its body ([None] when the body is not
    JSON); [onUpdateThrows] tells whether the [onUpdate] callback of the
    parent, if any, throws. *)
Inductive outcome : Type :=
| FetchRejected
| Responded (ok : bool) (data : option value) (onUpdateThrows : bool).

(** [handleSubmit] from [await response.json()] on.  Reading [data.message]
    throws on [null]; whatever is thrown ends in the [catch] block, and
    [finally] clears [isSubmitting]. *)
Definition handleSubmit_settle (o : outcome) (s : state) : state :=
  let catch s := setMessage SubmitError s in
  let finally s := setIsSubmitting false s in
  match o with
  | FetchRejected => finally (catch s)
  | Responded _ None _ => finally (catch s)
  | Responded _ (Some VNull) _ => finally (catch s)
  | Responded true (Some data) onUpdateThrows =>
      let s := setMessage (ServerSaid true (prop data "message")) s in
      let s := setFormData emptyForm s in
      let s := setCapturedImages None s in
      if onUpdateThrows then finally (catch s) else finally s
  | Responded false (Some data) _ =>
      finally (setMessage (ServerSaid false (prop data "message")) s)
  end.

Definition isFormValid (s : state) : bool :=
  if isMobile s then
    not_blank (placa (formData s)) && not_blank (ticketAsociado (formData s))
  else
    forallb not_blank (Object_values (formData s)).

(** The [disabled] attribute of the submit button, on both layouts. *)
Definition submit_disabled (s : state) : bool :=
  negb (isFormValid s) || isSubmitting s.

Definition openCamera (s : state) : state :=
  if cameraRetryCount s <? maxRetries then
    let s := setShowVehicleCapture true s in
    setCameraRetryCount (cameraRetryCount s + 1) s
  else
    setMessage CameraLimit s.

Definition handleCarUpdate (s : state) : state :=
  setMessage CarUpdated (setSelectedCarImages None s).

(** *** The component as a transition system *)

(** Whatever can happen to a mounted component: the user acts on a control,
    a child calls back, a pending [fetch] or timer completes, or the device
    detection changes its answer.  Events are not restricted to the controls
    currently rendered. *)
Inductive event : Type :=
| InputChange (name : field) (value : string)
| TicketChange (value : string)
| VehicleDetected (vehicleData : VehicleData.t)
| CaptureCancelled
| Submit
| SubmitSettled (o : outcome)
| OpenCamera
| ViewImages (car : string)
| ViewerClosed
| CarUpdate
| MessageTimeout
| MobileDetected (b : bool).

Definition step (s : state) (e : event) : state :=
  match e with
  | InputChange name value => handleInputChange name value s
  | TicketChange value => handleTicketChange value s
  | VehicleDetected vehicleData => handleVehicleDetected vehicleData s
  | CaptureCancelled => setShowVehicleCapture false s
  | Submit => fst (handleSubmit_send s)
  | SubmitSettled o => handleSubmit_settle o s
  | OpenCamera => openCamera s
  | ViewImages car => setSelectedCarImages (Some car) s
  | ViewerClosed => setSelectedCarImages None s
  | CarUpdate => handleCarUpdate s
  | MessageTimeout => setMessage NoMessage s
  | MobileDetected b => setIsMobile b s
  end.

Definition run (s : state) (es : list event) : state := fold_left step es s.

(** The states a mounted component can be in. *)
Definition reachable (s : state) : Prop :=
  exists mobile es, s = run (initial mobile) es.

Definition is_open (e : event) : bool :=
  match e with
  | OpenCamera => true
  | _ => false
  end.

(** Number of [openCamera] invocations among the events. *)
Definition opens (es : list event) : nat := List.length (List.filter is_open es).

(** The captured images, when there are some, carry all four values. *)
Definition capture_complete (s : state) : Prop :=
  match capturedImages s with
  | None => True
  | Some c =>
      exists plate vehicle cp cv,
        c = {| placaUrl := Some plate; vehiculoUrl := Some vehicle;
               confianzaPlaca := Some cp; confianzaVehiculo := Some cv |}
  end.

End CarRegistration.

(* ================================================================== *)
(** ** The lists of the [CarRegistration] component *)
(* ================================================================== *)

Module CarLists.
Import Js.
Local Open Scope nat_scope.

(** *** [areArraysEqual] *)

(** [a === b] where [b] has just been parsed from a response: primitive
    values compare by value, and an object or array of [b] is never the
    object [a] holds. *)
Definition strict_eq (a b : option value) : bool :=
  match a, b with
  | None, None => true
  | Some VNull, Some VNull => true
  | Some (VBool x), Some (VBool y) => Bool.eqb x y
  | Some (VNum x), Some (VNum y) => Qeq_bool x y
  | Some (VStr x), Some (VStr y) => String.eqb x y
  | _, _ => false
  end.

(** [Object.keys(o)] *)
Definition Object_keys (o : object) : list string := map fst o.

(** [l.every((x, i) => f(x, i))], counting from [i]. *)
Fixpoint every_from {A} (i : nat) (f : A -> nat -> bool) (l : list A) : bool :=
  match l with
  | [] => true
  | x :: rest => f x i && every_from (S i) f rest
  end.

Definition every {A} (f : A -> nat -> bool) (l : list A) : bool := every_from 0 f l.

(** After the comparison of the lengths [arr2[i]] is always there; the
    [None] branch is not reached. *)
Definition areArraysEqual (arr1 arr2 : list object) : bool :=
  if negb (Nat.eqb (List.length arr1) (List.length arr2)) then false
  else
    every
      (fun item1 i =>
         match nth_error arr2 i with
         | Some item2 =>
             forallb (fun key => strict_eq (lookup key item1) (lookup key item2))
               (Object_keys item1)
         | None => false
         end)
      arr1.

(** Every field of [item1] has a strictly equal value in [item2]. *)
Definition agrees (item1 item2 : object) : Prop :=
  forall key, In key (Object_keys item1) ->
    strict_eq (lookup key item1) (lookup key item2) = true.

(** *** [fetchAvailableTickets] *)

Record AvailableTicket : Type := {
  _id : string;
  codigoTicket : string;
  estado : string
}.

(** A ticket as the object the server sends. *)
Definition ticket_object (t : AvailableTicket) : object :=
  [ ("_id", VStr (_id t));
    ("codigoTicket", VStr (codigoTicket t));
    ("estado", VStr (estado t)) ].

(** How a [fetch] of one of the lists ends: it throws (the request or the
    parsing of the body fails), the response is not [ok], or the response is
    [ok] with the list [data]. *)
Inductive fetched (A : Type) : Type :=
| FetchThrew
| NotOk
| Fetched (data : list A).
Arguments FetchThrew {A}.
Arguments NotOk {A}.
Arguments Fetched {A} data.

(** The value of [availableTickets] after [fetchAvailableTickets]: the
    updater keeps [prev] unless the arrays differ. *)
Definition fetchAvailableTickets (r : fetched object) (prev : list object) : list object :=
  match r with
  | Fetched data => if negb (areArraysEqual prev data) then data else prev
  | NotOk | FetchThrew => prev
  end.

(** *** The list of parked cars on the desktop layout *)

Module Car.
Record images : Type := {
  plateImageUrl : option string;
  vehicleImageUrl : option string;
  fechaCaptura : option string;
  capturaMetodo : option string;
  confianzaPlaca : option Q;
  confianzaVehiculo : option Q
}.

Record t : Type := {
  _id : string;
  placa : string;
  marca : string;
  modelo : string;
  color : string;
  nombreDueño : string;
  telefono : string;
  ticketAsociado : string;
  horaIngreso : string;
  estado : string;
  nota : option string;
  imagenes : option images
}.
End Car.

Inductive badge : Type :=
| Confirmado
| Pendiente.

(** One row of the list: the car, its badge, and whether the note, the entry
    time (instead of "Sin fecha"), the image previews and the "Ver Imágenes"
    button are shown. *)
Record row : Type := {
  row_car : Car.t;
  row_badge : badge;
  row_note : bool;
  row_entry_time : bool;
  row_previews : bool;
  row_view_button : bool
}.

Inductive car_list : Type :=
| NoCarsNotice
| Rows (rows : list row).

(** The [filter] of the list. *)
Definition parked (car : Car.t) : bool :=
  String.eqb (Car.estado car) "estacionado"
  || String.eqb (Car.estado car) "estacionado_confirmado".

(** An optional text that is there and not empty. *)
Definition shown (text : option string) : bool :=
  match text with
  | Some t => negb (String.eqb t "")
  | None => false
  end.

Definition car_row (car : Car.t) : row :=
  {| row_car := car;
     row_badge :=
       if String.eqb (Car.estado car) "estacionado_confirmado" then Confirmado
       else Pendiente;
     row_note := shown (Car.nota car);
     row_entry_time := negb (String.eqb (Car.horaIngreso car) "");
     row_previews :=
       match Car.imagenes car with
       | Some i => shown (Car.plateImageUrl i) || shown (Car.vehicleImageUrl i)
       | None => false
       end;
     row_view_button :=
       match Car.imagenes car with
       | Some _ => true
       | None => false
       end |}.

(** [cars?.length === 0 ? notice : cars.filter(...).map(...)] *)
Definition desktop_cars (cars : list Car.t) : car_list :=
  if Nat.eqb (List.length cars) 0 then NoCarsNotice
  else Rows (map car_row (List.filter parked cars)).

(** *** The [name] attribute of a form control *)

Definition field_name (name : CarRegistration.field) : string :=
  match name with
  | CarRegistration.Placa => "placa"
  | CarRegistration.Marca => "marca"
  | CarRegistration.Modelo => "modelo"
  | CarRegistration.Color => "color"
  | CarRegistration.NombreDueño => "nombreDueño"
  | CarRegistration.Telefono => "telefono"
  | CarRegistration.TicketAsociado => "ticketAsociado"
  | CarRegistration.Nota => "nota"
  end.

(** A value that is not an object: [null], a boolean, a number or a string. *)
Definition primitive (v : value) : bool :=
  match v with
  | VNull | VBool _ | VNum _ | VStr _ => true
  | _ => false
  end.

(** An event other than the end of the [fetch] of [handleSubmit]. *)
Definition not_settled (e : CarRegistration.event) : bool :=
  match e with
  | CarRegistration.SubmitSettled _ => false
  | _ => true
  end.

End CarLists.

(* ================================================================== *)
(** ** What a route leaves alone *)
(* ================================================================== *)

Module Frames.
Import Js Store Http.

(** Every run of [m] relates the world it starts in to the world it ends in
    by [R], whether it returns or throws. *)
Definition keeps {A} (R : world -> world -> Prop) (m : M A) : Prop :=
  forall w, R w (snd (m w)).

(** No collection has changed, and the database is the one it was. *)
Definition store_kept (w w' : world) : Prop :=
  ops w' = ops w /\ forall coll, db w' coll = db w coll.

(** No collection other than ["ticket_subscriptions"] has changed. *)
Definition others_kept (w w' : world) : Prop :=
  forall coll, coll <> "ticket_subscriptions" -> db w' coll = db w coll.

(** ["ticket_subscriptions"] holds as many records as before, and no other
    collection has changed. *)
Definition records_kept (w w' : world) : Prop :=
  List.length (db w' "ticket_subscriptions")
  = List.length (db w "ticket_subscriptions") /\
  others_kept w w'.

(** No record of ["ticket_subscriptions"] has been removed but those the
    database selects for the filter [pair]. *)
Definition spares (pair : filter_spec) (w w' : world) : Prop :=
  ops w' = ops w /\
  forall d,
    In d (db w "ticket_subscriptions") ->
    matches (ops w) pair d = false ->
    In d (db w' "ticket_subscriptions").

(** Position by position, a record of ["ticket_subscriptions"] that the
    database does not select for the filter [f] is the record it was. *)
Definition unselected_kept (f : filter_spec) (w w' : world) : Prop :=
  ops w' = ops w /\
  Forall2 (fun d d' => matches (ops w) f d = false -> d' = d)
    (db w "ticket_subscriptions") (db w' "ticket_subscriptions").

End Frames.

(* ================================================================== *)
(** ** Vocabulary for the texts [trim] is applied to *)
(* ================================================================== *)

Module TrimDefs.
Import Js CarRegistration.
Local Open Scope nat_scope.

(** The texts made of white-space characters only. *)
Definition blanks (ws : list string) : string := fold_right String.append "" ws.

(** [c] is the first byte of the encoding of a white-space character. *)
Definition starts_white (c : ascii) : bool :=
  existsb
    (fun w => match w with
              | String a _ => Ascii.eqb a c
              | EmptyString => true
              end)
    white_space.

(** [u] followed by the character [c]. *)
Definition snoc (u : string) (c : ascii) : string := (u ++ String c "")%string.

(** The last character of [p] is not [c]; [p] is not empty. *)
Fixpoint ends_other (c : ascii) (p : string) : bool :=
  match p with
  | EmptyString => false
  | String a EmptyString => negb (Ascii.eqb a c)
  | String _ p' => ends_other c p'
  end.

End TrimDefs.

(* ================================================================== *)
(** ** Sample data *)
(* ================================================================== *)

Module Samples.
Import Js Store Http Routes CarRegistration.

Definition subscription_record (id : N) (endpoint userType : string) : doc :=
  [ ("_id", VId id);
    ("subscription",
     VObj [ ("endpoint", VStr endpoint);
            ("keys", VObj [ ("p256dh", VStr "BNc"); ("auth", VStr "tBH") ]) ]);
    ("userType", VStr userType);
    ("ticketCodes", VArr [VStr "T-001"]);
    ("isActive", VBool true);
    ("lifecycle", VObj [ ("stage", VStr "active") ]) ].

Definition payment (id : N) (estado estadoValidacion : string) (fechaPago : Z) : doc :=
  [ ("_id", VId id);
    ("ticketId", VId (id + 100));
    ("codigoTicket", VStr "T-001");
    ("tipoPago", VStr "pago_movil");
    ("referenciaTransferencia", VStr "0001");
    ("banco", VStr "0102");
    ("telefono", VStr "0414-1234567");
    ("numeroIdentidad", VStr "V-1");
    ("montoPagado", VNum 120);
    ("montoPagadoUsd", VNum 3);
    ("montoCalculado", VNum 3);
    ("montoCalculadoTotal", VNum 3);
    ("tasaCambioUsada", VNum 40);
    ("fechaPago", VDate fechaPago);
    ("estado", VStr estado);
    ("estadoValidacion", VStr estadoValidacion);
    ("tiempoSalida", VStr "now");
    ("tiempoSalidaEstimado", VDate (fechaPago + 600000));
    ("carInfo", VObj [ ("placa", VStr "ABC123") ]);
    ("urlImagenComprobante", VStr "https://img.example/c.jpg");
    ("urlImagenTickets", VNull);
    ("isMultiplePayment", VBool false);
    ("ticketQuantity", VNum 1);
    ("validadoPor", VStr "admin");
    ("comentario", VStr "-") ].

Definition store (coll : string) : collection :=
  if String.eqb coll "ticket_subscriptions" then
    [ subscription_record 1 "https://push.example/a" "user";
      subscription_record 2 "https://push.example/a" "admin";
      subscription_record 3 "https://push.example/a" "user";
      subscription_record 4 "https://push.example/b" "user" ]
  else if String.eqb coll "pagos" then
    [ payment 11 "pendiente_validacion" "pendiente" 1000;
      payment 12 "pagado" "validado" 2000;
      payment 13 "pendiente_validacion" "pendiente" 3000;
      payment 14 "pendiente_validacion" "rechazado" 4000 ]
  else [].

(** A database that reads the operator documents [{ $eq: v }] and
    [{ $ne: v }]: the first selects what the condition [v] selects, the
    second what it does not.  It refuses every other operator document. *)
Definition comparison : operators :=
  {| refuses :=
       fun o =>
         match o with
         | [(k, _)] =>
             if String.eqb k "$eq" || String.eqb k "$ne" then None
             else Some ("unknown operator: " ++ k)%string
         | _ => Some "unknown operator"
         end;
     selects :=
       fun o p d =>
         match o with
         | [(k, v)] =>
             if String.eqb k "$eq" then
               existsb (holds v) (reached p (Some (VObj d)))
             else negb (existsb (holds v) (reached p (Some (VObj d))))
         | _ => false
         end |}.

(** A world in which no driver call is rejected. *)
Definition world0 : world :=
  {| db := store; calls := []; faults := fun _ => None;
     clock := fun n => Z.of_nat n; reads := 0; next_id := 50;
     ops := comparison |}.

(** The same world, except that the fourth driver call is rejected. *)
Definition world_rejecting_insert : world :=
  {| db := store; calls := [];
     faults := fun n => if Nat.eqb n 3 then Some "connection closed" else None;
     clock := fun n => Z.of_nat n; reads := 0; next_id := 50;
     ops := comparison |}.

Definition subscribe (endpoint userType : string) : request :=
  {| req_body :=
       Json (VObj [ ("subscription",
                     VObj [ ("endpoint", VStr endpoint);
                            ("keys", VObj [ ("p256dh", VStr "BNc");
                                            ("auth", VStr "tBH") ]) ]);
                    ("userType", VStr userType);
                    ("ticketCode", VStr "T-002") ]);
     req_headers := [ ("user-agent", "Mozilla/5.0") ] |}.

Definition with_body (v : value) : request :=
  {| req_body := Json v; req_headers := [] |}.

(** A subscription whose [userType] is any value. *)
Definition subscribe_as (endpoint : string) (userType : value) : request :=
  with_body
    (VObj [ ("subscription",
             VObj [ ("endpoint", VStr endpoint);
                    ("keys", VObj [ ("p256dh", VStr "BNc");
                                    ("auth", VStr "tBH") ]) ]);
            ("userType", userType) ]).

(** The sample world with [payments] as its collection ["pagos"]. *)
Definition with_payments (payments : collection) : world :=
  set_coll "pagos" payments world0.

(** The response and the world a route ends with. *)
Definition response_of (x : result response * world) : response :=
  match fst x with
  | Ok r => r
  | Throw _ => NextResponse_json VNull 0
  end.

Definition vehicle : VehicleData.t :=
  {| VehicleData.placa := "ABC123"; VehicleData.marca := "Toyota";
     VehicleData.modelo := "Corolla"; VehicleData.color := "Blanco";
     VehicleData.plateImageUrl := "https://img.example/p.jpg";
     VehicleData.vehicleImageUrl := "https://img.example/v.jpg";
     VehicleData.plateConfidence := 9 # 10;
     VehicleData.vehicleConfidence := 8 # 10 |}.

End Samples.

(* ================================================================== *)
(** ** Properties of values and of the store operations *)
(* ================================================================== *)

Module StoreFacts.
Import Js Store.

(** Induction over values that reaches inside arrays and objects. *)
Section ValueInduction.
Variable P : value -> Prop.
Hypothesis HNull : P VNull.
Hypothesis HBool : forall b, P (VBool b).
Hypothesis HNum : forall q, P (VNum q).
Hypothesis HStr : forall s, P (VStr s).
Hypothesis HDate : forall ms, P (VDate ms).
Hypothesis HId : forall n, P (VId n).
Hypothesis HArr : forall xs, Forall P xs -> P (VArr xs).
Hypothesis HObj : forall fs, Forall (fun kv => P (snd kv)) fs -> P (VObj fs).

Fixpoint value_deep_ind (v : value) : P v :=
  match v with
  | VNull => HNull
  | VBool b => HBool b
  | VNum q => HNum q
  | VStr s => HStr s
  | VDate ms => HDate ms
  | VId n => HId n
  | VArr xs =>
      HArr xs
        ((fix all (l : list value) : Forall P l :=
            match l with
            | [] => Forall_nil _
            | x :: l' => Forall_cons x (value_deep_ind x) (all l')
            end) xs)
  | VObj fs =>
      HObj fs
        ((fix all (l : list (string * value)) : Forall (fun kv => P (snd kv)) l :=
            match l with
            | [] => Forall_nil _
            | kv :: l' =>
                Forall_cons (P := fun kv => P (snd kv)) kv
                  (value_deep_ind (snd kv)) (all l')
            end) fs)
  end.
End ValueInduction.

Lemma value_eqb_refl (v : value) : value_eqb v v = true.
Proof.
  induction v using value_deep_ind; simpl;
    auto using Bool.eqb_reflx, String.eqb_refl, Z.eqb_refl, N.eqb_refl.
  - apply Qeq_bool_iff. reflexivity.
  - induction H as [|x xs Hx _ IH]; [reflexivity|].
    now rewrite Hx, IH.
  - induction H as [|[k x] fs Hx _ IH]; [reflexivity|].
    simpl in Hx. now rewrite String.eqb_refl, Hx, IH.
Qed.

(** Comparing with a string succeeds on that string only. *)
Lemma value_eqb_str (v : value) (s : string) :
  value_eqb v (VStr s) = true <-> v = VStr s.
Proof.
  split.
  - destruct v; simpl; try discriminate.
    intros H. apply String.eqb_eq in H. now subst.
  - intros ->. apply value_eqb_refl.
Qed.

Lemma lookup_filter_keys (keep : string -> bool) (k : string) (d : doc) :
  lookup k (List.filter (fun kv => keep (fst kv)) d)
  = if keep k then lookup k d else None.
Proof.
  induction d as [|[k' v] d IH]; simpl.
  - now destruct (keep k).
  - destruct (String.eqb k k') eqn:E.
    + apply String.eqb_eq in E. rewrite <- E.
      destruct (keep k) eqn:K; simpl.
      * now rewrite String.eqb_refl.
      * exact IH.
    + destruct (keep k') eqn:K'; simpl; [rewrite E|]; exact IH.
Qed.

(** A projected document shows a field exactly when the field is listed, and
    then with the stored value. *)
Lemma lookup_project (fields : list string) (k : string) (d : doc) :
  lookup k (project fields d)
  = if existsb (String.eqb k) fields then lookup k d else None.
Proof.
  unfold project.
  apply (lookup_filter_keys (fun k => existsb (String.eqb k) fields)).
Qed.

Lemma project_keys (fields : list string) (d : doc) :
  Forall (fun kv => In (fst kv) fields) (project fields d).
Proof.
  unfold project. apply Forall_forall. intros kv H.
  apply filter_In in H. destruct H as [_ H].
  apply existsb_exists in H. destruct H as [f [Hin Heq]].
  apply String.eqb_eq in Heq. now subst.
Qed.

(** *** The order of sort keys *)

Lemma key_leb_total (a b : list Q) : key_leb a b = false -> key_leb b a = true.
Proof.
  revert b. induction a as [|x a IH]; intros [|y b]; simpl; try discriminate; auto.
  rewrite <- (Qcompare_antisym x y).
  destruct (x ?= y)%Q; simpl; auto; discriminate.
Qed.

Lemma key_leb_trans (a b c : list Q) :
  key_leb a b = true -> key_leb b c = true -> key_leb a c = true.
Proof.
  revert b c. induction a as [|x a IH]; intros [|y b] [|z c]; simpl; auto;
    try discriminate.
  destruct (x ?= y)%Q eqn:Exy; try discriminate;
    destruct (y ?= z)%Q eqn:Eyz; try discriminate; intros Hab Hbc.
  - apply Qeq_alt in Exy. apply Qeq_alt in Eyz.
    assert (E : (x ?= z)%Q = Eq) by (apply Qeq_alt; now rewrite Exy).
    rewrite E. eauto.
  - apply Qeq_alt in Exy. apply Qlt_alt in Eyz.
    assert (E : (x ?= z)%Q = Lt) by (apply Qlt_alt; now rewrite Exy).
    now rewrite E.
  - apply Qlt_alt in Exy. apply Qeq_alt in Eyz.
    assert (E : (x ?= z)%Q = Lt) by (apply Qlt_alt; now rewrite <- Eyz).
    now rewrite E.
  - apply Qlt_alt in Exy. apply Qlt_alt in Eyz.
    assert (E : (x ?= z)%Q = Lt) by (apply Qlt_alt; eapply Qlt_trans; eauto).
    now rewrite E.
Qed.

Lemma insert_desc_perm (k : string) (d : doc) (l : list doc) :
  Permutation (d :: l) (insert_desc k d l).
Proof.
  induction l as [|x l IH]; simpl; [reflexivity|].
  destruct (key_leb _ _); [reflexivity|].
  rewrite perm_swap. now apply perm_skip.
Qed.

Lemma insert_desc_sorted (k : string) (d : doc) (l : list doc) :
  StronglySorted (desc k) l -> StronglySorted (desc k) (insert_desc k d l).
Proof.
  induction l as [|x l IH]; simpl; intros Hs.
  - constructor; [constructor|constructor].
  - destruct (key_leb (field_key k x) (field_key k d)) eqn:E.
    + constructor; [exact Hs|].
      constructor; [exact E|].
      inversion Hs as [|? ? _ Hall]; subst.
      eapply Forall_impl; [|exact Hall].
      intros y Hy. unfold desc in *. eapply key_leb_trans; eauto.
    + inversion Hs as [|? ? Hl Hall]; subst.
      constructor; [now apply IH|].
      apply key_leb_total in E.
      eapply Permutation_Forall; [apply insert_desc_perm|].
      constructor; assumption.
Qed.

Lemma sort_desc_perm (k : string) (l : list doc) : Permutation l (sort_desc k l).
Proof.
  induction l as [|d l IH]; simpl; [reflexivity|].
  etransitivity; [apply perm_skip, IH|apply insert_desc_perm].
Qed.

Lemma sort_desc_sorted (k : string) (l : list doc) :
  StronglySorted (desc k) (sort_desc k l).
Proof.
  induction l as [|d l IH]; simpl; [constructor|].
  now apply insert_desc_sorted.
Qed.

Lemma lookup_set_field_same (k : string) (v : value) (o : object) :
  lookup k (set_field k v o) = Some v.
Proof.
  induction o as [|[k' x] o IH]; simpl.
  - now rewrite String.eqb_refl.
  - destruct (String.eqb k k') eqn:E; simpl.
    + now rewrite String.eqb_refl.
    + now rewrite E.
Qed.

Lemma lookup_set_field_other (k k' : string) (v : value) (o : object) :
  String.eqb k' k = false -> lookup k' (set_field k v o) = lookup k' o.
Proof.
  intros Hne. induction o as [|[k0 x] o IH]; simpl.
  - now rewrite Hne.
  - destruct (String.eqb k k0) eqn:E; simpl.
    + apply String.eqb_eq in E. subst k0. now rewrite Hne.
    + now rewrite IH.
Qed.

Lemma find_after_delete (q : operators) (f : filter_spec) (c : collection) :
  find q f (fst (deleteMany q f c)) = [].
Proof.
  unfold find, deleteMany. simpl.
  induction c as [|d c IH]; simpl; [reflexivity|].
  destruct (matches q f d) eqn:E; simpl; [exact IH|].
  now rewrite E.
Qed.

Lemma updateMany_length (q : operators) (f : filter_spec) (upd : list (path * value))
    (c : collection) :
  List.length (updated (updateMany q f upd c)) = List.length c.
Proof.
  induction c as [|d c IH]; simpl; [reflexivity|].
  destruct (matches q f d); [destruct (apply_set upd d)|]; simpl; congruence.
Qed.

Lemma updateMany_each (q : operators) (f : filter_spec) (upd : list (path * value))
    (c : collection) :
  writeError (updateMany q f upd c) = false ->
  Forall2 (updated_by q f upd) c (updated (updateMany q f upd c)).
Proof.
  induction c as [|d c IH]; simpl; [constructor|].
  destruct (matches q f d) eqn:E.
  - destruct (apply_set upd d) as [d'|] eqn:A; simpl; [|discriminate].
    intros H. constructor; [|auto]. unfold updated_by. now rewrite E.
  - simpl. intros H. constructor; [|auto]. unfold updated_by. now rewrite E.
Qed.

(** [modifiedCount] is the number of documents that differ afterwards. *)
Lemma updateMany_count (q : operators) (f : filter_spec) (upd : list (path * value))
    (c : collection) :
  writeError (updateMany q f upd c) = false ->
  modifiedCount (updateMany q f upd c)
  = List.length
      (List.filter (fun p => negb (doc_eqb (fst p) (snd p)))
         (combine c (updated (updateMany q f upd c)))).
Proof.
  induction c as [|d c IH]; simpl; [reflexivity|].
  destruct (matches q f d) eqn:E.
  - destruct (apply_set upd d) as [d'|] eqn:A; simpl; [|discriminate].
    intros H. rewrite (IH H). now destruct (doc_eqb d d').
  - simpl. intros H. rewrite (IH H).
    unfold doc_eqb at 2. now rewrite value_eqb_refl.
Qed.

Lemma updateMany_none (q : operators) (f : filter_spec) (upd : list (path * value))
    (c : collection) :
  find q f c = [] ->
  updateMany q f upd c = {| updated := c; modifiedCount := 0; writeError := false |}.
Proof.
  unfold find. induction c as [|d c IH]; simpl; [reflexivity|].
  destruct (matches q f d); [discriminate|].
  intros H. now rewrite (IH H).
Qed.

Lemma field_key_project (fields : list string) (k : string) (d : doc) :
  existsb (String.eqb k) fields = true ->
  field_key k (project fields d) = field_key k d.
Proof.
  intros H. unfold field_key. now rewrite lookup_project, H.
Qed.

Lemma StronglySorted_map {A B} (R : A -> A -> Prop) (R' : B -> B -> Prop)
    (f : A -> B) (l : list A) :
  (forall a b, R a b -> R' (f a) (f b)) ->
  StronglySorted R l -> StronglySorted R' (map f l).
Proof.
  intros Hf. induction 1 as [|a l Hs IH Hall]; simpl; constructor; auto.
  apply Forall_map. eapply Forall_impl; [|exact Hall]. auto.
Qed.

End StoreFacts.

(* ================================================================== *)
(** ** Properties of the handler monad and of the routes *)
(* ================================================================== *)

Module RouteFacts.
Import Js Store Http Routes StoreFacts.
Local Open Scope route_scope.

(** *** Driver calls are made one at a time, until one is rejected *)

Lemma driver_ok {A} (c : call) (op : M A) (w : world) :
  faults w (List.length (calls w)) = None -> driver c op w = op (log_call c w).
Proof. unfold driver. now intros ->. Qed.

Lemma silent_fails_fast {A} (m : M A) : silent m -> fails_fast m.
Proof.
  intros H w. destruct (H w) as [Hc Hf]. rewrite Hc, Hf.
  split; [reflexivity|]. split; [lia|]. intros; lia.
Qed.

Lemma driver_fails_fast {A} (c : call) (op : M A) :
  silent op -> fails_fast (driver c op).
Proof.
  intros H w. unfold driver.
  destruct (faults w (List.length (calls w))) as [msg|] eqn:F; simpl.
  - split; [reflexivity|]. split; [lia|].
    intros n Hn _. split; [lia|eauto].
  - destruct (H (log_call c w)) as [Hc Hf]. rewrite Hc, Hf. simpl.
    split; [reflexivity|]. split; [lia|]. intros n Hn Hne.
    assert (n = List.length (calls w)) by lia. subst n. contradiction.
Qed.

Lemma bind_fails_fast {A B} (m : M A) (k : A -> M B) :
  fails_fast m -> (forall a, fails_fast (k a)) -> fails_fast (bind m k).
Proof.
  intros Hm Hk w. unfold bind.
  destruct (Hm w) as (Hf & Hle & Hm').
  destruct (m w) as [[a|e] w1] eqn:E; simpl in *.
  - destruct (Hk a w1) as (Hf2 & Hle2 & Hk').
    split; [congruence|]. split; [lia|].
    intros n Hn Hne.
    destruct (Nat.lt_ge_cases n (List.length (calls w1))) as [Hlt|Hge].
    + destruct (Hm' n) as [_ [e He]]; [lia|assumption|discriminate].
    + apply Hk'; [lia|]. now rewrite Hf.
  - split; [assumption|]. split; [assumption|].
    intros n Hn Hne. split; [now apply Hm'|eauto].
Qed.

Lemma ret_silent {A} (a : A) : silent (ret a).
Proof. intros w. now split. Qed.

Lemma throw_silent {A} (e : error) : silent (@throw A e).
Proof. intros w. now split. Qed.

Lemma new_Date_silent : silent new_Date.
Proof. intros w. now split. Qed.

Lemma request_json_silent (r : request) : silent (request_json r).
Proof. intros w. unfold request_json. now destruct (req_body r). Qed.

Lemma destructure_silent (v : value) : silent (destructure v).
Proof. intros w. now destruct v. Qed.

Lemma log_endpoint_silent (o : option value) : silent (log_endpoint o).
Proof.
  intros w. unfold log_endpoint.
  destruct (opt_prop o "endpoint") as [[]|]; now split.
Qed.

Lemma bind_silent {A B} (m : M A) (k : A -> M B) :
  silent m -> (forall a, silent (k a)) -> silent (bind m k).
Proof.
  intros Hm Hk w. unfold bind. destruct (Hm w) as [Hc Hf].
  destruct (m w) as [[a|e] w1]; simpl in *; [|now split].
  destruct (Hk a w1) as [Hc' Hf']. split; congruence.
Qed.

Lemma template_silent (vs : list (option value)) : silent (template vs).
Proof. intros w. unfold template. now destruct (forallb coercible_opt vs). Qed.

Lemma forEach_from_silent {A} (f : A -> nat -> M unit) (l : list A) (i : nat) :
  (forall x j, silent (f x j)) -> silent (forEach_from i f l).
Proof.
  intros Hf. revert i. induction l as [|x l IH]; intros i; simpl.
  - apply ret_silent.
  - apply bind_silent; [apply Hf|intros _; apply IH].
Qed.

Ltac silent_step :=
  first
    [ apply ret_silent | apply throw_silent | apply new_Date_silent
    | apply request_json_silent | apply destructure_silent
    | apply log_endpoint_silent | apply template_silent
    | apply forEach_from_silent; intros ? ?
    | apply bind_silent; [|intros ?]
    | match goal with |- silent (if ?b then _ else _) => destruct b end ].

Lemma query_fails_fast {A} (c : call) (f : filter_spec) (op : M A) :
  silent op -> fails_fast (query c f op).
Proof.
  intros H. apply driver_fails_fast. intros w.
  destruct (refusal (ops w) f); [now split|apply H].
Qed.

Ltac silent_op :=
  intros ?; cbv beta zeta;
  repeat match goal with |- context [let (_, _) := ?x in _] => destruct x end;
  repeat match goal with |- context [if ?x then _ else _] => destruct x end;
  now split.

Ltac fails_fast_step :=
  first
    [ apply bind_fails_fast; [|intros ?]
    | apply query_fails_fast; silent_op
    | apply driver_fails_fast; silent_op
    | apply silent_fails_fast; unfold forEach; solve [repeat silent_step]
    | match goal with |- fails_fast (if ?b then _ else _) => destruct b end ].

Lemma GET_try_fails_fast : fails_fast GET_try.
Proof.
  unfold GET_try, connect, db_find_sort_project. repeat fails_fast_step.
Qed.

Lemma POST_try_fails_fast (request : request) : fails_fast (POST_try request).
Proof.
  unfold POST_try, connect, db_find, db_deleteMany, db_insertOne, db_findOne.
  repeat fails_fast_step.
Qed.

Lemma DELETE_try_fails_fast (request : request) : fails_fast (DELETE_try request).
Proof.
  unfold DELETE_try, connect, db_find, db_updateMany.
  repeat fails_fast_step.
Qed.

(** *** Status codes of the [try] blocks *)

Lemma bind_answers {A} (allowed : list Z) (m : M A) (k : A -> M response) :
  (forall a, answers allowed (k a)) -> answers allowed (bind m k).
Proof.
  intros Hk w r w'. unfold bind.
  destruct (m w) as [[a|e] w1]; [apply Hk|discriminate].
Qed.

Lemma ret_answers (allowed : list Z) (r : response) :
  In (status r) allowed -> answers allowed (ret r).
Proof. intros H w r' w' E. injection E as <- _. exact H. Qed.

Ltac answers_step :=
  first
    [ apply bind_answers; intros ?
    | match goal with |- answers _ (if ?b then _ else _) => destruct b end
    | apply ret_answers; simpl; tauto ].

Lemma GET_try_answers : answers [200] GET_try.
Proof. unfold GET_try. repeat answers_step. Qed.

Lemma POST_try_answers (request : request) : answers [201; 400] (POST_try request).
Proof. unfold POST_try. repeat answers_step. Qed.

Lemma DELETE_try_answers (request : request) :
  answers [200; 400; 404] (DELETE_try request).
Proof. unfold DELETE_try. repeat answers_step. Qed.

Lemma try_catch_recovers (block : M response) (handler : error -> M response)
    (oks : list Z) (w : world) :
  fails_fast block -> answers oks block ->
  (forall e w1, exists r, handler e w1 = (Ok r, w1) /\ status r = 500) ->
  recovers_by_500 block (try_catch block handler) oks w.
Proof.
  intros Hff Hans Hh. unfold recovers_by_500, try_catch.
  destruct (Hff w) as (_ & _ & Hk).
  destruct (block w) as [[r1|e] w1] eqn:E; simpl in *.
  - exists r1, w1. split; [reflexivity|].
    split; [discriminate|]. split.
    + intros k Hr Hne. destruct (Hk k Hr Hne) as [_ [e He]]. discriminate.
    + intros r2 w2 [= <- <-]. eauto.
  - destruct (Hh e w1) as (r & Hr & Hs). exists r, w1. rewrite Hr.
    split; [reflexivity|]. split; [now intros ? ? [= _ <-]|]. split.
    + intros k Hrange Hne. destruct (Hk k Hrange Hne) as [Hlen _]. auto.
    + discriminate.
Qed.

(** *** Running the routes *)

Lemma holds_text_iff (s : string) (x : option value) :
  holds (VStr s) x = true <->
  x = Some (VStr s) \/ exists xs, x = Some (VArr xs) /\ In (VStr s) xs.
Proof.
  destruct x as [y|]; simpl.
  2:{ split; [discriminate|]. intros [H|(xs & H & _)]; discriminate. }
  destruct y; simpl;
    try (split; [discriminate|intros [H|(ys & H & _)]; discriminate]).
  - rewrite String.eqb_eq. split.
    + intros ->. now left.
    + intros [[= ->]|(ys & H & _)]; [reflexivity|discriminate].
  - rewrite existsb_exists. split.
    + intros (e & Hin & He). apply value_eqb_str in He. subst e.
      right. eauto.
    + intros [H|(ys & [= <-] & Hin)]; [discriminate|].
      exists (VStr s). split; [exact Hin|apply value_eqb_refl].
Qed.

Lemma matches_pending (q : operators) (d : doc) :
  matches q pending_filter d = true <-> pending d.
Proof.
  unfold matches, pending_filter, pending, holds_text, field_matches.
  cbn [forallb fst snd operator_document reached existsb].
  rewrite !orb_false_r, andb_true_r, andb_true_iff, !holds_text_iff.
  reflexivity.
Qed.

Lemma query_ok {A} (c : call) (f : filter_spec) (op : M A) (w : world) :
  faults w (List.length (calls w)) = None ->
  refusal (ops w) f = None ->
  query c f op w = op (log_call c w).
Proof. intros F Ha. unfold query. rewrite driver_ok by exact F. simpl. now rewrite Ha. Qed.

Lemma template_ok (vs : list (option value)) (w : world) :
  forallb coercible_opt vs = true -> template vs w = (Ok tt, w).
Proof. unfold template. now intros ->. Qed.

Lemma template_ok_inv (vs : list (option value)) (w w' : world) (u : unit) :
  template vs w = (Ok u, w') -> forallb coercible_opt vs = true /\ w' = w.
Proof.
  unfold template. destruct (forallb coercible_opt vs); [|discriminate].
  now intros [= _ <-].
Qed.

Lemma forEach_from_ok {A} (f : A -> nat -> M unit) (l : list A) (i : nat) (w : world) :
  (forall x j, In x l -> f x j w = (Ok tt, w)) ->
  forEach_from i f l w = (Ok tt, w).
Proof.
  revert i. induction l as [|x l IH]; intros i Hf; simpl; [reflexivity|].
  unfold bind. rewrite (Hf x i) by now left. apply IH. intros y j Hy. apply Hf. now right.
Qed.

(** A loop whose body leaves the world alone goes through only when its
    body does at every element, and leaves the world alone. *)
Lemma forEach_from_ok_inv {A} (f : A -> nat -> M unit) (l : list A) (i : nat)
    (w w' : world) (u : unit) :
  (forall x j w1 w2 u1, f x j w1 = (Ok u1, w2) -> w2 = w1) ->
  forEach_from i f l w = (Ok u, w') ->
  w' = w /\ forall x, In x l -> exists j, f x j w = (Ok tt, w).
Proof.
  intros Hf. revert i. induction l as [|x l IH]; intros i; simpl.
  - intros [= _ <-]. split; [reflexivity|]. intros x [].
  - unfold bind. destruct (f x i w) as [[[]|e] w1] eqn:E; [|discriminate].
    pose proof (Hf _ _ _ _ _ E) as ->. intros H.
    destruct (IH _ H) as [-> Hall]. split; [reflexivity|].
    intros y [<-|Hy]; [eauto|auto].
Qed.

Lemma payment_lines_ok (payment : doc) (w : world) :
  printable_payment payment = true ->
  bind
    (template
       [ lookup "codigoTicket" payment;
         text (if truthy_opt (lookup "urlImagenComprobante" payment)
               then "SÍ" else "NO") ])
    (fun _ =>
       template
         [ lookup "codigoTicket" payment;
           text (if truthy_opt (lookup "urlImagenTickets" payment)
                 then "SÍ" else "NO") ]) w
  = (Ok tt, w).
Proof.
  unfold printable_payment, bind, template. cbn [forallb]. intros ->.
  reflexivity.
Qed.

Lemma payment_lines_ok_inv (payment : doc) (w w' : world) (u : unit) :
  bind
    (template
       [ lookup "codigoTicket" payment;
         text (if truthy_opt (lookup "urlImagenComprobante" payment)
               then "SÍ" else "NO") ])
    (fun _ =>
       template
         [ lookup "codigoTicket" payment;
           text (if truthy_opt (lookup "urlImagenTickets" payment)
                 then "SÍ" else "NO") ]) w
  = (Ok u, w') ->
  printable_payment payment = true /\ w' = w.
Proof.
  unfold printable_payment, bind, template. cbn [forallb].
  destruct (coercible_opt (lookup "codigoTicket" payment)); simpl; [|discriminate].
  now intros [= _ <-].
Qed.

Lemma GET_ok (w : world) :
  faults w (List.length (calls w)) = None ->
  faults w (S (List.length (calls w))) = None ->
  forallb printable_payment (pending_payments w) = true ->
  exists r,
    GET w = (Ok r, log_call (CFind "pagos") (log_call CConnect w)) /\
    status r = 200 /\
    payload r = VArr (map VObj (pending_payments w)).
Proof.
  intros F0 F1 Hp. eexists.
  unfold GET, try_catch, GET_try, bind at 1, connect.
  rewrite driver_ok by assumption. cbn [ret].
  unfold bind at 1, db_find_sort_project.
  rewrite query_ok by (try reflexivity; assumption).
  cbn [calls log_call db ops].
  unfold bind at 1. rewrite template_ok by reflexivity.
  unfold bind at 1, forEach.
  rewrite forEach_from_ok.
  - split; [reflexivity|]. split; reflexivity.
  - intros payment j Hin. apply payment_lines_ok.
    rewrite forallb_forall in Hp. now apply Hp.
Qed.

Lemma holds_refl (v : value) : holds v (Some v) = true.
Proof.
  unfold holds. destruct v; try apply value_eqb_refl.
  now rewrite value_eqb_refl.
Qed.

(** A path that leads through embedded documents reaches one value. *)
Lemma reached_get_path (p : path) (x v : value) :
  get_path p x = Some v -> reached p (Some x) = [Some v].
Proof.
  revert x. induction p as [|k p IH]; intros x; simpl.
  - now intros [= ->].
  - destruct x; simpl; try discriminate.
    destruct (lookup k fields) as [y|]; [apply IH|discriminate].
Qed.

(** A record is selected by the filter made of its own endpoint and user
    type, when the database compares with the latter. *)
Lemma record_of_pair (q : operators) (endpoint userType : value) (d : doc) :
  operator_document endpoint = None ->
  operator_document userType = None ->
  get_path ["subscription"; "endpoint"] (VObj d) = Some endpoint ->
  lookup "userType" d = Some userType ->
  matches q (subscription_filter endpoint userType) d = true.
Proof.
  intros He Hu Hpath Hlook.
  unfold matches, subscription_filter, field_matches.
  cbn [forallb fst snd]. rewrite He, Hu.
  rewrite (reached_get_path _ _ _ Hpath).
  cbn [reached]. rewrite Hlook. cbn [existsb].
  now rewrite !holds_refl.
Qed.

Lemma record_of_endpoint (q : operators) (endpoint : value) (d : doc) :
  operator_document endpoint = None ->
  get_path ["subscription"; "endpoint"] (VObj d) = Some endpoint ->
  matches q (endpoint_filter endpoint) d = true.
Proof.
  intros He Hpath.
  unfold matches, endpoint_filter, field_matches.
  cbn [forallb fst snd]. rewrite He.
  rewrite (reached_get_path _ _ _ Hpath). cbn [existsb].
  now rewrite holds_refl.
Qed.

(** The documents [GET] reads are the stored documents that are pending. *)
Lemma in_pending_payments (w : world) (d : doc) :
  In d (sort_desc "fechaPago" (find (ops w) pending_filter (db w "pagos")))
  <-> In d (db w "pagos") /\ pending d.
Proof.
  rewrite <- (matches_pending (ops w)). unfold find. rewrite <- filter_In.
  split; apply Permutation_in; [symmetry|]; apply sort_desc_perm.
Qed.

Lemma pending_project (d : doc) : pending d -> pending (project pending_projection d).
Proof.
  unfold pending, holds_text. now rewrite !lookup_project.
Qed.

Lemma pending_payments_printable (w : world) :
  (forall d, In d (db w "pagos") -> pending d -> printable_payment d = true) ->
  forallb printable_payment (pending_payments w) = true.
Proof.
  intros H. apply forallb_forall. intros p Hp. unfold pending_payments in Hp.
  apply in_map_iff in Hp. destruct Hp as (d & <- & Hd).
  apply in_pending_payments in Hd. destruct Hd as [Hd Hpend].
  unfold printable_payment. rewrite lookup_project. apply (H d Hd Hpend).
Qed.

Lemma bind_ok_inv {A B} (m : M A) (k : A -> M B) (w w' : world) (b : B) :
  bind m k w = (Ok b, w') ->
  exists a w1, m w = (Ok a, w1) /\ k a w1 = (Ok b, w').
Proof.
  unfold bind. destruct (m w) as [[a|e] w1]; [eauto|discriminate].
Qed.

Lemma driver_ok_inv {A} (c : call) (op : M A) (w w' : world) (a : A) :
  driver c op w = (Ok a, w') ->
  faults w (List.length (calls w)) = None /\ op (log_call c w) = (Ok a, w').
Proof.
  unfold driver. destruct (faults w _); [discriminate|auto].
Qed.

Lemma request_json_ok_inv (r : request) (w w' : world) (v : value) :
  request_json r w = (Ok v, w') -> req_body r = Json v /\ w' = w.
Proof.
  unfold request_json. destruct (req_body r); [discriminate|].
  now intros [= <- <-].
Qed.

Lemma destructure_ok_inv (v v' : value) (w w' : world) :
  destructure v w = (Ok v', w') -> v' = v /\ v <> VNull /\ w' = w.
Proof.
  destruct v; simpl; try discriminate; intros [= <- <-]; repeat split; discriminate.
Qed.

Lemma log_endpoint_ok_inv (o : option value) (w w' : world) (u : unit) :
  log_endpoint o w = (Ok u, w') -> loggable o /\ w' = w.
Proof.
  unfold log_endpoint, loggable.
  destruct (opt_prop o "endpoint") as [[]|]; simpl; try discriminate;
    now intros [= _ <-].
Qed.

Lemma log_endpoint_ok (o : option value) (w : world) :
  loggable o -> log_endpoint o w = (Ok tt, w).
Proof.
  unfold log_endpoint, loggable.
  now destruct (opt_prop o "endpoint") as [[]|].
Qed.

Lemma destructure_ok (v : value) (w : world) :
  v <> VNull -> destructure v w = (Ok v, w).
Proof. destruct v; simpl; auto. contradiction. Qed.

Lemma try_catch_ok_inv (block : M response) (w w' : world) (r : response)
    (handler : error -> M response) :
  try_catch block handler w = (Ok r, w') ->
  block w = (Ok r, w') \/ exists e w1, block w = (Throw e, w1) /\ handler e w1 = (Ok r, w').
Proof.
  unfold try_catch. destruct (block w) as [[r1|e] w1]; eauto.
Qed.

Tactic Notation "inv_bind" hyp(H) "as" ident(a) ident(w) ident(E) :=
  apply bind_ok_inv in H; destruct H as (a & w & E & H).

Lemma query_ok_inv {A} (c : call) (f : filter_spec) (op : M A) (w w' : world) (a : A) :
  query c f op w = (Ok a, w') ->
  faults w (List.length (calls w)) = None /\
  refusal (ops w) f = None /\
  op (log_call c w) = (Ok a, w').
Proof.
  unfold query. intros H. apply driver_ok_inv in H. destruct H as [F H].
  cbn [ops log_call] in H.
  destruct (refusal (ops w) f); [discriminate|auto].
Qed.

(** The loops over the records found leave the world alone. *)
Lemma logged_records_inv (fields : doc -> nat -> list (option value))
    (l : list doc) (w w' : world) (u : unit) :
  (if Nat.ltb 0 (List.length l)
   then forEach (fun sub index => template (fields sub index)) l
   else ret tt) w = (Ok u, w') ->
  w' = w /\
  forall sub, In sub l -> exists index, forallb coercible_opt (fields sub index) = true.
Proof.
  destruct (Nat.ltb 0 (List.length l)) eqn:E.
  - unfold forEach. intros H. apply forEach_from_ok_inv in H.
    + destruct H as [-> H]. split; [reflexivity|].
      intros sub Hin. destruct (H sub Hin) as [j Hj]. exists j.
      now apply template_ok_inv in Hj.
    + intros x j w1 w2 u1 Hx. now apply template_ok_inv in Hx.
  - intros [= _ <-]. split; [reflexivity|].
    destruct l; [intros sub []|discriminate].
Qed.

Lemma logged_records_ok (fields : doc -> nat -> list (option value))
    (l : list doc) (w : world) :
  (forall sub index, In sub l -> forallb coercible_opt (fields sub index) = true) ->
  (if Nat.ltb 0 (List.length l)
   then forEach (fun sub index => template (fields sub index)) l
   else ret tt) w = (Ok tt, w).
Proof.
  intros H. destruct (Nat.ltb 0 (List.length l)); [|reflexivity].
  unfold forEach. apply forEach_from_ok. intros x j Hin.
  apply template_ok. now apply H.
Qed.

Lemma POST_created_inv (request : request) (w w' : world) (r : response) :
  POST request w = (Ok r, w') -> status r = 201 ->
  exists json endpoint userType,
    req_body request = Json json /\
    opt_prop (prop json "subscription") "endpoint" = Some (VStr endpoint) /\
    prop json "userType" = Some userType /\
    ops w' = ops w /\
    exists newdoc,
      db w' "ticket_subscriptions" =
        fst (deleteMany (ops w) (subscription_filter (VStr endpoint) userType)
               (db w "ticket_subscriptions")) ++ [newdoc] /\
      get_path ["subscription"; "endpoint"] (VObj newdoc) = Some (VStr endpoint) /\
      lookup "userType" newdoc = Some userType /\
      calls w' = [CFindOne "ticket_subscriptions"; CInsertOne "ticket_subscriptions";
                  CDeleteMany "ticket_subscriptions"; CFind "ticket_subscriptions";
                  CConnect] ++ calls w.
Proof.
  intros H Hs.
  apply try_catch_ok_inv in H. destruct H as [H|(e & w1 & _ & H)].
  2:{ injection H as <- _. discriminate. }
  unfold POST_try in H.
  inv_bind H as u0 w0 E. apply driver_ok_inv in E. destruct E as [F0 [= _ <-]].
  inv_bind H as json0 w1 E. apply request_json_ok_inv in E. destruct E as [Hbody ->].
  inv_bind H as json w2 E. apply destructure_ok_inv in E. destruct E as (-> & Hnn & ->).
  inv_bind H as u1 w3 E. apply log_endpoint_ok_inv in E. destruct E as [Hlog ->].
  destruct (negb (truthy_opt (prop json0 "subscription"))
            || negb (truthy_opt (prop json0 "userType"))) eqn:V1.
  { injection H as <- _. discriminate. }
  destruct (negb (truthy_opt (opt_prop (prop json0 "subscription") "endpoint")) || _ || _) eqn:V2.
  { injection H as <- _. discriminate. }
  apply orb_false_iff in V1. destruct V1 as [_ V1]. apply negb_false_iff in V1.
  apply orb_false_iff in V2. destruct V2 as [V2 _].
  apply orb_false_iff in V2. destruct V2 as [V2 _]. apply negb_false_iff in V2.
  unfold loggable in Hlog.
  destruct (opt_prop (prop json0 "subscription") "endpoint") as [[| | |endpoint| | | |]|] eqn:Hend;
    try contradiction; try discriminate.
  destruct (prop json0 "userType") as [userType|] eqn:Hut; [|discriminate].
  simpl defined in H.
  inv_bind H as existing w4 E. apply query_ok_inv in E. destruct E as (F1 & A1 & [= _ <-]).
  inv_bind H as u2 w5 E. apply logged_records_inv in E. destruct E as [-> _].
  inv_bind H as deleted w5 E. apply query_ok_inv in E. destruct E as (F2 & A2 & E).
  unfold deleteMany in E. cbv beta iota in E. injection E as _ <-.
  inv_bind H as d1 w6 E. injection E as _ <-.
  inv_bind H as d2 w7 E. injection E as _ <-.
  inv_bind H as d3 w8 E. injection E as _ <-.
  inv_bind H as d4 w9 E. injection E as _ <-.
  inv_bind H as d5 w10 E. injection E as _ <-.
  inv_bind H as id w11 E. apply driver_ok_inv in E. destruct E as [F3 E].
  injection E as _ <-.
  inv_bind H as u3 w12 E. apply template_ok_inv in E. destruct E as [_ ->].
  inv_bind H as saved w13 E. apply query_ok_inv in E. destruct E as (F4 & A4 & E).
  injection E as _ <-.
  injection H as _ <-.
  exists json0, endpoint, userType.
  split; [assumption|]. split; [assumption|]. split; [assumption|].
  split; [reflexivity|].
  eexists. cbn [db set_coll String.eqb Ascii.eqb Bool.eqb calls log_call ops]. unfold insertOne.
  split; [reflexivity|]. split; [reflexivity|]. split; reflexivity.
Qed.

Lemma bind_run {A B} (m : M A) (k : A -> M B) (w w1 : world) (a : A) :
  m w = (Ok a, w1) -> bind m k w = k a w1.
Proof. unfold bind. now intros ->. Qed.

Lemma connect_ok (w : world) :
  faults w (List.length (calls w)) = None -> connect w = (Ok tt, log_call CConnect w).
Proof. intros F. unfold connect. now rewrite driver_ok. Qed.

Lemma request_json_ok (request : request) (json : value) (w : world) :
  req_body request = Json json -> request_json request w = (Ok json, w).
Proof. unfold request_json. now intros ->. Qed.

Lemma POST_incomplete (request : request) (json : value) (w : world) :
  req_body request = Json json -> json <> VNull ->
  faults w (List.length (calls w)) = None ->
  loggable (prop json "subscription") ->
  truthy_opt (prop json "subscription") = false \/
  truthy_opt (prop json "userType") = false ->
  POST request w =
    (Ok (NextResponse_json (message_body "Datos incompletos") 400),
     log_call CConnect w).
Proof.
  intros Hb Hn F Hl Hv. unfold POST, try_catch, POST_try.
  rewrite (bind_run _ _ _ _ _ (connect_ok w F)).
  rewrite (bind_run _ _ _ _ _ (request_json_ok _ _ _ Hb)).
  rewrite (bind_run _ _ _ _ _ (destructure_ok _ _ Hn)).
  rewrite (bind_run _ _ _ _ _ (log_endpoint_ok _ _ Hl)).
  destruct Hv as [-> | ->]; simpl; [reflexivity|].
  now rewrite orb_true_r.
Qed.

Lemma POST_invalid (request : request) (json : value) (w : world) :
  req_body request = Json json -> json <> VNull ->
  faults w (List.length (calls w)) = None ->
  loggable (prop json "subscription") ->
  truthy_opt (prop json "subscription") = true ->
  truthy_opt (prop json "userType") = true ->
  truthy_opt (opt_prop (prop json "subscription") "endpoint") = false \/
  truthy_opt (opt_prop (opt_prop (prop json "subscription") "keys") "p256dh") = false \/
  truthy_opt (opt_prop (opt_prop (prop json "subscription") "keys") "auth") = false ->
  POST request w =
    (Ok (NextResponse_json (message_body "Suscripción inválida") 400),
     log_call CConnect w).
Proof.
  intros Hb Hn F Hl Hs Hu Hv. unfold POST, try_catch, POST_try.
  rewrite (bind_run _ _ _ _ _ (connect_ok w F)).
  rewrite (bind_run _ _ _ _ _ (request_json_ok _ _ _ Hb)).
  rewrite (bind_run _ _ _ _ _ (destructure_ok _ _ Hn)).
  rewrite (bind_run _ _ _ _ _ (log_endpoint_ok _ _ Hl)).
  rewrite Hs, Hu. simpl.
  destruct Hv as [-> | [-> | ->]]; simpl; rewrite ?orb_true_r; reflexivity.
Qed.

Lemma in_find (q : operators) (f : filter_spec) (c : collection) (d : doc) :
  In d (find q f c) <-> In d c /\ matches q f d = true.
Proof. unfold find. apply filter_In. Qed.

(** A well-formed subscription is stored when the database answers and the
    debug lines go through. *)
Lemma POST_created (request : request) (json userType : value) (endpoint : string)
    (w : world) :
  req_body request = Json json ->
  opt_prop (prop json "subscription") "endpoint" = Some (VStr endpoint) ->
  endpoint <> "" ->
  truthy_opt (opt_prop (opt_prop (prop json "subscription") "keys") "p256dh") = true ->
  truthy_opt (opt_prop (opt_prop (prop json "subscription") "keys") "auth") = true ->
  prop json "userType" = Some userType ->
  truthy userType = true ->
  refusal (ops w) (subscription_filter (VStr endpoint) userType) = None ->
  (forall d,
      In d (db w "ticket_subscriptions") ->
      matches (ops w) (subscription_filter (VStr endpoint) userType) d = true ->
      printable_duplicate d = true) ->
  coercible userType = true ->
  coercible_opt (prop json "ticketCode") = true ->
  (forall k, (k < 5)%nat -> faults w (k + List.length (calls w)) = None) ->
  exists r w', POST request w = (Ok r, w') /\ status r = 201.
Proof.
  intros Hb He Hne Hp Ha Hu Ht Hacc Hdup Hcu Hct F.
  assert (Hn : json <> VNull) by (intros ->; discriminate).
  assert (Hl : loggable (prop json "subscription")).
  { unfold loggable. now rewrite He. }
  assert (Hs : truthy_opt (prop json "subscription") = true).
  { destruct (prop json "subscription") as [[]|]; try discriminate; reflexivity. }
  assert (Hte : String.eqb endpoint "" = false) by now apply String.eqb_neq.
  unfold POST, try_catch, POST_try.
  rewrite (bind_run _ _ _ _ _ (connect_ok w (F 0%nat ltac:(lia)))).
  rewrite (bind_run _ _ _ _ _ (request_json_ok _ _ _ Hb)).
  rewrite (bind_run _ _ _ _ _ (destructure_ok _ _ Hn)).
  rewrite (bind_run _ _ _ _ _ (log_endpoint_ok _ _ Hl)).
  rewrite Hs, Hu, He, Hp, Ha. cbn [truthy_opt truthy negb orb]. rewrite Ht, Hte.
  cbn [negb orb defined].
  unfold db_find, db_deleteMany, db_insertOne, db_findOne, new_Date, bind.
  rewrite query_ok by (try exact (F 1%nat ltac:(lia)); exact Hacc).
  cbn [calls log_call db clock reads faults ops].
  rewrite logged_records_ok
    with (fields := fun sub index =>
                      [ number (index + 1); lookup "_id" sub; lookup "isActive" sub;
                        lookup "createdAt" sub ]).
  2:{ intros sub index Hin. apply in_find in Hin. destruct Hin as [Hin Hm].
      specialize (Hdup sub Hin Hm). unfold printable_duplicate in Hdup.
      apply andb_true_iff in Hdup. destruct Hdup as [Hdup H3].
      apply andb_true_iff in Hdup. destruct Hdup as [H1 H2].
      cbn [forallb number coercible_opt coercible].
      now rewrite H1, H2, H3. }
  rewrite query_ok by (try exact (F 2%nat ltac:(lia)); exact Hacc).
  unfold deleteMany.
  cbn [calls log_call set_coll db clock reads faults next_id ops].
  rewrite driver_ok by exact (F 3%nat ltac:(lia)).
  cbn [calls log_call set_coll db clock reads faults next_id ops].
  rewrite template_ok.
  2:{ cbn [forallb coercible_opt]. rewrite Hcu. unfold or_else.
      destruct (truthy_opt (prop json "ticketCode")); [now rewrite Hct|reflexivity]. }
  rewrite query_ok by (try exact (F 4%nat ltac:(lia)); reflexivity).
  do 2 eexists. split; reflexivity.
Qed.

Lemma DELETE_required (request : request) (json : value) (w : world) :
  req_body request = Json json -> json <> VNull ->
  faults w (List.length (calls w)) = None ->
  loggable (prop json "subscription") ->
  truthy_opt (opt_prop (prop json "subscription") "endpoint") = false ->
  DELETE request w =
    (Ok (NextResponse_json (message_body "Endpoint de suscripción requerido") 400),
     log_call CConnect w).
Proof.
  intros Hb Hn F Hl Hv. unfold DELETE, try_catch, DELETE_try.
  rewrite (bind_run _ _ _ _ _ (connect_ok w F)).
  rewrite (bind_run _ _ _ _ _ (request_json_ok _ _ _ Hb)).
  rewrite (bind_run _ _ _ _ _ (destructure_ok _ _ Hn)).
  rewrite (bind_run _ _ _ _ _ (log_endpoint_ok _ _ Hl)).
  now rewrite Hv.
Qed.

Lemma DELETE_done (request : request) (json : value) (endpoint : string) (w : world) :
  req_body request = Json json ->
  opt_prop (prop json "subscription") "endpoint" = Some (VStr endpoint) ->
  endpoint <> "" ->
  faults w (List.length (calls w)) = None ->
  faults w (S (List.length (calls w))) = None ->
  faults w (S (S (List.length (calls w)))) = None ->
  (forall d,
      In d (db w "ticket_subscriptions") ->
      matches (ops w) (endpoint_filter (VStr endpoint)) d = true ->
      printable_subscription d = true) ->
  let u :=
    updateMany (ops w) (endpoint_filter (VStr endpoint)) (deactivation w)
      (db w "ticket_subscriptions") in
  writeError u = false ->
  exists w',
    DELETE request w = (Ok (deactivated_response (modifiedCount u)), w') /\
    db w' "ticket_subscriptions" = updated u /\
    (forall coll, coll <> "ticket_subscriptions" -> db w' coll = db w coll) /\
    ops w' = ops w /\
    calls w' = [CUpdateMany "ticket_subscriptions"; CFind "ticket_subscriptions";
                CConnect] ++ calls w.
Proof.
  intros Hb He Hne F0 F1 F2 Hprint u Hu.
  assert (Hn : json <> VNull).
  { intros ->. discriminate. }
  assert (Hl : loggable (prop json "subscription")).
  { unfold loggable. now rewrite He. }
  unfold DELETE, try_catch, DELETE_try.
  rewrite (bind_run _ _ _ _ _ (connect_ok w F0)).
  rewrite (bind_run _ _ _ _ _ (request_json_ok _ _ _ Hb)).
  rewrite (bind_run _ _ _ _ _ (destructure_ok _ _ Hn)).
  rewrite (bind_run _ _ _ _ _ (log_endpoint_ok _ _ Hl)).
  rewrite He. cbn [truthy_opt truthy].
  assert (Ht : String.eqb endpoint "" = false) by now apply String.eqb_neq.
  rewrite Ht. cbn [negb defined].
  unfold db_find, db_updateMany, new_Date, bind.
  rewrite query_ok by (try exact F1; reflexivity).
  cbn [calls log_call db clock reads faults ops].
  rewrite logged_records_ok
    with (fields := fun sub index =>
                      [ number (index + 1); lookup "userType" sub;
                        lookup "ticketCodes" sub; lookup "isActive" sub ]).
  2:{ intros sub index Hin. apply in_find in Hin. destruct Hin as [Hin Hm].
      specialize (Hprint sub Hin Hm). unfold printable_subscription in Hprint.
      apply andb_true_iff in Hprint. destruct Hprint as [Hprint H3].
      apply andb_true_iff in Hprint. destruct Hprint as [H1 H2].
      cbn [forallb number coercible_opt coercible].
      now rewrite H1, H2, H3. }
  rewrite query_ok by (try exact F2; reflexivity).
  cbn [calls log_call db clock reads faults ops].
  fold (deactivation w). fold u. rewrite Hu.
  eexists. split; [unfold deactivated_response; destruct (Nat.eqb _ 0); reflexivity|].
  cbn [db set_coll ops]. rewrite String.eqb_refl. split; [reflexivity|].
  split; [|split; reflexivity].
  intros coll Hc. apply String.eqb_neq in Hc. now rewrite Hc.
Qed.

Lemma deactivation_effect (w : world) (d d' : doc) :
  apply_set (deactivation w) d = Some d' ->
  lookup "isActive" d' = Some (VBool false) /\
  lookup "unsubscribedAt" d' = Some (VDate (clock w (reads w))) /\
  get_path ["lifecycle"; "stage"] (VObj d') = Some (VStr "unsubscribed") /\
  get_path ["lifecycle"; "updatedAt"] (VObj d')
  = Some (VDate (clock w (S (reads w)))) /\
  forall k,
    String.eqb k "isActive" = false ->
    String.eqb k "unsubscribedAt" = false ->
    String.eqb k "lifecycle" = false ->
    lookup k d' = lookup k d.
Proof.
  unfold deactivation. cbn [apply_set set_path].
  rewrite !lookup_set_field_other by reflexivity.
  destruct (lookup "lifecycle" d) as [[| | | | | | |sub]|] eqn:L;
    cbn [option_map]; try discriminate.
  - rewrite lookup_set_field_same. cbn [option_map]. intros [= <-].
    split; [|split; [|split; [|split]]].
    + rewrite !lookup_set_field_other by reflexivity.
      apply lookup_set_field_same.
    + rewrite !lookup_set_field_other by reflexivity.
      apply lookup_set_field_same.
    + cbn [get_path prop]. rewrite lookup_set_field_same.
      cbn [get_path prop].
      rewrite lookup_set_field_other by reflexivity.
      now rewrite lookup_set_field_same.
    + cbn [get_path prop]. rewrite lookup_set_field_same.
      cbn [get_path prop].
      now rewrite lookup_set_field_same.
    + intros k H1 H2 H3. now rewrite !lookup_set_field_other by assumption.
  - rewrite lookup_set_field_same. cbn [option_map]. intros [= <-].
    split; [|split; [|split; [|split]]].
    + rewrite !lookup_set_field_other by reflexivity.
      apply lookup_set_field_same.
    + rewrite !lookup_set_field_other by reflexivity.
      apply lookup_set_field_same.
    + cbn [get_path prop]. rewrite lookup_set_field_same.
      reflexivity.
    + cbn [get_path prop]. rewrite lookup_set_field_same.
      reflexivity.
    + intros k H1 H2 H3. now rewrite !lookup_set_field_other by assumption.
Qed.

(** Whether a record is stored under [endpoint], a text, is read off its
    [subscription] field. *)
Lemma endpoint_filter_subscription (q : operators) (endpoint : string) (d d' : doc) :
  lookup "subscription" d' = lookup "subscription" d ->
  matches q (endpoint_filter (VStr endpoint)) d'
  = matches q (endpoint_filter (VStr endpoint)) d.
Proof.
  intros H. unfold matches, endpoint_filter, field_matches.
  cbn [forallb fst snd operator_document reached]. now rewrite H.
Qed.

Lemma updated_by_kept_inactive (q : operators) (w : world) (endpoint : string)
    (d d' : doc) :
  updated_by q (endpoint_filter (VStr endpoint)) (deactivation w) d d' ->
  kept_inactive q (VStr endpoint) (clock w (reads w)) (clock w (S (reads w))) d d'.
Proof.
  unfold updated_by, kept_inactive.
  destruct (matches q (endpoint_filter (VStr endpoint)) d) eqn:Hm; [|auto].
  intros Ha. destruct (deactivation_effect w d d' Ha) as (Hi & Hu & Hs & Hl & Hk).
  split; [exact Hi|]. split; [exact Hu|]. split; [exact Hs|]. split; [exact Hl|].
  split; [|split; apply Hk; reflexivity].
  rewrite <- Hm. apply endpoint_filter_subscription. now apply Hk.
Qed.

End RouteFacts.
(* ================================================================== *)
(** ** Properties of the component's transitions *)
(* ================================================================== *)

Module FormFacts.
Import Js CarRegistration.
Local Open Scope nat_scope.

Lemma step_capture_complete (s : state) (e : event) :
  capture_complete s -> capture_complete (step s e).
Proof.
  unfold capture_complete. intros H.
  destruct e; simpl; try exact H.
  - eauto.
  - destruct o as [|[] [[]|] []]; simpl; auto.
  - unfold openCamera. destruct (_ <? _)%nat; exact H.
Qed.

Lemma run_app (s : state) (es es' : list event) :
  run s (es ++ es') = run (run s es) es'.
Proof. apply fold_left_app. Qed.

Lemma reachable_capture_complete (s : state) : reachable s -> capture_complete s.
Proof.
  intros (mobile & es & ->).
  induction es as [|e es IH] using rev_ind.
  - exact I.
  - rewrite run_app. simpl. now apply step_capture_complete.
Qed.

Lemma step_retry_count (s : state) (e : event) :
  cameraRetryCount (step s e)
  = if is_open e && (cameraRetryCount s <? maxRetries)%nat
    then S (cameraRetryCount s) else cameraRetryCount s.
Proof.
  destruct e; simpl; try reflexivity.
  - destruct o as [|[] [[]|] []]; reflexivity.
  - unfold openCamera. destruct (_ <? _)%nat; simpl; [lia|reflexivity].
Qed.

Lemma opens_app (es es' : list event) : opens (es ++ es') = (opens es + opens es')%nat.
Proof. unfold opens. now rewrite filter_app, length_app. Qed.

Lemma run_retry_count (s : state) (es : list event) :
  cameraRetryCount s <= maxRetries ->
  cameraRetryCount (run s es) = Nat.min (cameraRetryCount s + opens es) maxRetries.
Proof.
  intros Hs. induction es as [|e es IH] using rev_ind.
  - simpl. unfold opens. simpl. lia.
  - rewrite run_app, opens_app.
    change (run (run s es) [e]) with (step (run s es) e).
    rewrite step_retry_count, IH.
    assert (E : opens [e] = if is_open e then 1 else 0).
    { unfold opens. simpl. now destruct (is_open e). }
    rewrite E. unfold maxRetries in *.
    destruct (is_open e); simpl.
    + destruct (Nat.ltb_spec (Nat.min (cameraRetryCount s + opens es) 10) 10); lia.
    + f_equal. lia.
Qed.

Lemma step_capture_closed (s : state) (e : event) :
  maxRetries <= cameraRetryCount s ->
  showVehicleCapture s = false -> showVehicleCapture (step s e) = false.
Proof.
  intros Hc Hs. destruct e; simpl; auto.
  - destruct o as [|[] [[]|] []]; simpl; auto.
  - unfold openCamera.
    destruct (Nat.ltb_spec (cameraRetryCount s) maxRetries); [lia|exact Hs].
Qed.

Lemma openCamera_exhausted (s : state) :
  maxRetries <= cameraRetryCount s -> openCamera s = setMessage CameraLimit s.
Proof.
  intros H. unfold openCamera.
  destruct (Nat.ltb_spec (cameraRetryCount s) maxRetries); [lia|reflexivity].
Qed.

Lemma not_blank_iff (v : string) : not_blank v = true <-> trim v <> "".
Proof.
  unfold not_blank. rewrite negb_true_iff. apply String.eqb_neq.
Qed.

End FormFacts.

(* ================================================================== *)
(** ** What the routes leave alone, and what they store *)
(* ================================================================== *)

Module FrameFacts.
Import Js Store Http Routes CarRegistration StoreFacts RouteFacts FormFacts.
Import Frames.
Local Open Scope route_scope.

Lemma keeps_bind {A B} (R : world -> world -> Prop) (m : M A) (k : A -> M B) :
  (forall w1 w2 w3, R w1 w2 -> R w2 w3 -> R w1 w3) ->
  keeps R m -> (forall a, keeps R (k a)) -> keeps R (bind m k).
Proof.
  intros Htrans Hm Hk w. unfold bind.
  specialize (Hm w). destruct (m w) as [[a|e] w1]; simpl in *.
  - eapply Htrans; [exact Hm|apply Hk].
  - exact Hm.
Qed.

Lemma keeps_try_catch {A} (R : world -> world -> Prop) (m : M A)
    (handler : error -> M A) :
  (forall w1 w2 w3, R w1 w2 -> R w2 w3 -> R w1 w3) ->
  keeps R m -> (forall e, keeps R (handler e)) -> keeps R (try_catch m handler).
Proof.
  intros Htrans Hm Hh w. unfold try_catch.
  specialize (Hm w). destruct (m w) as [[a|e] w1]; simpl in *.
  - exact Hm.
  - eapply Htrans; [exact Hm|apply Hh].
Qed.

Lemma keeps_driver {A} (R : world -> world -> Prop) (c : call) (op : M A) :
  (forall w, R w (log_call c w)) ->
  (forall w, R w (snd (op (log_call c w)))) ->
  keeps R (driver c op).
Proof.
  intros Hlog Hop w. unfold driver.
  destruct (faults w (List.length (calls w))); simpl; auto.
Qed.

Lemma keeps_query {A} (R : world -> world -> Prop) (c : call) (f : filter_spec)
    (op : M A) :
  (forall w, R w (log_call c w)) ->
  (forall w, R w (snd (op (log_call c w)))) ->
  keeps R (query c f op).
Proof.
  intros Hlog Hop. apply keeps_driver; [exact Hlog|].
  intros w. cbv beta. destruct (refusal _ f); [apply Hlog|apply Hop].
Qed.

Lemma keeps_forEach_from {A} (R : world -> world -> Prop) (f : A -> nat -> M unit)
    (l : list A) (i : nat) :
  (forall w, R w w) ->
  (forall w1 w2 w3, R w1 w2 -> R w2 w3 -> R w1 w3) ->
  (forall x j, keeps R (f x j)) ->
  keeps R (forEach_from i f l).
Proof.
  intros Hrefl Htrans Hf. revert i. induction l as [|x l IH]; intros i; simpl.
  - intros w. apply Hrefl.
  - apply keeps_bind; [exact Htrans|apply Hf|intros _; apply IH].
Qed.

Lemma keeps_weaken {A} (R R' : world -> world -> Prop) (m : M A) :
  (forall w w', R w w' -> R' w w') -> keeps R m -> keeps R' m.
Proof. intros H Hm w. apply H, Hm. Qed.

Lemma store_kept_refl (w : world) : store_kept w w.
Proof. split; reflexivity. Qed.

Lemma store_kept_trans (w1 w2 w3 : world) :
  store_kept w1 w2 -> store_kept w2 w3 -> store_kept w1 w3.
Proof.
  unfold store_kept. intros [O1 H1] [O2 H2].
  split; [congruence|]. intros coll. now rewrite H2, H1.
Qed.

Lemma others_kept_trans (w1 w2 w3 : world) :
  others_kept w1 w2 -> others_kept w2 w3 -> others_kept w1 w3.
Proof. unfold others_kept. intros H1 H2 coll Hc. now rewrite H2, H1. Qed.

Lemma records_kept_trans (w1 w2 w3 : world) :
  records_kept w1 w2 -> records_kept w2 w3 -> records_kept w1 w3.
Proof.
  unfold records_kept. intros [L1 O1] [L2 O2].
  split; [congruence|eapply others_kept_trans; eauto].
Qed.

Lemma store_kept_others (w w' : world) : store_kept w w' -> others_kept w w'.
Proof. intros [_ H] coll _. apply H. Qed.

(** The steps of a handler that make no call on the driver leave the store
    as it is. *)
Lemma silent_steps_keep_store :
  (forall A (a : A), keeps store_kept (ret a)) /\
  (forall A (e : error), keeps store_kept (@throw A e)) /\
  keeps store_kept new_Date /\
  (forall r, keeps store_kept (request_json r)) /\
  (forall v, keeps store_kept (destructure v)) /\
  (forall o, keeps store_kept (log_endpoint o)) /\
  (forall vs, keeps store_kept (template vs)).
Proof.
  repeat split; try (intros ?; reflexivity).
  - unfold request_json. now destruct (req_body r).
  - intros coll. unfold request_json. now destruct (req_body r).
  - now destruct v.
  - intros coll. now destruct v.
  - unfold log_endpoint. now destruct (opt_prop o "endpoint") as [[]|].
  - intros coll. unfold log_endpoint.
    now destruct (opt_prop o "endpoint") as [[]|].
  - unfold template. now destruct (forallb coercible_opt vs).
  - intros coll. unfold template. now destruct (forallb coercible_opt vs).
Qed.

(** So do the calls that only read. *)
Lemma reading_calls_keep_store :
  keeps store_kept connect /\
  (forall coll f, keeps store_kept (db_find coll f)) /\
  (forall coll f, keeps store_kept (db_findOne coll f)) /\
  (forall coll f k fields, keeps store_kept (db_find_sort_project coll f k fields)).
Proof.
  split; [|split; [|split]]; intros;
    first [ apply keeps_query | apply keeps_driver ];
    intros ?; split; reflexivity.
Qed.

Ltac keeps_store_step :=
  first
    [ apply keeps_bind; [exact store_kept_trans| |intros ?]
    | apply silent_steps_keep_store
    | apply reading_calls_keep_store
    | apply keeps_forEach_from;
      [exact store_kept_refl|exact store_kept_trans|intros ? ?]
    | match goal with |- keeps _ (if ?b then _ else _) => destruct b end ].

Lemma GET_keeps_store : keeps store_kept GET.
Proof.
  unfold GET. apply keeps_try_catch; [exact store_kept_trans| |].
  - unfold GET_try, forEach. repeat keeps_store_step.
  - intros e. unfold GET_catch. apply silent_steps_keep_store.
Qed.

(** A step of a handler: it keeps [R] because it keeps the store, or it is
    a call that writes, dealt with by [write]. *)
Ltac keeps_step trans from_store write :=
  first
    [ apply keeps_bind; [exact trans| |intros ?]
    | apply (keeps_weaken store_kept _ _ from_store);
      unfold forEach; solve [repeat keeps_store_step]
    | write
    | match goal with |- keeps _ (if ?b then _ else _) => destruct b end ].

Ltac others_kept_now :=
  let coll := fresh "coll" in
  let Hc := fresh "Hc" in
  intros coll Hc; cbn [snd db set_coll log_call];
  try (apply String.eqb_neq in Hc; rewrite Hc);
  reflexivity.

Ltac writes_keep_others :=
  first [ apply keeps_query | apply keeps_driver ];
  intros ?; cbv beta zeta;
  repeat match goal with |- context [if ?x then _ else _] => destruct x end;
  others_kept_now.

Lemma POST_keeps_others (request : request) : keeps others_kept (POST request).
Proof.
  unfold POST. apply keeps_try_catch; [exact others_kept_trans| |].
  - unfold POST_try, db_deleteMany, db_insertOne, deleteMany.
    repeat keeps_step others_kept_trans store_kept_others ltac:(writes_keep_others).
  - intros e. apply (keeps_weaken store_kept _ _ store_kept_others).
    unfold POST_catch. apply silent_steps_keep_store.
Qed.

Lemma set_coll_records (k : call) (c : collection) (w : world) :
  List.length c = List.length (db w "ticket_subscriptions") ->
  records_kept w (set_coll "ticket_subscriptions" c (log_call k w)).
Proof.
  intros H. split; [simpl; exact H|others_kept_now].
Qed.

Lemma store_kept_records (w w' : world) : store_kept w w' -> records_kept w w'.
Proof.
  intros H. split; [now rewrite (proj2 H)|now apply store_kept_others].
Qed.

Ltac writes_keep_records :=
  apply keeps_query; intros ?;
  [ apply store_kept_records; split; reflexivity
  | cbv beta zeta;
    repeat match goal with |- context [if ?x then _ else _] => destruct x end;
    cbn [snd]; apply set_coll_records; apply updateMany_length ].

Lemma DELETE_keeps_records (request : request) : keeps records_kept (DELETE request).
Proof.
  unfold DELETE. apply keeps_try_catch; [exact records_kept_trans| |].
  - unfold DELETE_try, db_updateMany.
    repeat keeps_step records_kept_trans store_kept_records ltac:(writes_keep_records).
  - intros e. apply (keeps_weaken store_kept _ _ store_kept_records).
    unfold DELETE_catch. apply silent_steps_keep_store.
Qed.

End FrameFacts.

Module SubscriptionFacts.
Import Js Store Http Routes CarRegistration StoreFacts RouteFacts FormFacts.
Import Frames FrameFacts.
Local Open Scope route_scope.

(** What a successful [POST] has stored and answered, written out. *)
Lemma POST_created_record (request : request) (w w' : world) (r : response) :
  POST request w = (Ok r, w') -> status r = 201 ->
  exists json endpoint userType createdAt lastUsed lifecycleCreatedAt
         lifecycleUpdatedAt timestamp,
    req_body request = Json json /\
    opt_prop (prop json "subscription") "endpoint" = Some (VStr endpoint) /\
    prop json "userType" = Some userType /\
    db w' "ticket_subscriptions" =
      fst (deleteMany (ops w) (subscription_filter (VStr endpoint) userType)
             (db w "ticket_subscriptions"))
      ++ [ [ ("_id", VId (next_id w));
             ("subscription",
              VObj [ ("endpoint", VStr endpoint);
                     ("keys",
                      VObj [ ("p256dh",
                              defined (opt_prop (opt_prop (prop json "subscription")
                                                   "keys") "p256dh"));
                             ("auth",
                              defined (opt_prop (opt_prop (prop json "subscription")
                                                   "keys") "auth")) ]) ]);
             ("userType", userType);
             ("ticketCodes",
              VArr (if truthy_opt (prop json "ticketCode")
                    then [defined (prop json "ticketCode")] else []));
             ("isActive", VBool true);
             ("createdAt", createdAt);
             ("lastUsed", lastUsed);
             ("lifecycle",
              VObj [ ("stage", VStr "active");
                     ("createdAt", lifecycleCreatedAt);
                     ("updatedAt", lifecycleUpdatedAt) ]);
             ("autoExpire", VBool false);
             ("expiresAt", VNull);
             ("deviceInfo",
              VObj [ ("userAgent",
                      VStr (header_or "user-agent" "Unknown" (req_headers request)));
                     ("timestamp", timestamp);
                     ("ip",
                      VStr (header_or "x-forwarded-for"
                              (header_or "x-real-ip" "Unknown" (req_headers request))
                              (req_headers request))) ]) ] ] /\
    truthy_opt (opt_prop (opt_prop (prop json "subscription") "keys") "p256dh") = true /\
    truthy_opt (opt_prop (opt_prop (prop json "subscription") "keys") "auth") = true /\
    prop (payload r) "subscriptionId" = Some (VId (next_id w)) /\
    prop (payload r) "success" = Some (VBool true).
Proof.
  intros H Hs.
  apply try_catch_ok_inv in H. destruct H as [H|(e & w1 & _ & H)].
  2:{ injection H as <- _. discriminate. }
  unfold POST_try in H.
  inv_bind H as u0 w0 E. apply driver_ok_inv in E. destruct E as [F0 [= _ <-]].
  inv_bind H as json0 w1 E. apply request_json_ok_inv in E. destruct E as [Hbody ->].
  inv_bind H as json w2 E. apply destructure_ok_inv in E. destruct E as (-> & Hnn & ->).
  inv_bind H as u1 w3 E. apply log_endpoint_ok_inv in E. destruct E as [Hlog ->].
  destruct (negb (truthy_opt (prop json0 "subscription"))
            || negb (truthy_opt (prop json0 "userType"))) eqn:V1.
  { injection H as <- _. discriminate. }
  destruct (negb (truthy_opt (opt_prop (prop json0 "subscription") "endpoint")) || _ || _)
    eqn:V2.
  { injection H as <- _. discriminate. }
  apply orb_false_iff in V1. destruct V1 as [_ V1]. apply negb_false_iff in V1.
  apply orb_false_iff in V2. destruct V2 as [V2 Vauth].
  apply orb_false_iff in V2. destruct V2 as [V2 Vp256]. apply negb_false_iff in V2.
  apply negb_false_iff in Vauth. apply negb_false_iff in Vp256.
  unfold loggable in Hlog.
  destruct (opt_prop (prop json0 "subscription") "endpoint")
    as [[| | |endpoint| | | |]|] eqn:Hend;
    try contradiction; try discriminate.
  destruct (prop json0 "userType") as [userType|] eqn:Hut; [|discriminate].
  cbn [defined] in H.
  inv_bind H as existing w4 E. apply query_ok_inv in E. destruct E as (F1 & A1 & [= _ <-]).
  inv_bind H as u2 w5 E. apply logged_records_inv in E. destruct E as [-> _].
  inv_bind H as deleted w5 E. apply query_ok_inv in E. destruct E as (F2 & A2 & E).
  unfold deleteMany in E. cbv beta iota in E. injection E as _ <-.
  inv_bind H as d1 w6 E. injection E as _ <-.
  inv_bind H as d2 w7 E. injection E as _ <-.
  inv_bind H as d3 w8 E. injection E as _ <-.
  inv_bind H as d4 w9 E. injection E as _ <-.
  inv_bind H as d5 w10 E. injection E as _ <-.
  inv_bind H as id w11 E. apply driver_ok_inv in E. destruct E as [F3 E].
  injection E as <- <-.
  inv_bind H as u3 w12 E. apply template_ok_inv in E. destruct E as [_ ->].
  inv_bind H as saved w13 E. apply query_ok_inv in E. destruct E as (F4 & A4 & E).
  injection E as _ <-.
  injection H as <- <-.
  exists json0, endpoint, userType, d1, d2, d3, d4, d5.
  split; [assumption|]. split; [assumption|]. split; [assumption|].
  cbn [db set_coll String.eqb Ascii.eqb Bool.eqb calls log_call next_id ops].
  unfold insertOne.
  split; [reflexivity|]. split; [exact Vp256|]. split; [exact Vauth|].
  split; reflexivity.
Qed.


Lemma log_endpoint_throws (o : option value) (w : world) :
  ~ loggable o ->
  log_endpoint o w
  = (Throw (TypeError "subscription?.endpoint?.substring is not a function"), w).
Proof.
  unfold loggable, log_endpoint.
  destruct (opt_prop o "endpoint") as [[]|]; intros H; try reflexivity;
    exfalso; apply H; exact I.
Qed.

Lemma bind_throws {A B} (m : M A) (k : A -> M B) (w w1 : world) (e : error) :
  m w = (Throw e, w1) -> bind m k w = (Throw e, w1).
Proof. unfold bind. now intros ->. Qed.

(** What a successful [DELETE] has done, read back from its answer. *)
Lemma DELETE_done_inv (request : request) (w w' : world) (r : response) :
  DELETE request w = (Ok r, w') -> status r = 200 ->
  exists json endpoint,
    req_body request = Json json /\
    opt_prop (prop json "subscription") "endpoint" = Some (VStr endpoint) /\
    writeError (updateMany (ops w) (endpoint_filter (VStr endpoint)) (deactivation w)
                  (db w "ticket_subscriptions")) = false /\
    db w' "ticket_subscriptions"
    = updated (updateMany (ops w) (endpoint_filter (VStr endpoint)) (deactivation w)
                 (db w "ticket_subscriptions")) /\
    ops w' = ops w.
Proof.
  intros H Hs.
  apply try_catch_ok_inv in H. destruct H as [H|(e & w1 & _ & H)].
  2:{ injection H as <- _. discriminate. }
  unfold DELETE_try in H.
  inv_bind H as u0 w0 E. apply driver_ok_inv in E. destruct E as [F0 [= _ <-]].
  inv_bind H as json0 w1 E. apply request_json_ok_inv in E. destruct E as [Hbody ->].
  inv_bind H as json w2 E. apply destructure_ok_inv in E. destruct E as (-> & Hnn & ->).
  inv_bind H as u1 w3 E. apply log_endpoint_ok_inv in E. destruct E as [Hlog ->].
  destruct (negb (truthy_opt (opt_prop (prop json0 "subscription") "endpoint"))) eqn:V.
  { injection H as <- _. discriminate. }
  apply negb_false_iff in V. unfold loggable in Hlog.
  destruct (opt_prop (prop json0 "subscription") "endpoint")
    as [[| | |endpoint| | | |]|] eqn:Hend;
    try contradiction; try discriminate.
  cbn [defined] in H.
  inv_bind H as existing w4 E. apply query_ok_inv in E. destruct E as (F1 & A1 & [= _ <-]).
  inv_bind H as u2 w5 E. apply logged_records_inv in E. destruct E as [-> _].
  inv_bind H as t1 w5 E. injection E as <- <-.
  inv_bind H as t2 w6 E. injection E as <- <-.
  inv_bind H as n w7 E. apply query_ok_inv in E. destruct E as (F2 & A2 & E).
  cbn [calls log_call db clock reads faults ops] in E.
  fold (deactivation w) in E.
  destruct (writeError (updateMany (ops w) (endpoint_filter (VStr endpoint))
                          (deactivation w) (db w "ticket_subscriptions")))
    eqn:We; [discriminate|].
  injection E as <- <-.
  exists json0, endpoint.
  split; [assumption|]. split; [assumption|]. split; [exact We|].
  destruct (Nat.eqb _ 0); injection H as <- <-; [discriminate|].
  cbn [db set_coll ops]. now rewrite String.eqb_refl.
Qed.

(** A record [DELETE] has gone over for endpoint [e] belongs to a pair of
    that endpoint exactly when it did before, the [userType] of the pair
    being a value the database compares with. *)
Lemma kept_inactive_pair (q : operators) (e : string) (userType : value) (t1 t2 : Z)
    (d d' : doc) :
  operator_document userType = None ->
  kept_inactive q (VStr e) t1 t2 d d' ->
  matches q (subscription_filter (VStr e) userType) d'
  = matches q (subscription_filter (VStr e) userType) d.
Proof.
  intros Hplain. unfold kept_inactive.
  destruct (matches q (endpoint_filter (VStr e)) d) eqn:Hm; [|now intros ->].
  intros (_ & _ & _ & _ & Hm' & Hu & _).
  unfold matches, subscription_filter, endpoint_filter in *.
  cbn [forallb] in *. rewrite andb_true_r in Hm, Hm'. rewrite Hm, Hm'.
  unfold field_matches. cbn [fst snd]. rewrite Hplain.
  cbn [reached]. now rewrite Hu.
Qed.

Lemma find_kept_inactive (q : operators) (e : string) (userType : value) (t1 t2 : Z)
    (c c' : collection) :
  operator_document userType = None ->
  Forall2 (kept_inactive q (VStr e) t1 t2) c c' ->
  Forall2 (kept_inactive q (VStr e) t1 t2)
    (find q (subscription_filter (VStr e) userType) c)
    (find q (subscription_filter (VStr e) userType) c').
Proof.
  intros Hplain.
  unfold find. induction 1 as [|d d' c c' Hd _ IH]; cbn [List.filter]; [constructor|].
  rewrite (kept_inactive_pair q e userType t1 t2 d d' Hplain Hd).
  destruct (matches q (subscription_filter (VStr e) userType) d); [constructor|];
    assumption.
Qed.

(** With no record stored under the endpoint nothing is modified and the
    answer is 404. *)
Lemma DELETE_not_found (request : request) (json : value) (endpoint : string)
    (w : world) :
  req_body request = Json json ->
  opt_prop (prop json "subscription") "endpoint" = Some (VStr endpoint) ->
  endpoint <> "" ->
  faults w (List.length (calls w)) = None ->
  faults w (S (List.length (calls w))) = None ->
  faults w (S (S (List.length (calls w)))) = None ->
  find (ops w) (endpoint_filter (VStr endpoint)) (db w "ticket_subscriptions") = [] ->
  exists w',
    DELETE request w
    = (Ok (NextResponse_json (message_body "Suscripción no encontrada") 404), w') /\
    db w' "ticket_subscriptions" = db w "ticket_subscriptions" /\
    calls w' = [CUpdateMany "ticket_subscriptions"; CFind "ticket_subscriptions";
                CConnect] ++ calls w.
Proof.
  intros Hb He Hne F0 F1 F2 Hnone.
  pose proof (updateMany_none (ops w) (endpoint_filter (VStr endpoint)) (deactivation w)
                (db w "ticket_subscriptions") Hnone) as Hu.
  destruct (DELETE_done request json endpoint w Hb He Hne F0 F1 F2)
    as (w' & Hrun & Hdb & _ & _ & Hcalls).
  { intros d Hd Hm.
    assert (Hin : In d (find (ops w) (endpoint_filter (VStr endpoint))
                          (db w "ticket_subscriptions"))).
    { apply in_find. now split. }
    rewrite Hnone in Hin. destruct Hin. }
  { now rewrite Hu. }
  exists w'. rewrite Hu in Hrun, Hdb. repeat split; assumption.
Qed.

(** *** Rejected calls *)

Lemma driver_rejected {A} (c : call) (op : M A) (w : world) (msg : string) :
  faults w (List.length (calls w)) = Some msg ->
  driver c op w = (Throw (MongoError msg), log_call c w).
Proof. unfold driver. now intros ->. Qed.

Lemma connect_rejected (w : world) (msg : string) :
  faults w (List.length (calls w)) = Some msg ->
  connect w = (Throw (MongoError msg), log_call CConnect w).
Proof. apply driver_rejected. Qed.

Lemma query_rejected {A} (c : call) (f : filter_spec) (op : M A) (w : world)
    (msg : string) :
  faults w (List.length (calls w)) = Some msg ->
  query c f op w = (Throw (MongoError msg), log_call c w).
Proof. apply driver_rejected. Qed.

Lemma GET_rejected (w : world) (k : nat) (msg : string) :
  (k < 2)%nat ->
  first_rejected w k msg ->
  exists w',
    GET w
    = (Ok (NextResponse_json (message_body "Error al obtener pagos pendientes") 500),
       w') /\
    List.length (calls w') = (S k + List.length (calls w))%nat /\
    db w' = db w.
Proof.
  intros Hk [Hbefore Hat]. unfold GET, try_catch, GET_try.
  destruct k as [|[|k]]; [| |lia].
  - rewrite (bind_throws _ _ _ _ _ (connect_rejected _ _ Hat)).
    eexists. split; [reflexivity|]. split; reflexivity.
  - rewrite (bind_run _ _ _ _ _ (connect_ok w (Hbefore 0%nat ltac:(lia)))).
    unfold db_find_sort_project.
    rewrite (bind_throws _ _ _ _ _
               (query_rejected _ _ _ (log_call CConnect w) _ Hat)).
    eexists. split; [reflexivity|]. split; reflexivity.
Qed.

Lemma POST_rejected (request : request) (json userType : value) (endpoint : string)
    (w : world) (k : nat) (msg : string) :
  req_body request = Json json ->
  well_formed json endpoint userType ->
  unhindered json endpoint userType w ->
  (k < 5)%nat ->
  first_rejected w k msg ->
  exists w',
    POST request w = (Ok (internal_error (MongoError msg)), w') /\
    List.length (calls w') = (S k + List.length (calls w))%nat.
Proof.
  intros Hb (He & Hne & Hp & Ha & Hu & Ht) (Hacc & Hdup & Hcu & Hct) Hk [F Hat].
  assert (Hn : json <> VNull) by (intros ->; discriminate).
  assert (Hl : loggable (prop json "subscription")).
  { unfold loggable. now rewrite He. }
  assert (Hs : truthy_opt (prop json "subscription") = true).
  { destruct (prop json "subscription") as [[]|]; try discriminate; reflexivity. }
  assert (Hte : String.eqb endpoint "" = false) by now apply String.eqb_neq.
  unfold POST, try_catch, POST_try.
  destruct k as [|k].
  { rewrite (bind_throws _ _ _ _ _ (connect_rejected _ _ Hat)).
    eexists. split; reflexivity. }
  rewrite (bind_run _ _ _ _ _ (connect_ok w (F 0%nat ltac:(lia)))).
  rewrite (bind_run _ _ _ _ _ (request_json_ok _ _ _ Hb)).
  rewrite (bind_run _ _ _ _ _ (destructure_ok _ _ Hn)).
  rewrite (bind_run _ _ _ _ _ (log_endpoint_ok _ _ Hl)).
  rewrite Hs, Hu, He, Hp, Ha. cbn [truthy_opt truthy negb orb]. rewrite Ht, Hte.
  cbn [negb orb defined].
  unfold db_find, db_deleteMany, db_insertOne, db_findOne, new_Date, bind.
  destruct k as [|k].
  { rewrite query_rejected with (msg := msg) by exact Hat.
    eexists. split; reflexivity. }
  rewrite query_ok by (try exact (F 1%nat ltac:(lia)); exact Hacc).
  cbn [calls log_call db clock reads faults ops].
  rewrite logged_records_ok
    with (fields := fun sub index =>
                      [ number (index + 1); lookup "_id" sub; lookup "isActive" sub;
                        lookup "createdAt" sub ]).
  2:{ intros sub index Hin. apply in_find in Hin. destruct Hin as [Hin Hm].
      specialize (Hdup sub Hin Hm). unfold printable_duplicate in Hdup.
      apply andb_true_iff in Hdup. destruct Hdup as [Hdup H3].
      apply andb_true_iff in Hdup. destruct Hdup as [H1 H2].
      cbn [forallb number coercible_opt coercible].
      now rewrite H1, H2, H3. }
  destruct k as [|k].
  { rewrite query_rejected with (msg := msg) by exact Hat.
    eexists. split; reflexivity. }
  rewrite query_ok by (try exact (F 2%nat ltac:(lia)); exact Hacc).
  unfold deleteMany.
  cbn [calls log_call set_coll db clock reads faults next_id ops].
  destruct k as [|k].
  { rewrite driver_rejected with (msg := msg) by exact Hat.
    eexists. split; reflexivity. }
  rewrite driver_ok by exact (F 3%nat ltac:(lia)).
  cbn [calls log_call set_coll db clock reads faults next_id ops].
  rewrite template_ok.
  2:{ cbn [forallb coercible_opt]. rewrite Hcu. unfold or_else.
      destruct (truthy_opt (prop json "ticketCode")); [now rewrite Hct|reflexivity]. }
  destruct k as [|k]; [|lia].
  rewrite query_rejected with (msg := msg) by exact Hat.
  eexists. split; reflexivity.
Qed.

Lemma DELETE_rejected (request : request) (json : value) (endpoint : string)
    (w : world) (k : nat) (msg : string) :
  req_body request = Json json ->
  opt_prop (prop json "subscription") "endpoint" = Some (VStr endpoint) ->
  endpoint <> "" ->
  (forall d,
      In d (db w "ticket_subscriptions") ->
      matches (ops w) (endpoint_filter (VStr endpoint)) d = true ->
      printable_subscription d = true) ->
  (k < 3)%nat ->
  first_rejected w k msg ->
  exists w',
    DELETE request w = (Ok (internal_error (MongoError msg)), w') /\
    List.length (calls w') = (S k + List.length (calls w))%nat /\
    db w' = db w.
Proof.
  intros Hb He Hne Hprint Hk [F Hat].
  assert (Hn : json <> VNull) by (intros ->; discriminate).
  assert (Hl : loggable (prop json "subscription")).
  { unfold loggable. now rewrite He. }
  assert (Hte : String.eqb endpoint "" = false) by now apply String.eqb_neq.
  unfold DELETE, try_catch, DELETE_try.
  destruct k as [|k].
  { rewrite (bind_throws _ _ _ _ _ (connect_rejected _ _ Hat)).
    eexists. split; [reflexivity|]. split; reflexivity. }
  rewrite (bind_run _ _ _ _ _ (connect_ok w (F 0%nat ltac:(lia)))).
  rewrite (bind_run _ _ _ _ _ (request_json_ok _ _ _ Hb)).
  rewrite (bind_run _ _ _ _ _ (destructure_ok _ _ Hn)).
  rewrite (bind_run _ _ _ _ _ (log_endpoint_ok _ _ Hl)).
  rewrite He. cbn [truthy_opt truthy]. rewrite Hte. cbn [negb defined].
  unfold db_find, db_updateMany, new_Date, bind.
  destruct k as [|k].
  { rewrite query_rejected with (msg := msg) by exact Hat.
    eexists. split; [reflexivity|]. split; reflexivity. }
  rewrite query_ok by (try exact (F 1%nat ltac:(lia)); reflexivity).
  cbn [calls log_call db clock reads faults ops].
  rewrite logged_records_ok
    with (fields := fun sub index =>
                      [ number (index + 1); lookup "userType" sub;
                        lookup "ticketCodes" sub; lookup "isActive" sub ]).
  2:{ intros sub index Hin. apply in_find in Hin. destruct Hin as [Hin Hm].
      specialize (Hprint sub Hin Hm). unfold printable_subscription in Hprint.
      apply andb_true_iff in Hprint. destruct Hprint as [Hprint H3].
      apply andb_true_iff in Hprint. destruct Hprint as [H1 H2].
      cbn [forallb number coercible_opt coercible].
      now rewrite H1, H2, H3. }
  destruct k as [|k]; [|lia].
  rewrite query_rejected with (msg := msg) by exact Hat.
  eexists. split; [reflexivity|]. split; reflexivity.
Qed.

(** A body that is not JSON. *)
Lemma malformed_body (request : request) (why : string) (w : world) :
  req_body request = Malformed why ->
  faults w (List.length (calls w)) = None ->
  POST request w = (Ok (internal_error (SyntaxError why)), log_call CConnect w) /\
  DELETE request w = (Ok (internal_error (SyntaxError why)), log_call CConnect w).
Proof.
  intros Hb F. unfold POST, DELETE, try_catch, POST_try, DELETE_try.
  rewrite !(bind_run _ _ _ _ _ (connect_ok w F)).
  unfold request_json, bind. rewrite Hb. split; reflexivity.
Qed.

End SubscriptionFacts.

Module PairFacts.
Import Js Store Http Routes CarRegistration StoreFacts RouteFacts FormFacts.
Import Frames FrameFacts.
Local Open Scope route_scope.

(** The rule for [bind] that only asks about the values the first step can
    return. *)
Lemma keeps_bind_ok {A B} (R : world -> world -> Prop) (m : M A) (k : A -> M B) :
  (forall w1 w2 w3, R w1 w2 -> R w2 w3 -> R w1 w3) ->
  keeps R m ->
  (forall a, (exists w w1, m w = (Ok a, w1)) -> keeps R (k a)) ->
  keeps R (bind m k).
Proof.
  intros Htrans Hm Hk w. unfold bind.
  pose proof (Hm w) as Hw. destruct (m w) as [[a|e] w1] eqn:E; simpl in *.
  - eapply Htrans; [exact Hw|]. apply Hk. eauto.
  - exact Hw.
Qed.

Lemma spares_trans (pair : filter_spec) (w1 w2 w3 : world) :
  spares pair w1 w2 -> spares pair w2 w3 -> spares pair w1 w3.
Proof.
  unfold spares. intros [O1 H1] [O2 H2]. split; [congruence|].
  intros d Hd Hm. apply H2; [now apply H1|]. now rewrite O1.
Qed.

Lemma store_kept_spares (pair : filter_spec) (w w' : world) :
  store_kept w w' -> spares pair w w'.
Proof. intros [Ho H]. split; [exact Ho|]. intros d Hd _. now rewrite H. Qed.

Lemma deleteMany_spares (pair : filter_spec) :
  keeps (spares pair) (db_deleteMany "ticket_subscriptions" pair).
Proof.
  apply keeps_query; intros w.
  - apply store_kept_spares. split; reflexivity.
  - unfold deleteMany. split; [reflexivity|].
    cbn [snd db set_coll log_call ops]. rewrite String.eqb_refl.
    intros d Hd Hm. apply filter_In. split; [exact Hd|now rewrite Hm].
Qed.

Lemma insertOne_spares (pair : filter_spec) (d : doc) :
  keeps (spares pair) (db_insertOne "ticket_subscriptions" d).
Proof.
  apply keeps_driver; intros w.
  - apply store_kept_spares. split; reflexivity.
  - split; [reflexivity|].
    cbn [snd db set_coll log_call next_id]. rewrite String.eqb_refl.
    intros x Hx _. unfold insertOne. apply in_or_app. now left.
Qed.

Lemma POST_spares (request : request) (json endpoint userType : value) :
  req_body request = Json json ->
  opt_prop (prop json "subscription") "endpoint" = Some endpoint ->
  prop json "userType" = Some userType ->
  keeps (spares (subscription_filter endpoint userType)) (POST request).
Proof.
  intros Hb He Hu. set (pair := subscription_filter endpoint userType).
  assert (Hstore : forall A (m : M A), keeps store_kept m -> keeps (spares pair) m).
  { intros A m. apply keeps_weaken. apply store_kept_spares. }
  unfold POST. apply keeps_try_catch; [exact (spares_trans pair)| |].
  2:{ intros e. apply Hstore. unfold POST_catch. apply silent_steps_keep_store. }
  unfold POST_try.
  apply keeps_bind; [exact (spares_trans pair)| |intros _].
  { apply Hstore, reading_calls_keep_store. }
  apply keeps_bind_ok; [exact (spares_trans pair)| |intros a (w & w1 & Ha)].
  { apply Hstore, silent_steps_keep_store. }
  apply request_json_ok_inv in Ha. destruct Ha as [Ha _].
  rewrite Hb in Ha. injection Ha as <-.
  apply keeps_bind_ok; [exact (spares_trans pair)| |intros a (w' & w1' & Ha)].
  { apply Hstore, silent_steps_keep_store. }
  apply destructure_ok_inv in Ha. destruct Ha as (-> & _ & _).
  rewrite He, Hu. cbn [defined]. fold pair.
  repeat keeps_step (spares_trans pair) (store_kept_spares pair)
    ltac:(first [ apply deleteMany_spares | apply insertOne_spares ]).
Qed.

(** *** [DELETE] and the records of other endpoints *)

Lemma unselected_kept_trans (f : filter_spec) (w1 w2 w3 : world) :
  unselected_kept f w1 w2 -> unselected_kept f w2 w3 -> unselected_kept f w1 w3.
Proof.
  unfold unselected_kept. intros [O1 H1] [O2 H2]. split; [congruence|].
  rewrite O1 in H2. revert H1 H2.
  generalize (db w1 "ticket_subscriptions") (db w2 "ticket_subscriptions")
    (db w3 "ticket_subscriptions") (ops w1).
  intros l1 l2 l3 q H. revert l3. induction H as [|a b l1 l2 Hab _ IH]; intros l3 H23.
  - inversion H23. constructor.
  - inversion H23 as [|? c ? l3' Hbc Hrest]; subst. constructor; [|now apply IH].
    intros Ha. specialize (Hab Ha). subst b. auto.
Qed.

Lemma store_kept_unselected (f : filter_spec) (w w' : world) :
  store_kept w w' -> unselected_kept f w w'.
Proof.
  intros [Ho H]. split; [exact Ho|]. rewrite H.
  induction (db w "ticket_subscriptions"); constructor; auto.
Qed.

Lemma updateMany_unselected (q : operators) (f : filter_spec)
    (upd : list (path * value)) (c : collection) :
  Forall2 (fun d d' => matches q f d = false -> d' = d) c
    (updated (updateMany q f upd c)).
Proof.
  induction c as [|d c IH]; simpl; [constructor|].
  destruct (matches q f d) eqn:E.
  - destruct (apply_set upd d) as [d'|]; simpl.
    + constructor; [intros H; congruence|exact IH].
    + constructor; [reflexivity|].
      clear. induction c; constructor; auto.
  - simpl. constructor; auto.
Qed.

Lemma updateMany_keeps_unselected (f : filter_spec) (upd : list (path * value)) :
  keeps (unselected_kept f) (db_updateMany "ticket_subscriptions" f upd).
Proof.
  apply keeps_query; intros w.
  - apply store_kept_unselected. split; reflexivity.
  - cbv beta zeta. split.
    + now destruct (writeError _).
    + destruct (writeError _);
        cbn [snd db set_coll log_call ops String.eqb Ascii.eqb Bool.eqb];
        exact (updateMany_unselected (ops w) f _ _).
Qed.

Lemma DELETE_keeps_unselected (request : request) (json endpoint : value) :
  req_body request = Json json ->
  opt_prop (prop json "subscription") "endpoint" = Some endpoint ->
  keeps (unselected_kept (endpoint_filter endpoint)) (DELETE request).
Proof.
  intros Hb He. set (f := endpoint_filter endpoint).
  assert (Hstore : forall A (m : M A), keeps store_kept m -> keeps (unselected_kept f) m).
  { intros A m. apply keeps_weaken. apply store_kept_unselected. }
  unfold DELETE. apply keeps_try_catch; [exact (unselected_kept_trans f)| |].
  2:{ intros e. apply Hstore. unfold DELETE_catch. apply silent_steps_keep_store. }
  unfold DELETE_try.
  apply keeps_bind; [exact (unselected_kept_trans f)| |intros _].
  { apply Hstore, reading_calls_keep_store. }
  apply keeps_bind_ok; [exact (unselected_kept_trans f)| |intros a (w & w1 & Ha)].
  { apply Hstore, silent_steps_keep_store. }
  apply request_json_ok_inv in Ha. destruct Ha as [Ha _].
  rewrite Hb in Ha. injection Ha as <-.
  apply keeps_bind_ok; [exact (unselected_kept_trans f)| |intros a (w' & w1' & Ha)].
  { apply Hstore, silent_steps_keep_store. }
  apply destructure_ok_inv in Ha. destruct Ha as (-> & _ & _).
  rewrite He. cbn [defined]. fold f.
  repeat keeps_step (unselected_kept_trans f) (store_kept_unselected f)
    ltac:(apply updateMany_keeps_unselected).
Qed.

End PairFacts.

(* ================================================================== *)
(** ** Properties of the component's lists and of [trim] *)
(* ================================================================== *)

Module CarListFacts.
Import Js CarRegistration CarLists.
Local Open Scope nat_scope.

(** Going through [l] by index next to [rest], which starts at index [i] of
    the other array, is going through the two lists side by side. *)
Lemma every_from_side_by_side {A B} (P : A -> B -> bool) (l : list A)
    (pre rest : list B) :
  List.length l = List.length rest ->
  every_from (List.length pre)
    (fun x j =>
       match nth_error (pre ++ rest) j with
       | Some y => P x y
       | None => false
       end) l
  = forallb (fun p => P (fst p) (snd p)) (combine l rest).
Proof.
  revert pre rest. induction l as [|x l IH]; intros pre [|y rest] Hlen;
    try discriminate; [reflexivity|].
  cbn [every_from combine forallb fst snd].
  rewrite nth_error_app2 by lia. rewrite Nat.sub_diag. cbn [nth_error].
  f_equal.
  specialize (IH (pre ++ [y]) rest ltac:(simpl in Hlen; lia)).
  rewrite length_app in IH. cbn [List.length] in IH.
  rewrite Nat.add_1_r in IH. rewrite <- app_assoc in IH. exact IH.
Qed.

Lemma forallb_combine_Forall2 {A B} (P : A -> B -> bool) (l : list A) (l' : list B) :
  List.length l = List.length l' ->
  (forallb (fun p => P (fst p) (snd p)) (combine l l') = true
   <-> Forall2 (fun x y => P x y = true) l l').
Proof.
  revert l'. induction l as [|x l IH]; intros [|y l'] Hlen; try discriminate.
  - split; [constructor|reflexivity].
  - cbn [combine forallb fst snd]. rewrite andb_true_iff, IH by (simpl in Hlen; lia).
    split.
    + intros [H1 H2]. now constructor.
    + intros H. inversion H; subst. now split.
Qed.

Lemma areArraysEqual_agrees (arr1 arr2 : list object) :
  areArraysEqual arr1 arr2 = true <-> Forall2 agrees arr1 arr2.
Proof.
  unfold areArraysEqual, every.
  destruct (Nat.eqb (List.length arr1) (List.length arr2)) eqn:Hlen; cbn [negb].
  - apply Nat.eqb_eq in Hlen.
    set (P := fun item1 item2 : object =>
                forallb (fun key => strict_eq (lookup key item1) (lookup key item2))
                  (Object_keys item1)).
    pose proof (every_from_side_by_side P arr1 [] arr2 Hlen) as E.
    cbn [List.length app] in E.
    change (every_from 0
              (fun x j => match nth_error arr2 j with
                          | Some y => P x y
                          | None => false
                          end) arr1 = true
            <-> Forall2 agrees arr1 arr2).
    rewrite E, (forallb_combine_Forall2 P arr1 arr2 Hlen).
    split; intros H; (eapply Forall2_impl; [|exact H]); intros a b;
      unfold agrees, P; rewrite forallb_forall; auto.
  - split; [discriminate|].
    intros H. apply Forall2_length in H. apply Nat.eqb_neq in Hlen. contradiction.
Qed.

Lemma ticket_objects_agree (t1 t2 : AvailableTicket) :
  agrees (ticket_object t1) (ticket_object t2) <-> t1 = t2.
Proof.
  split.
  - intros H. destruct t1 as [i1 c1 e1], t2 as [i2 c2 e2].
    pose proof (H "_id" ltac:(simpl; auto)) as Hi.
    pose proof (H "codigoTicket" ltac:(simpl; auto)) as Hc.
    pose proof (H "estado" ltac:(simpl; auto)) as He.
    cbn in Hi, Hc, He.
    apply String.eqb_eq in Hi, Hc, He. now subst.
  - intros <- key Hk. destruct t1 as [i c e].
    destruct Hk as [<-|[<-|[<-|[]]]]; cbn; apply String.eqb_refl.
Qed.

Lemma Forall2_map_eq {A B} (f : A -> B) (R : B -> B -> Prop) (l l' : list A) :
  (forall x y, R (f x) (f y) <-> x = y) ->
  (Forall2 R (map f l) (map f l') <-> l = l').
Proof.
  intros HR. revert l'. induction l as [|x l IH]; intros [|y l']; simpl;
    split; intros H; try reflexivity; try constructor; try discriminate;
    try (now inversion H).
  - inversion H; subst. f_equal; [now apply HR|now apply IH].
  - injection H as -> ->. now apply HR.
  - injection H as -> ->. now apply IH.
Qed.

Lemma lookup_app_left (key : string) (item extra : object) :
  In key (Object_keys item) -> lookup key (item ++ extra) = lookup key item.
Proof.
  induction item as [|[k v] item IH]; simpl; [contradiction|].
  intros [->|H]; [now rewrite String.eqb_refl|].
  destruct (String.eqb key k); [reflexivity|now apply IH].
Qed.

Lemma lookup_in (key : string) (item : object) :
  In key (Object_keys item) -> exists v, lookup key item = Some v /\ In (key, v) item.
Proof.
  induction item as [|[k v] item IH]; simpl; [contradiction|].
  intros H. destruct (String.eqb key k) eqn:E.
  - apply String.eqb_eq in E. subst. eauto.
  - destruct H as [->|H]; [now rewrite String.eqb_refl in E|].
    destruct (IH H) as (v' & Hl & Hin). eauto.
Qed.

Lemma strict_eq_refl (v : value) : primitive v = true -> strict_eq (Some v) (Some v) = true.
Proof.
  destruct v; simpl; try discriminate; intros _; auto.
  - apply Bool.eqb_reflx.
  - apply Qeq_bool_iff. reflexivity.
  - apply String.eqb_refl.
Qed.

End CarListFacts.

Module TrimFacts.
Import Js CarRegistration FormFacts TrimDefs.
Local Open Scope nat_scope.

Lemma length_append (a b : string) :
  String.length (a ++ b)%string = String.length a + String.length b.
Proof. induction a; simpl; auto. Qed.

Lemma drop_one_white (w rest : string) :
  In w white_space -> drop_one white_space (w ++ rest)%string = Some rest.
Proof.
  unfold white_space. intros H.
  repeat (destruct H as [<-|H]; [reflexivity|]). contradiction.
Qed.

Lemma white_not_empty (w : string) : In w white_space -> 1 <= String.length w.
Proof.
  unfold white_space. intros H.
  repeat (destruct H as [<-|H]; [simpl; lia|]). contradiction.
Qed.

Lemma blanks_length (ws : list string) :
  Forall (fun w => In w white_space) ws ->
  List.length ws <= String.length (blanks ws).
Proof.
  induction 1 as [|w ws Hw _ IH]; simpl; [lia|].
  rewrite length_append. apply white_not_empty in Hw. lia.
Qed.

Lemma drop_leading_blanks (ws : list string) (fuel : nat) :
  Forall (fun w => In w white_space) ws ->
  List.length ws <= fuel ->
  drop_leading fuel white_space (blanks ws) = "".
Proof.
  intros H. revert fuel. induction H as [|w ws Hw _ IH]; intros fuel Hf.
  - destruct fuel; reflexivity.
  - destruct fuel as [|fuel]; [simpl in Hf; lia|].
    cbn [blanks fold_right drop_leading].
    fold (blanks ws). rewrite (drop_one_white w (blanks ws) Hw).
    apply IH. simpl in Hf. lia.
Qed.

Lemma trim_blanks (ws : list string) :
  Forall (fun w => In w white_space) ws -> trim (blanks ws) = "".
Proof.
  intros H. unfold trim, trimStart.
  rewrite (drop_leading_blanks ws _ H (blanks_length ws H)). reflexivity.
Qed.

(** *** A text that starts with an ordinary character *)

Lemma drop_one_ordinary (ws : list string) (c : ascii) (s : string) :
  existsb (fun w => match w with
                    | String a _ => Ascii.eqb a c
                    | EmptyString => true
                    end) ws = false ->
  drop_one ws (String c s) = None.
Proof.
  induction ws as [|w ws IH]; simpl; [reflexivity|].
  rewrite orb_false_iff. intros [Hw Hws].
  destruct w as [|a w]; [discriminate|]. simpl. rewrite Hw. now apply IH.
Qed.

Lemma trimStart_ordinary (c : ascii) (s : string) :
  starts_white c = false -> trimStart (String c s) = String c s.
Proof.
  intros H. unfold trimStart. cbn [String.length drop_leading].
  now rewrite (drop_one_ordinary white_space c s H).
Qed.

Lemma drop_prefix_snoc (p u : string) (c : ascii) (r : string) :
  ends_other c p = true ->
  drop_prefix p (snoc u c) = Some r ->
  exists u', r = snoc u' c.
Proof.
  revert u. induction p as [|a p IH]; intros u Hp; [discriminate|].
  destruct u as [|b u]; cbn [snoc String.append drop_prefix].
  - destruct (Ascii.eqb a c) eqn:E; [|discriminate].
    destruct p as [|a' p]; [simpl in Hp; rewrite E in Hp; discriminate|].
    discriminate.
  - destruct (Ascii.eqb a b); [|discriminate].
    destruct p as [|a' p].
    + simpl. intros [= <-]. now exists u.
    + intros H. apply (IH u); [exact Hp|exact H].
Qed.

Lemma drop_one_snoc (ws : list string) (u : string) (c : ascii) (r : string) :
  forallb (ends_other c) ws = true ->
  drop_one ws (snoc u c) = Some r ->
  exists u', r = snoc u' c.
Proof.
  induction ws as [|w ws IH]; simpl; [discriminate|].
  rewrite andb_true_iff. intros [Hw Hws].
  destruct (drop_prefix w (snoc u c)) as [r'|] eqn:E.
  - intros [= <-]. eapply drop_prefix_snoc; eauto.
  - now apply IH.
Qed.

Lemma drop_leading_snoc (ws : list string) (fuel : nat) (u : string) (c : ascii) :
  forallb (ends_other c) ws = true ->
  exists u', drop_leading fuel ws (snoc u c) = snoc u' c.
Proof.
  intros Hws. revert u. induction fuel as [|fuel IH]; intros u; simpl; [eauto|].
  destruct (drop_one ws (snoc u c)) as [r|] eqn:E; [|eauto].
  destruct (drop_one_snoc ws u c r Hws E) as [u' ->]. apply IH.
Qed.

Lemma reversed_white_ends_other (c : ascii) :
  starts_white c = false -> forallb (ends_other c) (map reverse white_space) = true.
Proof.
  unfold starts_white, white_space. cbn.
  rewrite !orb_false_iff, !andb_true_iff, !negb_true_iff. tauto.
Qed.

Lemma string_of_list_snoc (l : list ascii) (c : ascii) :
  string_of_list_ascii (l ++ [c]) = snoc (string_of_list_ascii l) c.
Proof. induction l; simpl; [reflexivity|]. unfold snoc in IHl. now rewrite IHl. Qed.

Lemma reverse_cons (c : ascii) (s : string) : reverse (String c s) = snoc (reverse s) c.
Proof. unfold reverse. cbn [list_ascii_of_string rev]. apply string_of_list_snoc. Qed.

Lemma list_of_snoc (u : string) (c : ascii) :
  list_ascii_of_string (snoc u c) = list_ascii_of_string u ++ [c].
Proof. induction u; simpl; [reflexivity|]. unfold snoc in IHu. now rewrite IHu. Qed.

Lemma reverse_snoc (u : string) (c : ascii) : reverse (snoc u c) = String c (reverse u).
Proof. unfold reverse. rewrite list_of_snoc, rev_app_distr. reflexivity. Qed.

Lemma trim_ordinary (c : ascii) (s : string) :
  starts_white c = false -> exists s', trim (String c s) = String c s'.
Proof.
  intros H. unfold trim. rewrite (trimStart_ordinary c s H).
  unfold trimEnd. rewrite reverse_cons.
  destruct (drop_leading_snoc (map reverse white_space)
              (String.length (String c s)) (reverse s) c
              (reversed_white_ends_other c H)) as [u' ->].
  rewrite reverse_snoc. eauto.
Qed.

End TrimFacts.

(* ================================================================== *)
(** ** The claims *)
(* ================================================================== *)

Import Js Store Http Routes CarRegistration StoreFacts RouteFacts FormFacts.

(** Claim C1 at a request the handler accepts and that breaks it.  The
    [userType] of the body goes into the filter of [deleteMany] as it is, and
    the database reads [{ "$eq": "user" }] as a query operator, not as the
    value that is then stored.  Sent twice, the request is answered 201
    twice; the first run deletes the two records of the user type ["user"],
    the second run finds nothing to delete, and the collection ends with two
    records of the endpoint and of the user type of the request. *)
Theorem C1_operator_userType_is_not_replaced :
  let userType := VObj [ ("$eq", VStr "user") ] in
  let endpoint := VStr "https://push.example/a" in
  let request := Samples.subscribe_as "https://push.example/a" userType in
  let w1 := snd (POST request Samples.world0) in
  let w2 := snd (POST request w1) in
  status (Samples.response_of (POST request Samples.world0)) = 201 /\
  status (Samples.response_of (POST request w1)) = 201 /\
  map (lookup "_id") (db Samples.world0 "ticket_subscriptions")
  = [Some (VId 1); Some (VId 2); Some (VId 3); Some (VId 4)] /\
  map (lookup "_id") (db w1 "ticket_subscriptions")
  = [Some (VId 2); Some (VId 4); Some (VId 50)] /\
  map (lookup "_id") (db w2 "ticket_subscriptions")
  = [Some (VId 2); Some (VId 4); Some (VId 50); Some (VId 51)] /\
  map (lookup "_id")
    (List.filter (of_pair endpoint userType) (db w2 "ticket_subscriptions"))
  = [Some (VId 50); Some (VId 51)].
Proof.
  cbv zeta. repeat split; vm_compute; reflexivity.
Qed.

(** Claim C2 fails as stated, in two ways.  The query selects a payment
    whose [estado] is an array holding ["pendiente_validacion"]: the payment
    is returned although its [estado] is not that text.  And where the
    [codigoTicket] of a pending payment has no text, the debug line of the
    handler throws: the answer is 500 and no payment is returned. *)
Lemma C2_counterexample :
  let listed : doc :=
    [ ("_id", VId 21);
      ("codigoTicket", VStr "T-021");
      ("estado", VArr [VStr "pendiente_validacion"; VStr "en_revision"]);
      ("estadoValidacion", VStr "pendiente") ] in
  let unprintable : doc :=
    [ ("_id", VId 22);
      ("codigoTicket", VObj [ ("toString", VNum 1) ]);
      ("estado", VStr "pendiente_validacion");
      ("estadoValidacion", VStr "pendiente") ] in
  (lookup "estado" listed <> Some (VStr "pendiente_validacion") /\
   status (Samples.response_of (GET (Samples.with_payments [listed]))) = 200 /\
   payload (Samples.response_of (GET (Samples.with_payments [listed])))
   = VArr [VObj listed]) /\
  (lookup "estado" unprintable = Some (VStr "pendiente_validacion") /\
   lookup "estadoValidacion" unprintable = Some (VStr "pendiente") /\
   status (Samples.response_of (GET (Samples.with_payments [unprintable]))) = 500 /\
   payload (Samples.response_of (GET (Samples.with_payments [unprintable])))
   = message_body "Error al obtener pagos pendientes").
Proof.
  cbv zeta. split; [split; [discriminate|split; vm_compute; reflexivity]|].
  repeat split; vm_compute; reflexivity.
Qed.

(** Claim C2, amended.  Take any store in which the [codigoTicket] of every
    pending payment has a text, so that the debug lines of the handler go
    through.  When the database answers, the pending-payments [GET] endpoint
    responds 200 with the documents of ["pagos"] that the query selects,
    each in its projected form: those whose [estado] is
    ["pendiente_validacion"] or an array holding it and whose
    [estadoValidacion] is ["pendiente"] or an array holding it.  The
    documents returned are, up to order, exactly those; a document is among
    them if and only if it is stored and meets both conditions; every
    returned document still meets them; and the store is left as it was. *)
Theorem C2_pending_payments_listed :
  forall w : world,
    faults w (List.length (calls w)) = None ->
    faults w (S (List.length (calls w))) = None ->
    (forall d, In d (db w "pagos") -> pending d -> printable_payment d = true) ->
    exists (r : response) (w' : world) (ds : list doc),
      GET w = (Ok r, w') /\
      status r = 200 /\
      payload r = VArr (map (fun d => VObj (project pending_projection d)) ds) /\
      Permutation ds (find (ops w) pending_filter (db w "pagos")) /\
      (forall d, In d ds <-> In d (db w "pagos") /\ pending d) /\
      Forall (fun d => pending (project pending_projection d)) ds /\
      db w' = db w.
Proof.
  intros w F0 F1 Hprint.
  destruct (GET_ok w F0 F1 (pending_payments_printable w Hprint))
    as (r & Hrun & Hst & Hp).
  exists r, (log_call (CFind "pagos") (log_call CConnect w)),
    (sort_desc "fechaPago" (find (ops w) pending_filter (db w "pagos"))).
  pose proof (in_pending_payments w) as Hin.
  split; [exact Hrun|]. split; [exact Hst|]. split.
  - rewrite Hp. unfold pending_payments. now rewrite map_map.
  - split; [symmetry; apply sort_desc_perm|]. split; [exact Hin|].
    split; [|reflexivity].
    apply Forall_forall. intros d Hd. apply Hin in Hd. destruct Hd as [_ Hd].
    now apply pending_project.
Qed.

(** Claim C2, amended, at a sample: two of the four stored payments are
    pending. *)
Lemma C2_pending_payments_listed_witness :
  exists ds,
    payload (Samples.response_of (GET Samples.world0))
    = VArr (map (fun d => VObj (project pending_projection d)) ds) /\
    Permutation ds
      [ Samples.payment 11 "pendiente_validacion" "pendiente" 1000;
        Samples.payment 13 "pendiente_validacion" "pendiente" 3000 ].
Proof.
  assert (Hprint : forall d,
             In d (db Samples.world0 "pagos") -> pending d ->
             printable_payment d = true).
  { intros d Hd _. simpl in Hd.
    destruct Hd as [<-|[<-|[<-|[<-|[]]]]]; reflexivity. }
  destruct (C2_pending_payments_listed Samples.world0 eq_refl eq_refl Hprint)
    as (r & w' & ds & Hrun & _ & Hp & Hperm & _).
  exists ds. split; [|exact Hperm].
  unfold Samples.response_of. rewrite Hrun. exact Hp.
Defined.

(** Claim C3 fails as stated: a body with [subscription] present, without
    [subscription.endpoint] and without [userType], is answered with
    "Datos incompletos", not with "Suscripción inválida". *)
Lemma C3_counterexample :
  let json := VObj [ ("subscription", VObj [ ("keys", VObj []) ]) ] in
  prop json "subscription" <> None /\
  opt_prop (prop json "subscription") "endpoint" = None /\
  fst (POST (Samples.with_body json) Samples.world0)
  = Ok (NextResponse_json (message_body "Datos incompletos") 400) /\
  fst (POST (Samples.with_body json) Samples.world0)
  <> Ok (NextResponse_json (message_body "Suscripción inválida") 400).
Proof.
  cbv zeta. split; [discriminate|]. split; [reflexivity|].
  split; [reflexivity|]. vm_compute. discriminate.
Qed.

(** Claim C3, amended.  For a body that parses to a value other than [null],
    with the database connection up and [subscription.endpoint] absent,
    [null] or a string: when [subscription] or [userType] is absent (or
    otherwise falsy) the [POST] endpoint answers 400 "Datos incompletos"; when
    both are truthy and [subscription.endpoint], [keys.p256dh] or [keys.auth]
    is absent (or otherwise falsy) it answers 400 "Suscripción inválida".  In
    both cases the connection is the only driver call made and the
    collections are untouched. *)
Theorem C3_post_validates_before_store :
  forall (request : request) (json : value) (w : world),
    req_body request = Json json ->
    json <> VNull ->
    faults w (List.length (calls w)) = None ->
    loggable (prop json "subscription") ->
    let subscription := prop json "subscription" in
    let userType := prop json "userType" in
    (truthy_opt subscription = false \/ truthy_opt userType = false ->
     POST request w =
       (Ok (NextResponse_json (message_body "Datos incompletos") 400),
        log_call CConnect w)) /\
    (truthy_opt subscription = true ->
     truthy_opt userType = true ->
     truthy_opt (opt_prop subscription "endpoint") = false \/
     truthy_opt (opt_prop (opt_prop subscription "keys") "p256dh") = false \/
     truthy_opt (opt_prop (opt_prop subscription "keys") "auth") = false ->
     POST request w =
       (Ok (NextResponse_json (message_body "Suscripción inválida") 400),
        log_call CConnect w)) /\
    db (log_call CConnect w) = db w /\
    calls (log_call CConnect w) = CConnect :: calls w.
Proof.
  intros request json w Hb Hn F Hl subscription userType.
  split; [|split; [|split; reflexivity]].
  - intros Hv. now apply (POST_incomplete request json w).
  - intros Hs Hu Hv. now apply (POST_invalid request json w).
Qed.

(** Claim C3, amended, at two sample bodies. *)
Lemma C3_post_validates_before_store_witness :
  POST (Samples.with_body (VObj [ ("userType", VStr "user") ])) Samples.world0
  = (Ok (NextResponse_json (message_body "Datos incompletos") 400),
     log_call CConnect Samples.world0) /\
  POST (Samples.with_body
          (VObj [ ("subscription", VObj [ ("endpoint", VStr "https://push.example/a") ]);
                  ("userType", VStr "user") ]))
       Samples.world0
  = (Ok (NextResponse_json (message_body "Suscripción inválida") 400),
     log_call CConnect Samples.world0).
Proof.
  split.
  - destruct (C3_post_validates_before_store
                (Samples.with_body (VObj [ ("userType", VStr "user") ]))
                (VObj [ ("userType", VStr "user") ]) Samples.world0
                eq_refl ltac:(discriminate) eq_refl I) as (H & _).
    apply H. left. reflexivity.
  - destruct (C3_post_validates_before_store
                (Samples.with_body
                   (VObj [ ("subscription",
                            VObj [ ("endpoint", VStr "https://push.example/a") ]);
                           ("userType", VStr "user") ]))
                (VObj [ ("subscription",
                         VObj [ ("endpoint", VStr "https://push.example/a") ]);
                        ("userType", VStr "user") ])
                Samples.world0 eq_refl ltac:(discriminate) eq_refl I)
      as (_ & H & _).
    apply H; [reflexivity|reflexivity|]. right. left. reflexivity.
Defined.

(** Claim C4 fails as stated: after a successful [DELETE] the record stored
    under the endpoint is still in the collection, which is as long as
    before. *)
Lemma C4_counterexample :
  let request := Samples.with_body
      (VObj [ ("subscription", VObj [ ("endpoint", VStr "https://push.example/b") ]) ]) in
  let stored := find Samples.comparison (endpoint_filter (VStr "https://push.example/b")) in
  let before := db Samples.world0 "ticket_subscriptions" in
  let after := db (snd (DELETE request Samples.world0)) "ticket_subscriptions" in
  status (Samples.response_of (DELETE request Samples.world0)) = 200 /\
  List.length (stored before) = 1%nat /\
  List.length (stored after) = 1%nat /\
  List.length after = List.length before.
Proof.
  cbv zeta. repeat split; vm_compute; reflexivity.
Qed.

(** Claim C4, amended.  [DELETE] deactivates subscription records, it does
    not remove them.  Take a body that parses to a value other than [null],
    with the database connection up.  When [subscription.endpoint] is
    absent, [null] or the empty text, the endpoint answers 400.  When it is a
    non-empty text, the database carries out the find and the update, and
    the debug line goes through for the records found: every record stored
    under that endpoint, whatever its [userType], is kept and marked inactive
    and unsubscribed, with [unsubscribedAt] and [lifecycle.updatedAt] set to
    the two times read from the clock; every other record is left as it was;
    and the answer is 404 when no record was modified and otherwise 200 with
    the number of modified records, which is the number of records that
    differ afterwards. *)
Theorem C4_delete_deactivates :
  forall (request : request) (json : value) (w : world),
    req_body request = Json json ->
    json <> VNull ->
    faults w (List.length (calls w)) = None ->
    let endpoint := opt_prop (prop json "subscription") "endpoint" in
    (endpoint = None \/ endpoint = Some VNull \/ endpoint = Some (VStr "") ->
     DELETE request w =
       (Ok (NextResponse_json (message_body "Endpoint de suscripción requerido") 400),
        log_call CConnect w)) /\
    (forall e : string,
        endpoint = Some (VStr e) ->
        e <> "" ->
        faults w (S (List.length (calls w))) = None ->
        faults w (S (S (List.length (calls w)))) = None ->
        (forall d,
            In d (db w "ticket_subscriptions") ->
            matches (ops w) (endpoint_filter (VStr e)) d = true ->
            printable_subscription d = true) ->
        let u :=
          updateMany (ops w) (endpoint_filter (VStr e)) (deactivation w)
            (db w "ticket_subscriptions") in
        writeError u = false ->
        exists w',
          DELETE request w = (Ok (deactivated_response (modifiedCount u)), w') /\
          status (deactivated_response (modifiedCount u))
          = (if Nat.eqb (modifiedCount u) 0 then 404 else 200) /\
          Forall2
            (kept_inactive (ops w) (VStr e) (clock w (reads w)) (clock w (S (reads w))))
            (db w "ticket_subscriptions") (db w' "ticket_subscriptions") /\
          modifiedCount u
          = List.length
              (List.filter (fun p => negb (doc_eqb (fst p) (snd p)))
                 (combine (db w "ticket_subscriptions")
                    (db w' "ticket_subscriptions")))).
Proof.
  intros request json w Hb Hn F0 endpoint. split.
  - intros Hv. apply (DELETE_required request json w Hb Hn F0).
    + unfold loggable. fold endpoint. now destruct Hv as [-> | [-> | ->]].
    + fold endpoint. now destruct Hv as [-> | [-> | ->]].
  - intros e He Hne F1 F2 Hprint u Hu.
    destruct (DELETE_done request json e w Hb He Hne F0 F1 F2 Hprint Hu)
      as (w' & Hrun & Hdb & _ & _).
    exists w'. split; [exact Hrun|]. split.
    { unfold deactivated_response. now destruct (Nat.eqb _ 0). }
    rewrite Hdb. split.
    + eapply Forall2_impl; [|apply updateMany_each; exact Hu].
      intros d d'. apply updated_by_kept_inactive.
    + apply updateMany_count. exact Hu.
Qed.

(** Claim C4, amended, at two sample bodies. *)
Lemma C4_delete_deactivates_witness :
  DELETE (Samples.with_body (VObj [ ("subscription", VObj []) ])) Samples.world0
  = (Ok (NextResponse_json (message_body "Endpoint de suscripción requerido") 400),
     log_call CConnect Samples.world0) /\
  exists w',
    DELETE (Samples.with_body
              (VObj [ ("subscription",
                       VObj [ ("endpoint", VStr "https://push.example/a") ]) ]))
           Samples.world0
    = (Ok (deactivated_response 3), w') /\
    Forall2 (kept_inactive Samples.comparison (VStr "https://push.example/a") 0 1)
      (db Samples.world0 "ticket_subscriptions") (db w' "ticket_subscriptions").
Proof.
  split.
  - destruct (C4_delete_deactivates
                (Samples.with_body (VObj [ ("subscription", VObj []) ]))
                (VObj [ ("subscription", VObj []) ]) Samples.world0
                eq_refl ltac:(discriminate) eq_refl) as (H & _).
    apply H. left. reflexivity.
  - destruct (C4_delete_deactivates
                (Samples.with_body
                   (VObj [ ("subscription",
                            VObj [ ("endpoint", VStr "https://push.example/a") ]) ]))
                (VObj [ ("subscription",
                         VObj [ ("endpoint", VStr "https://push.example/a") ]) ])
                Samples.world0 eq_refl ltac:(discriminate) eq_refl) as (_ & H).
    assert (Hprint : forall d,
               In d (db Samples.world0 "ticket_subscriptions") ->
               matches (ops Samples.world0)
                 (endpoint_filter (VStr "https://push.example/a")) d = true ->
               printable_subscription d = true).
    { intros d Hd _. simpl in Hd.
      destruct Hd as [<-|[<-|[<-|[<-|[]]]]]; reflexivity. }
    destruct (H "https://push.example/a" eq_refl ltac:(discriminate)
                eq_refl eq_refl Hprint eq_refl) as (w' & Hrun & _ & Hkept & _).
    exists w'. split; [exact Hrun|exact Hkept].
Defined.

(** Claim C5.  Each of the three handlers deals with failure by status code
    only.

    In every run the handler answers.  Whatever its [try] block throws is
    answered by 500, and the world is left exactly as it was when the error
    occurred: nothing is retried and no further store operation is made.  A
    driver call the database rejects is the last driver call of the handler.
    When nothing is thrown the answer is the block's own: 200 for [GET]; 201
    or 400 for [POST]; 200, 400 or 404 for [DELETE].

    A database failure is met at every call.  [GET] makes two calls; [POST]
    makes five on a body that passes its checks, and [DELETE] three on a
    body that names an endpoint, when nothing else stops them; whichever of
    these calls is the first to be rejected, the answer is 500 (with the
    message of the rejection, for [POST] and [DELETE]) and the rejected call
    is the last one made.

    Whatever the request, a rejected connection is answered by 500 at
    once.  A body that is not JSON is answered by 500 with the collections
    untouched; with the connection up the answer has the message of the
    parser and the connection is the only call made.

    A body that fails a check of [POST] is answered by 400, one that names
    no endpoint to [DELETE] by 400, and a [DELETE] for an endpoint no record
    is stored under by 404. *)
Theorem C5_errors_answered_by_500 :
  forall (request : request) (w : world),
    (recovers_by_500 GET_try GET [200] w /\
     recovers_by_500 (POST_try request) (POST request) [201; 400] w /\
     recovers_by_500 (DELETE_try request) (DELETE request) [200; 400; 404] w) /\
    ((forall k msg,
         (k < 2)%nat -> first_rejected w k msg ->
         exists w',
           GET w
           = (Ok (NextResponse_json
                    (message_body "Error al obtener pagos pendientes") 500), w') /\
           List.length (calls w') = (S k + List.length (calls w))%nat /\
           db w' = db w) /\
     (forall json endpoint userType k msg,
         req_body request = Json json ->
         well_formed json endpoint userType ->
         unhindered json endpoint userType w ->
         (k < 5)%nat -> first_rejected w k msg ->
         exists w',
           POST request w = (Ok (internal_error (MongoError msg)), w') /\
           List.length (calls w') = (S k + List.length (calls w))%nat) /\
     (forall json endpoint k msg,
         req_body request = Json json ->
         opt_prop (prop json "subscription") "endpoint" = Some (VStr endpoint) ->
         endpoint <> "" ->
         (forall d,
             In d (db w "ticket_subscriptions") ->
             matches (ops w) (endpoint_filter (VStr endpoint)) d = true ->
             printable_subscription d = true) ->
         (k < 3)%nat -> first_rejected w k msg ->
         exists w',
           DELETE request w = (Ok (internal_error (MongoError msg)), w') /\
           List.length (calls w') = (S k + List.length (calls w))%nat /\
           db w' = db w)) /\
    (forall msg,
        faults w (List.length (calls w)) = Some msg ->
        POST request w = (Ok (internal_error (MongoError msg)), log_call CConnect w) /\
        DELETE request w = (Ok (internal_error (MongoError msg)), log_call CConnect w)) /\
    (forall why,
        req_body request = Malformed why ->
        (exists r1 w1 r2 w2,
            POST request w = (Ok r1, w1) /\ status r1 = 500 /\ db w1 = db w /\
            DELETE request w = (Ok r2, w2) /\ status r2 = 500 /\ db w2 = db w) /\
        (faults w (List.length (calls w)) = None ->
         POST request w
         = (Ok (internal_error (SyntaxError why)), log_call CConnect w) /\
         DELETE request w
         = (Ok (internal_error (SyntaxError why)), log_call CConnect w))) /\
    (forall json,
        req_body request = Json json ->
        json <> VNull ->
        faults w (List.length (calls w)) = None ->
        loggable (prop json "subscription") ->
        let subscription := prop json "subscription" in
        let userType := prop json "userType" in
        (truthy_opt subscription = false \/ truthy_opt userType = false ->
         POST request w =
           (Ok (NextResponse_json (message_body "Datos incompletos") 400),
            log_call CConnect w)) /\
        (truthy_opt subscription = true ->
         truthy_opt userType = true ->
         truthy_opt (opt_prop subscription "endpoint") = false \/
         truthy_opt (opt_prop (opt_prop subscription "keys") "p256dh") = false \/
         truthy_opt (opt_prop (opt_prop subscription "keys") "auth") = false ->
         POST request w =
           (Ok (NextResponse_json (message_body "Suscripción inválida") 400),
            log_call CConnect w)) /\
        (truthy_opt (opt_prop subscription "endpoint") = false ->
         DELETE request w =
           (Ok (NextResponse_json
                  (message_body "Endpoint de suscripción requerido") 400),
            log_call CConnect w))) /\
    (forall json endpoint,
        req_body request = Json json ->
        opt_prop (prop json "subscription") "endpoint" = Some (VStr endpoint) ->
        endpoint <> "" ->
        (forall k, (k < 3)%nat -> faults w (k + List.length (calls w)) = None) ->
        find (ops w) (endpoint_filter (VStr endpoint)) (db w "ticket_subscriptions")
        = [] ->
        exists w',
          DELETE request w
          = (Ok (NextResponse_json (message_body "Suscripción no encontrada") 404),
             w') /\
          db w' "ticket_subscriptions" = db w "ticket_subscriptions") /\
    (forall e, status (internal_error e) = 500).
Proof.
  intros request w.
  split; [split; [|split]|split; [split; [|split]|split; [|split; [|split; [|split]]]]].
  - apply try_catch_recovers;
      [apply GET_try_fails_fast|apply GET_try_answers|].
    intros e w1. eexists. split; reflexivity.
  - apply try_catch_recovers;
      [apply POST_try_fails_fast|apply POST_try_answers|].
    intros e w1. eexists. split; reflexivity.
  - apply try_catch_recovers;
      [apply DELETE_try_fails_fast|apply DELETE_try_answers|].
    intros e w1. eexists. split; reflexivity.
  - intros k msg. apply SubscriptionFacts.GET_rejected.
  - intros json endpoint userType k msg. apply SubscriptionFacts.POST_rejected.
  - intros json endpoint k msg. apply SubscriptionFacts.DELETE_rejected.
  - intros msg F. unfold POST, DELETE, try_catch, POST_try, DELETE_try.
    rewrite !(SubscriptionFacts.bind_throws _ _ _ _ _
                (SubscriptionFacts.connect_rejected _ _ F)).
    split; reflexivity.
  - intros why Hb. split; [|now apply SubscriptionFacts.malformed_body].
    unfold POST, DELETE, try_catch, POST_try, DELETE_try, bind, connect, driver,
      request_json.
    rewrite Hb.
    destruct (faults w (List.length (calls w))); simpl;
      do 4 eexists; repeat split; reflexivity.
  - intros json Hb Hn F Hl subscription userType. split; [|split].
    + intros Hv. now apply (POST_incomplete request json w).
    + intros Hs Hu Hv. now apply (POST_invalid request json w).
    + intros Hv. now apply (DELETE_required request json w).
  - intros json endpoint Hb He Hne F Hnone.
    destruct (SubscriptionFacts.DELETE_not_found request json endpoint w Hb He Hne
                (F 0%nat ltac:(lia)) (F 1%nat ltac:(lia)) (F 2%nat ltac:(lia)) Hnone)
      as (w' & Hrun & Hdb & _).
    eauto.
  - reflexivity.
Qed.

(** Claim C5 at a sample: when [insertOne], the fourth call, is rejected,
    [POST] answers 500 after four calls. *)
Lemma C5_errors_answered_by_500_witness :
  exists w',
    POST (Samples.subscribe "https://push.example/a" "user")
      Samples.world_rejecting_insert
    = (Ok (internal_error (MongoError "connection closed")), w') /\
    List.length (calls w') = 4%nat.
Proof.
  destruct (C5_errors_answered_by_500
              (Samples.subscribe "https://push.example/a" "user")
              Samples.world_rejecting_insert)
    as (_ & (_ & H & _) & _).
  apply (H _ "https://push.example/a" (VStr "user") 3%nat "connection closed" eq_refl).
  - repeat split; try reflexivity. discriminate.
  - split; [reflexivity|]. split; [|split; reflexivity].
    intros d Hd _. simpl in Hd.
    destruct Hd as [<-|[<-|[<-|[<-|[]]]]]; reflexivity.
  - lia.
  - split; [|reflexivity].
    intros j Hj. destruct j as [|[|[|j]]]; [reflexivity|reflexivity|reflexivity|lia].
Defined.

(** An instance of the above: when [insertOne] is rejected, [POST] answers
    500 and the two records it had already deleted stay deleted. *)
Example POST_rejected_insert_is_not_undone :
  let request := Samples.subscribe "https://push.example/a" "user" in
  let w' := snd (POST request Samples.world_rejecting_insert) in
  status (Samples.response_of (POST request Samples.world_rejecting_insert)) = 500 /\
  List.length (db Samples.world_rejecting_insert "ticket_subscriptions") = 4%nat /\
  List.length (db w' "ticket_subscriptions") = 2%nat /\
  calls w' =
    [ CInsertOne "ticket_subscriptions"; CDeleteMany "ticket_subscriptions";
      CFind "ticket_subscriptions"; CConnect ].
Proof.
  cbv zeta. repeat split; vm_compute; reflexivity.
Qed.

(** Another: a [userType] that has no text makes the line logged after
    [insertOne] throw.  [POST] answers 500, the record it has just stored
    stays stored, and [findOne] is never called. *)
Example POST_failed_log_is_not_undone :
  let request :=
    Samples.subscribe_as "https://push.example/a" (VObj [ ("toString", VNum 1) ]) in
  let w' := snd (POST request Samples.world0) in
  status (Samples.response_of (POST request Samples.world0)) = 500 /\
  List.length (db Samples.world0 "ticket_subscriptions") = 4%nat /\
  List.length (db w' "ticket_subscriptions") = 5%nat /\
  calls w' =
    [ CInsertOne "ticket_subscriptions"; CDeleteMany "ticket_subscriptions";
      CFind "ticket_subscriptions"; CConnect ].
Proof.
  cbv zeta. repeat split; vm_compute; reflexivity.
Qed.

Local Open Scope nat_scope.

(** Claim C6.  In every state the component can reach, the body
    [handleSubmit] posts has an [imagenes] field exactly when images were
    captured: without captured images there is no such field, and with them
    the field is an object holding [plateImageUrl], [vehicleImageUrl],
    [capturaMetodo] (["camara_movil"] on mobile, ["camara_desktop"]
    otherwise) and both confidence values. *)
Theorem C6_imagenes_sent_when_captured :
  forall s : state,
    reachable s ->
    match capturedImages s with
    | None => lookup "imagenes" (snd (handleSubmit_send s)) = None
    | Some c =>
        exists plate vehicle cp cv,
          c = {| placaUrl := Some plate; vehiculoUrl := Some vehicle;
                 confianzaPlaca := Some cp; confianzaVehiculo := Some cv |} /\
          lookup "imagenes" (snd (handleSubmit_send s))
          = Some (VObj
              [ ("plateImageUrl", VStr plate);
                ("vehicleImageUrl", VStr vehicle);
                ("capturaMetodo",
                 VStr (if isMobile s then "camara_movil" else "camara_desktop"));
                ("confianzaPlaca", VNum cp);
                ("confianzaVehiculo", VNum cv) ])
    end.
Proof.
  intros s H. apply reachable_capture_complete in H. unfold capture_complete in H.
  unfold handleSubmit_send, submitData. cbn [snd].
  destruct (capturedImages s) as [c|].
  - destruct H as (plate & vehicle & cp & cv & ->).
    exists plate, vehicle, cp, cv. split; reflexivity.
  - reflexivity.
Qed.

(** Claim C6 at two sample runs, one with a capture and one without. *)
Lemma C6_imagenes_sent_when_captured_witness :
  lookup "imagenes"
    (snd (handleSubmit_send
            (run (initial true) [OpenCamera; VehicleDetected Samples.vehicle;
                                 TicketChange "T-001"])))
  = Some (VObj
      [ ("plateImageUrl", VStr "https://img.example/p.jpg");
        ("vehicleImageUrl", VStr "https://img.example/v.jpg");
        ("capturaMetodo", VStr "camara_movil");
        ("confianzaPlaca", VNum (9 # 10));
        ("confianzaVehiculo", VNum (8 # 10)) ]) /\
  lookup "imagenes"
    (snd (handleSubmit_send
            (run (initial false) [InputChange Placa "ABC123"; TicketChange "T-001"])))
  = None.
Proof.
  split.
  - pose proof (C6_imagenes_sent_when_captured
                  (run (initial true) [OpenCamera; VehicleDetected Samples.vehicle;
                                       TicketChange "T-001"])
                  (ex_intro _ true (ex_intro _ _ eq_refl))) as H.
    simpl in H. destruct H as (plate & vehicle & cp & cv & Hc & Hl).
    injection Hc as <- <- <- <-. exact Hl.
  - exact (C6_imagenes_sent_when_captured
             (run (initial false) [InputChange Placa "ABC123"; TicketChange "T-001"])
             (ex_intro _ false (ex_intro _ _ eq_refl))).
Defined.



(** Claim C8 fails as stated: the projection lists 23 fields, not 24, and a
    stored payment with all of them is returned with 23 fields. *)
Lemma C8_counterexample :
  List.length pending_projection = 23%nat /\
  List.length pending_projection <> 24%nat /\
  let stored := Samples.payment 13 "pendiente_validacion" "pendiente" 3000 in
  In stored (db Samples.world0 "pagos") /\
  List.length stored = 25%nat /\
  (exists rest,
      payload (Samples.response_of (GET Samples.world0))
      = VArr (VObj (project pending_projection stored) :: rest)) /\
  List.length (project pending_projection stored) = 23%nat.
Proof.
  split; [reflexivity|]. split; [discriminate|]. cbv zeta.
  split; [right; right; left; reflexivity|]. split; [reflexivity|].
  split; [|reflexivity]. eexists. vm_compute. reflexivity.
Qed.

(** Claim C8, amended.  Take any store in which the [codigoTicket] of
    every pending payment has a text, so that the debug lines of the handler
    go through.  When the database answers, the documents [GET] returns are
    sorted by [fechaPago] in descending order, and each is a selected
    document projected to the 23 listed fields: every field of a returned
    document is a listed one, a listed field shows the stored value (or is
    missing where the stored document has none), and no other stored field
    appears. *)
Theorem C8_sorted_and_projected :
  forall w : world,
    faults w (List.length (calls w)) = None ->
    faults w (S (List.length (calls w))) = None ->
    (forall d, In d (db w "pagos") -> pending d -> printable_payment d = true) ->
    exists (r : response) (w' : world) (returned : list doc),
      GET w = (Ok r, w') /\
      status r = 200%Z /\
      payload r = VArr (map VObj returned) /\
      StronglySorted (desc "fechaPago") returned /\
      List.length pending_projection = 23%nat /\
      exists ds : list doc,
        Permutation ds (find (ops w) pending_filter (db w "pagos")) /\
        returned = map (project pending_projection) ds /\
        forall d, In d ds ->
          Forall (fun kv => In (fst kv) pending_projection)
            (project pending_projection d) /\
          forall k,
            lookup k (project pending_projection d)
            = if existsb (String.eqb k) pending_projection then lookup k d else None.
Proof.
  intros w F0 F1 Hprint.
  destruct (GET_ok w F0 F1 (pending_payments_printable w Hprint))
    as (r & Hrun & Hst & Hp).
  exists r, (log_call (CFind "pagos") (log_call CConnect w)), (pending_payments w).
  split; [exact Hrun|]. split; [exact Hst|]. split; [exact Hp|]. split.
  - unfold pending_payments.
    apply (StronglySorted_map (desc "fechaPago")); [|apply sort_desc_sorted].
    intros a b. unfold desc.
    now rewrite !(field_key_project pending_projection "fechaPago") by reflexivity.
  - split; [reflexivity|].
    exists (sort_desc "fechaPago" (find (ops w) pending_filter (db w "pagos"))).
    split; [symmetry; apply sort_desc_perm|]. split; [reflexivity|].
    intros d _. split; [apply project_keys|].
    intros k. apply lookup_project.
Qed.

(** Claim C8, amended, at a sample: the newer payment comes first. *)
Lemma C8_sorted_and_projected_witness :
  payload (Samples.response_of (GET Samples.world0))
  = VArr
      [ VObj (project pending_projection
                (Samples.payment 13 "pendiente_validacion" "pendiente" 3000));
        VObj (project pending_projection
                (Samples.payment 11 "pendiente_validacion" "pendiente" 1000)) ].
Proof.
  assert (Hprint : forall d,
             In d (db Samples.world0 "pagos") -> pending d ->
             printable_payment d = true).
  { intros d Hd _. simpl in Hd.
    destruct Hd as [<-|[<-|[<-|[<-|[]]]]]; reflexivity. }
  destruct (C8_sorted_and_projected Samples.world0 eq_refl eq_refl Hprint)
    as (r & w' & returned & Hrun & _ & _ & _).
  unfold Samples.response_of. rewrite Hrun. cbn [fst].
  assert (E : GET Samples.world0
              = (Ok (Samples.response_of (GET Samples.world0)),
                 snd (GET Samples.world0))) by (vm_compute; reflexivity).
  rewrite E in Hrun. injection Hrun as <- _.
  vm_compute. reflexivity.
Defined.

(** Claim C9 fails as stated: on mobile, with [placa] and [ticketAsociado]
    filled in, the submit button is disabled while a submission is in
    progress. *)
Lemma C9_counterexample :
  let s := run (initial true) [InputChange Placa "ABC123"; TicketChange "T-001"; Submit] in
  isMobile s = true /\
  trim (placa (formData s)) <> "" /\
  trim (ticketAsociado (formData s)) <> "" /\
  submit_disabled s = true.
Proof.
  cbv zeta. split; [reflexivity|].
  split; [vm_compute; discriminate|]. split; [vm_compute; discriminate|].
  vm_compute. reflexivity.
Qed.

(** Claim C9, amended.  [isFormValid] holds on mobile exactly when [placa]
    and [ticketAsociado] are non-blank after trimming, and on desktop exactly
    when each of the eight fields, [nota] included, is.  The submit button is
    enabled exactly when [isFormValid] holds and no submission is in
    progress; so on desktop it is disabled whenever the note is blank. *)
Theorem C9_form_validity :
  forall s : state,
    let d := formData s in
    (isMobile s = true ->
     (isFormValid s = true <-> trim (placa d) <> "" /\ trim (ticketAsociado d) <> "")) /\
    (isMobile s = false ->
     (isFormValid s = true <->
      trim (placa d) <> "" /\ trim (marca d) <> "" /\ trim (modelo d) <> "" /\
      trim (color d) <> "" /\ trim (nombreDueño d) <> "" /\
      trim (telefono d) <> "" /\ trim (ticketAsociado d) <> "" /\
      trim (nota d) <> "")) /\
    (submit_disabled s = false <-> isFormValid s = true /\ isSubmitting s = false) /\
    (isMobile s = false -> trim (nota d) = "" -> submit_disabled s = true).
Proof.
  intros s d. subst d. unfold submit_disabled, isFormValid.
  split; [|split; [|split]].
  - intros ->. now rewrite andb_true_iff, !not_blank_iff.
  - intros ->. unfold Object_values. cbn [forallb].
    now rewrite andb_true_r, !andb_true_iff, !not_blank_iff.
  - rewrite orb_false_iff, negb_false_iff. reflexivity.
  - intros -> Hn. unfold Object_values. cbn [forallb].
    assert (E : not_blank (nota (formData s)) = false).
    { unfold not_blank. rewrite Hn. reflexivity. }
    rewrite E, !andb_false_r. reflexivity.
Qed.

(** Claim C10.  [maxRetries] is 10.  After any sequence of events the retry
    counter is the number of [openCamera] invocations so far, capped at 10:
    nothing resets it.  Once [openCamera] has been invoked ten times, then
    after any further events the counter is still 10, [openCamera] only shows
    the error message, and no event turns [showVehicleCapture] from [false]
    to [true]. *)
Theorem C10_camera_retries_bounded :
  forall (mobile : bool) (es : list event),
    let s := run (initial mobile) es in
    maxRetries = 10 /\
    cameraRetryCount s = Nat.min (opens es) 10 /\
    (10 <= opens es ->
     forall es' : list event,
       let s' := run s es' in
       cameraRetryCount s' = 10 /\
       openCamera s' = setMessage CameraLimit s' /\
       (forall e, showVehicleCapture s' = false ->
                  showVehicleCapture (step s' e) = false)).
Proof.
  intros mobile es s.
  assert (Hc : cameraRetryCount s = Nat.min (opens es) 10).
  { subst s. rewrite run_retry_count by (unfold maxRetries; simpl; lia).
    reflexivity. }
  split; [reflexivity|]. split; [exact Hc|].
  intros Hopens es' s'.
  assert (Hs : cameraRetryCount s = 10) by lia.
  assert (Hc' : cameraRetryCount s' = 10).
  { subst s'. rewrite run_retry_count by (unfold maxRetries; lia).
    unfold maxRetries. lia. }
  split; [exact Hc'|]. split.
  - apply openCamera_exhausted. unfold maxRetries. lia.
  - intros e. apply step_capture_closed. unfold maxRetries. lia.
Qed.

(* ================================================================== *)
(** ** Further properties of the routes *)
(* ================================================================== *)

Import Frames FrameFacts SubscriptionFacts PairFacts.
Local Open Scope Z_scope.

(** [GET] only reads: whatever happens, calls rejected by the database
    included, every collection is afterwards what it was. *)
Theorem GET_never_changes_the_store :
  forall (w : world) (coll : string), db (snd (GET w)) coll = db w coll.
Proof. intros w coll. apply GET_keeps_store. Qed.

(** [POST] and [DELETE] write to ["ticket_subscriptions"] only: in every
    run, failing ones included, any other collection is left as it was. *)
Theorem POST_and_DELETE_touch_subscriptions_only :
  forall (request : request) (w : world) (coll : string),
    coll <> "ticket_subscriptions" ->
    db (snd (POST request w)) coll = db w coll /\
    db (snd (DELETE request w)) coll = db w coll.
Proof.
  intros request w coll Hc. split.
  - now apply POST_keeps_others.
  - now apply DELETE_keeps_records.
Qed.

Lemma POST_and_DELETE_touch_subscriptions_only_witness :
  db (snd (POST (Samples.subscribe "https://push.example/a" "user") Samples.world0))
     "pagos"
  = db Samples.world0 "pagos".
Proof.
  apply (POST_and_DELETE_touch_subscriptions_only
           (Samples.subscribe "https://push.example/a" "user") Samples.world0 "pagos").
  discriminate.
Defined.

(** [DELETE] never removes or adds a record: in every run, write errors and
    rejected calls included, ["ticket_subscriptions"] holds as many records
    afterwards as before. *)
Theorem DELETE_keeps_every_record :
  forall (request : request) (w : world),
    List.length (db (snd (DELETE request w)) "ticket_subscriptions")
    = List.length (db w "ticket_subscriptions").
Proof. intros request w. apply DELETE_keeps_records. Qed.

Lemma last_snoc {A} (l : list A) (x d : A) : last (l ++ [x]) d = x.
Proof. apply last_last. Qed.

(** The record a successful [POST] stores is the last of the collection; it
    carries the identifier the response reports as [subscriptionId], and it
    is active: [isActive] is [true], [lifecycle.stage] is ["active"],
    [autoExpire] is [false] and [expiresAt] is [null]. *)
Theorem POST_stores_an_active_record :
  forall (request : request) (w w' : world) (r : response),
    POST request w = (Ok r, w') ->
    status r = 201 ->
    let record := last (db w' "ticket_subscriptions") [] in
    lookup "_id" record = Some (VId (next_id w)) /\
    prop (payload r) "subscriptionId" = lookup "_id" record /\
    lookup "isActive" record = Some (VBool true) /\
    get_path ["lifecycle"; "stage"] (VObj record) = Some (VStr "active") /\
    lookup "autoExpire" record = Some (VBool false) /\
    lookup "expiresAt" record = Some VNull.
Proof.
  intros request w w' r Hrun Hst record.
  destruct (POST_created_record request w w' r Hrun Hst)
    as (json & endpoint & userType & t1 & t2 & t3 & t4 & t5 &
        _ & _ & _ & Hdb & _ & _ & Hid & _).
  subst record. rewrite Hdb, last_snoc, Hid.
  repeat split; reflexivity.
Qed.

Lemma POST_stores_an_active_record_witness :
  lookup "isActive"
    (last (db (snd (POST (Samples.subscribe "https://push.example/a" "user")
                      Samples.world0)) "ticket_subscriptions") [])
  = Some (VBool true).
Proof.
  assert (Hrun : POST (Samples.subscribe "https://push.example/a" "user") Samples.world0
                 = (Ok (Samples.response_of
                          (POST (Samples.subscribe "https://push.example/a" "user")
                             Samples.world0)),
                    snd (POST (Samples.subscribe "https://push.example/a" "user")
                           Samples.world0))).
  { vm_compute. reflexivity. }
  assert (Hst : status (Samples.response_of
                          (POST (Samples.subscribe "https://push.example/a" "user")
                             Samples.world0)) = 201).
  { vm_compute. reflexivity. }
  exact (proj1 (proj2 (proj2
           (POST_stores_an_active_record _ _ _ _ Hrun Hst)))).
Defined.

(** The record a successful [POST] stores takes from the request body the
    endpoint and the two keys of [subscription] and nothing else of it, the
    [userType], and [ticketCode] as the one element of [ticketCodes] (none
    when [ticketCode] is absent or falsy); its [deviceInfo] holds the
    [user-agent] header, and as [ip] the [x-forwarded-for] header or else the
    [x-real-ip] header, each with ["Unknown"] for a header that is missing or
    empty. *)
Theorem POST_stores_what_the_request_carries :
  forall (request : request) (json : value) (w w' : world) (r : response),
    req_body request = Json json ->
    POST request w = (Ok r, w') ->
    status r = 201 ->
    let record := last (db w' "ticket_subscriptions") [] in
    let subscription := prop json "subscription" in
    exists endpoint p256dh auth userType,
      opt_prop subscription "endpoint" = Some endpoint /\
      opt_prop (opt_prop subscription "keys") "p256dh" = Some p256dh /\
      opt_prop (opt_prop subscription "keys") "auth" = Some auth /\
      prop json "userType" = Some userType /\
      lookup "subscription" record
      = Some (VObj [ ("endpoint", endpoint);
                     ("keys", VObj [ ("p256dh", p256dh); ("auth", auth) ]) ]) /\
      lookup "userType" record = Some userType /\
      lookup "ticketCodes" record
      = Some (VArr (match prop json "ticketCode" with
                    | Some ticketCode => if truthy ticketCode then [ticketCode] else []
                    | None => []
                    end)) /\
      get_path ["deviceInfo"; "userAgent"] (VObj record)
      = Some (VStr (header_or "user-agent" "Unknown" (req_headers request))) /\
      get_path ["deviceInfo"; "ip"] (VObj record)
      = Some (VStr (header_or "x-forwarded-for"
                      (header_or "x-real-ip" "Unknown" (req_headers request))
                      (req_headers request))).
Proof.
  intros request json w w' r Hb Hrun Hst record subscription.
  destruct (POST_created_record request w w' r Hrun Hst)
    as (json' & endpoint & userType & t1 & t2 & t3 & t4 & t5 &
        Hb' & He & Hu & Hdb & Hp & Ha & _).
  rewrite Hb in Hb'. injection Hb' as <-.
  subst record subscription. rewrite Hdb, last_snoc.
  destruct (opt_prop (opt_prop (prop json "subscription") "keys") "p256dh")
    as [p256dh|]; [|discriminate].
  destruct (opt_prop (opt_prop (prop json "subscription") "keys") "auth")
    as [auth|]; [|discriminate].
  exists (VStr endpoint), p256dh, auth, userType.
  split; [exact He|]. split; [reflexivity|]. split; [reflexivity|].
  split; [exact Hu|]. split; [reflexivity|]. split; [reflexivity|].
  split; [|split; reflexivity].
  cbn [lookup String.eqb Ascii.eqb Bool.eqb].
  now destruct (prop json "ticketCode").
Qed.

Lemma POST_stores_what_the_request_carries_witness :
  lookup "ticketCodes"
    (last (db (snd (POST (Samples.subscribe "https://push.example/a" "user")
                      Samples.world0)) "ticket_subscriptions") [])
  = Some (VArr [VStr "T-002"]).
Proof.
  assert (Hrun : POST (Samples.subscribe "https://push.example/a" "user") Samples.world0
                 = (Ok (Samples.response_of
                          (POST (Samples.subscribe "https://push.example/a" "user")
                             Samples.world0)),
                    snd (POST (Samples.subscribe "https://push.example/a" "user")
                           Samples.world0))).
  { vm_compute. reflexivity. }
  assert (Hst : status (Samples.response_of
                          (POST (Samples.subscribe "https://push.example/a" "user")
                             Samples.world0)) = 201).
  { vm_compute. reflexivity. }
  destruct (POST_stores_what_the_request_carries
              (Samples.subscribe "https://push.example/a" "user") _ _ _ _
              eq_refl Hrun Hst)
    as (e & p & a & u & _ & _ & _ & _ & _ & _ & H & _).
  exact H.
Defined.

(** A body that is [null], or whose [subscription.endpoint] is neither
    [null] nor a string, never reaches the validation of [POST] or [DELETE]:
    with the connection up, both answer 500 with the message of a
    [TypeError], having made no call but the connection. *)
Theorem odd_bodies_are_answered_500 :
  forall (request : request) (json : value) (w : world),
    req_body request = Json json ->
    faults w (List.length (calls w)) = None ->
    json = VNull \/ ~ loggable (prop json "subscription") ->
    exists msg,
      POST request w = (Ok (internal_error (TypeError msg)), log_call CConnect w) /\
      DELETE request w = (Ok (internal_error (TypeError msg)), log_call CConnect w) /\
      status (internal_error (TypeError msg)) = 500.
Proof.
  intros request json w Hb F Hodd.
  unfold POST, DELETE, try_catch, POST_try, DELETE_try.
  rewrite !(bind_run _ _ _ _ _ (connect_ok w F)).
  rewrite !(bind_run _ _ _ _ _ (request_json_ok _ _ _ Hb)).
  destruct Hodd as [-> | Hodd].
  - eexists. repeat split; reflexivity.
  - assert (Hn : json <> VNull).
    { intros ->. apply Hodd. exact I. }
    rewrite !(bind_run _ _ _ _ _ (destructure_ok _ _ Hn)).
    rewrite !(bind_throws _ _ _ _ _ (log_endpoint_throws _ _ Hodd)).
    eexists. repeat split; reflexivity.
Qed.

Lemma odd_bodies_are_answered_500_witness :
  status (Samples.response_of
            (POST (Samples.with_body
                     (VObj [ ("subscription", VObj [ ("endpoint", VNum 5) ]);
                             ("userType", VStr "user") ]))
                  Samples.world0)) = 500 /\
  status (Samples.response_of (DELETE (Samples.with_body VNull) Samples.world0)) = 500.
Proof.
  split.
  - destruct (odd_bodies_are_answered_500
                (Samples.with_body
                   (VObj [ ("subscription", VObj [ ("endpoint", VNum 5) ]);
                           ("userType", VStr "user") ]))
                (VObj [ ("subscription", VObj [ ("endpoint", VNum 5) ]);
                        ("userType", VStr "user") ])
                Samples.world0 eq_refl eq_refl
                (or_intror (fun H : loggable _ => H)))
      as (msg & H & _ & _).
    unfold Samples.response_of. rewrite H. reflexivity.
  - destruct (odd_bodies_are_answered_500
                (Samples.with_body VNull) VNull Samples.world0 eq_refl eq_refl
                (or_introl eq_refl))
      as (msg & _ & H & _).
    unfold Samples.response_of. rewrite H. reflexivity.
Defined.

(** [DELETE] for an endpoint no record is stored under answers 404
    "Suscripción no encontrada" and leaves the collection as it is. *)
Theorem DELETE_of_unknown_endpoint :
  forall (request : request) (json : value) (endpoint : string) (w : world),
    req_body request = Json json ->
    opt_prop (prop json "subscription") "endpoint" = Some (VStr endpoint) ->
    endpoint <> "" ->
    (forall k, (k < 3)%nat -> faults w (k + List.length (calls w)) = None) ->
    find (ops w) (endpoint_filter (VStr endpoint)) (db w "ticket_subscriptions") = [] ->
    exists w',
      DELETE request w
      = (Ok (NextResponse_json (message_body "Suscripción no encontrada") 404), w') /\
      db w' "ticket_subscriptions" = db w "ticket_subscriptions".
Proof.
  intros request json endpoint w Hb He Hne F Hnone.
  destruct (DELETE_not_found request json endpoint w Hb He Hne
              (F 0%nat ltac:(lia)) (F 1%nat ltac:(lia)) (F 2%nat ltac:(lia)) Hnone)
    as (w' & Hrun & Hdb & _).
  exists w'. split; [exact Hrun|]. now rewrite Hdb.
Qed.

Lemma DELETE_of_unknown_endpoint_witness :
  status (Samples.response_of
            (DELETE (Samples.with_body
                       (VObj [ ("subscription",
                                VObj [ ("endpoint", VStr "https://push.example/z") ]) ]))
                    Samples.world0)) = 404.
Proof.
  destruct (DELETE_of_unknown_endpoint
              (Samples.with_body
                 (VObj [ ("subscription",
                          VObj [ ("endpoint", VStr "https://push.example/z") ]) ]))
              (VObj [ ("subscription",
                       VObj [ ("endpoint", VStr "https://push.example/z") ]) ])
              "https://push.example/z" Samples.world0 eq_refl eq_refl
              ltac:(discriminate) (fun _ _ => eq_refl) eq_refl)
    as (w' & H & _).
  unfold Samples.response_of. rewrite H. reflexivity.
Defined.

(** Subscribing and then unsubscribing, for a [userType] the database
    compares with (any value but a document of query operators): after a
    successful [POST] for a pair and a successful [DELETE] for its endpoint,
    the query for the pair still selects exactly one record, and that record
    is inactive and unsubscribed. *)
Theorem unsubscribe_after_subscribe :
  forall (subscribe unsubscribe : request) (json1 json2 endpoint userType : value)
         (w w1 w2 : world) (r1 r2 : response),
    req_body subscribe = Json json1 ->
    opt_prop (prop json1 "subscription") "endpoint" = Some endpoint ->
    prop json1 "userType" = Some userType ->
    operator_document userType = None ->
    req_body unsubscribe = Json json2 ->
    opt_prop (prop json2 "subscription") "endpoint" = Some endpoint ->
    POST subscribe w = (Ok r1, w1) -> status r1 = 201 ->
    DELETE unsubscribe w1 = (Ok r2, w2) -> status r2 = 200 ->
    exists record,
      find (ops w) (subscription_filter endpoint userType)
        (db w2 "ticket_subscriptions")
      = [record] /\
      lookup "isActive" record = Some (VBool false) /\
      get_path ["lifecycle"; "stage"] (VObj record) = Some (VStr "unsubscribed").
Proof.
  intros subscribe unsubscribe json1 json2 endpoint userType w w1 w2 r1 r2
    Hb1 He1 Hu1 Hplain Hb2 He2 Hpost Hs1 Hdel Hs2.
  destruct (POST_created_inv subscribe w w1 r1 Hpost Hs1)
    as (j1 & e1 & u1 & Hb1' & He1' & Hu1' & Hops & rec1 & Hdb1 & Hre & Hru & _).
  rewrite Hb1 in Hb1'. injection Hb1' as <-.
  rewrite He1 in He1'. injection He1' as ->.
  rewrite Hu1 in Hu1'. injection Hu1' as <-.
  destruct (DELETE_done_inv unsubscribe w1 w2 r2 Hdel Hs2)
    as (j2 & e2 & Hb2' & He2' & Hwe & Hdb2 & _).
  rewrite Hb2 in Hb2'. injection Hb2' as <-.
  rewrite He2 in He2'. injection He2' as <-.
  rewrite Hops in Hwe, Hdb2.
  pose proof (updateMany_each _ _ _ _ Hwe) as Hall. rewrite <- Hdb2 in Hall.
  assert (Hkept : Forall2
                    (kept_inactive (ops w) (VStr e1) (clock w1 (reads w1))
                       (clock w1 (S (reads w1))))
                    (db w1 "ticket_subscriptions") (db w2 "ticket_subscriptions")).
  { eapply Forall2_impl; [|exact Hall].
    intros d d'. apply updated_by_kept_inactive. }
  apply (find_kept_inactive (ops w) e1 userType _ _ _ _ Hplain) in Hkept.
  assert (Hone : find (ops w) (subscription_filter (VStr e1) userType)
                   (db w1 "ticket_subscriptions")
                 = [rec1]).
  { rewrite Hdb1. unfold find at 1. rewrite filter_app.
    fold (find (ops w) (subscription_filter (VStr e1) userType)
            (fst (deleteMany (ops w) (subscription_filter (VStr e1) userType)
                    (db w "ticket_subscriptions")))).
    rewrite find_after_delete. cbn [List.filter app].
    now rewrite (record_of_pair (ops w) (VStr e1) userType rec1 eq_refl Hplain Hre Hru). }
  rewrite Hone in Hkept.
  inversion Hkept as [|d rec2 l l' Hrec Hnil Heq1 Heq2]; subst.
  inversion Hnil; subst.
  exists rec2. split; [reflexivity|].
  unfold kept_inactive in Hrec.
  rewrite (record_of_endpoint (ops w) (VStr e1) rec1 eq_refl Hre) in Hrec.
  destruct Hrec as (Hi & _ & Hst & _). split; assumption.
Qed.

Lemma unsubscribe_after_subscribe_witness :
  exists record,
    find Samples.comparison
      (subscription_filter (VStr "https://push.example/a") (VStr "user"))
      (db (snd (DELETE
                  (Samples.with_body
                     (VObj [ ("subscription",
                              VObj [ ("endpoint", VStr "https://push.example/a") ]) ]))
                  (snd (POST (Samples.subscribe "https://push.example/a" "user")
                          Samples.world0))))
         "ticket_subscriptions")
    = [record] /\
    lookup "isActive" record = Some (VBool false).
Proof.
  pose (subscribe := Samples.subscribe "https://push.example/a" "user").
  pose (unsubscribe :=
          Samples.with_body
            (VObj [ ("subscription",
                     VObj [ ("endpoint", VStr "https://push.example/a") ]) ])).
  pose (w1 := snd (POST subscribe Samples.world0)).
  assert (Hpost : POST subscribe Samples.world0
                  = (Ok (Samples.response_of (POST subscribe Samples.world0)), w1)).
  { vm_compute. reflexivity. }
  assert (Hs1 : status (Samples.response_of (POST subscribe Samples.world0)) = 201).
  { vm_compute. reflexivity. }
  assert (Hdel : DELETE unsubscribe w1
                 = (Ok (Samples.response_of (DELETE unsubscribe w1)),
                    snd (DELETE unsubscribe w1))).
  { vm_compute. reflexivity. }
  assert (Hs2 : status (Samples.response_of (DELETE unsubscribe w1)) = 200).
  { vm_compute. reflexivity. }
  destruct (unsubscribe_after_subscribe subscribe unsubscribe
              (VObj [ ("subscription",
                       VObj [ ("endpoint", VStr "https://push.example/a");
                              ("keys", VObj [ ("p256dh", VStr "BNc");
                                              ("auth", VStr "tBH") ]) ]);
                      ("userType", VStr "user");
                      ("ticketCode", VStr "T-002") ])
              (VObj [ ("subscription",
                       VObj [ ("endpoint", VStr "https://push.example/a") ]) ])
              (VStr "https://push.example/a") (VStr "user")
              Samples.world0 w1 _ _ _
              eq_refl eq_refl eq_refl eq_refl eq_refl eq_refl Hpost Hs1 Hdel Hs2)
    as (record & Hfind & Hi & _).
  exists record. split; assumption.
Defined.

(** Every answer of [GET] is one of two: 200 with the four headers that
    forbid caching, or 500 with the fixed error message and none of them.
    Either way the response says that it carries JSON. *)
Theorem GET_cache_headers :
  forall w : world,
    exists (r : response) (w' : world),
      GET w = (Ok r, w') /\
      response_header "Content-Type" r = Some "application/json" /\
      ((status r = 200 /\
        response_header "Cache-Control" r
        = Some "no-store, no-cache, must-revalidate, proxy-revalidate" /\
        response_header "Pragma" r = Some "no-cache" /\
        response_header "Expires" r = Some "0" /\
        response_header "Surrogate-Control" r = Some "no-store") \/
       (status r = 500 /\
        payload r = message_body "Error al obtener pagos pendientes" /\
        response_header "Cache-Control" r = None /\
        response_header "Pragma" r = None /\
        response_header "Expires" r = None /\
        response_header "Surrogate-Control" r = None)).
Proof.
  intros w.
  destruct (GET_try w) as [[r|e] w1] eqn:E.
  - exists r, w1. unfold GET, try_catch. rewrite E.
    split; [reflexivity|].
    unfold GET_try in E.
    inv_bind E as u0 w0 E0. inv_bind E as ps w2 E1. inv_bind E as u1 w3 E2.
    inv_bind E as u2 w4 E3. injection E as <- _.
    split; [reflexivity|]. left. repeat split; reflexivity.
  - exists (NextResponse_json (message_body "Error al obtener pagos pendientes") 500), w1.
    unfold GET, try_catch. rewrite E.
    split; [reflexivity|]. split; [reflexivity|]. right. repeat split; reflexivity.
Qed.

(** [POST] removes no subscription but those the database selects for the
    filter made of the endpoint and the user type of its request: in every
    run of a request that names both (rejected calls and refused requests
    included), a record the filter does not select is still in
    ["ticket_subscriptions"] afterwards. *)
Theorem POST_spares_other_subscriptions :
  forall (request : request) (json endpoint userType : value) (w : world) (d : doc),
    req_body request = Json json ->
    opt_prop (prop json "subscription") "endpoint" = Some endpoint ->
    prop json "userType" = Some userType ->
    In d (db w "ticket_subscriptions") ->
    matches (ops w) (subscription_filter endpoint userType) d = false ->
    In d (db (snd (POST request w)) "ticket_subscriptions").
Proof.
  intros request json endpoint userType w d Hb He Hu.
  exact (proj2 (POST_spares request json endpoint userType Hb He Hu w) d).
Qed.

Lemma POST_spares_other_subscriptions_witness :
  In (Samples.subscription_record 2 "https://push.example/a" "admin")
    (db (snd (POST (Samples.subscribe "https://push.example/a" "user") Samples.world0))
       "ticket_subscriptions").
Proof.
  apply (POST_spares_other_subscriptions
           (Samples.subscribe "https://push.example/a" "user") _
           (VStr "https://push.example/a") (VStr "user") Samples.world0
           (Samples.subscription_record 2 "https://push.example/a" "admin")
           eq_refl eq_refl eq_refl).
  - right. left. reflexivity.
  - vm_compute. reflexivity.
Defined.

(** [DELETE] changes no record of another endpoint: in every run of a request
    that names an endpoint (write errors and rejected calls included), each
    record of ["ticket_subscriptions"] whose [subscription.endpoint] is not
    the one named is afterwards at the same position and unchanged. *)
Theorem DELETE_leaves_other_endpoints :
  forall (request : request) (json endpoint : value) (w : world),
    req_body request = Json json ->
    opt_prop (prop json "subscription") "endpoint" = Some endpoint ->
    Forall2 (fun d d' => matches (ops w) (endpoint_filter endpoint) d = false -> d' = d)
      (db w "ticket_subscriptions")
      (db (snd (DELETE request w)) "ticket_subscriptions").
Proof.
  intros request json endpoint w Hb He.
  exact (proj2 (DELETE_keeps_unselected request json endpoint Hb He w)).
Qed.

Lemma DELETE_leaves_other_endpoints_witness :
  Forall2
    (fun d d' =>
       matches Samples.comparison (endpoint_filter (VStr "https://push.example/a")) d
       = false -> d' = d)
    (db Samples.world0 "ticket_subscriptions")
    (db (snd (DELETE (Samples.subscribe "https://push.example/a" "user") Samples.world0))
       "ticket_subscriptions").
Proof.
  exact (DELETE_leaves_other_endpoints
           (Samples.subscribe "https://push.example/a" "user") _
           (VStr "https://push.example/a") Samples.world0 eq_refl eq_refl).
Defined.

(** For a [userType] the database compares with (any value but a document
    of query operators), a successful [POST] leaves one record for the pair
    of its request: the collection is what [deleteMany] left of it, which
    holds no record the filter of the pair selects, followed by the new
    record, which is the one record of the collection the filter selects.
    The driver calls were, in order, connect, find, deleteMany, insertOne,
    findOne. *)
Theorem POST_keeps_one_record_per_pair :
  forall (request : request) (json endpoint userType : value)
         (w w' : world) (r : response),
    req_body request = Json json ->
    opt_prop (prop json "subscription") "endpoint" = Some endpoint ->
    prop json "userType" = Some userType ->
    operator_document userType = None ->
    POST request w = (Ok r, w') ->
    status r = 201 ->
    let pair := subscription_filter endpoint userType in
    let before := db w "ticket_subscriptions" in
    let after := db w' "ticket_subscriptions" in
    exists record,
      after = fst (deleteMany (ops w) pair before) ++ [record] /\
      find (ops w) pair (fst (deleteMany (ops w) pair before)) = [] /\
      find (ops w) pair after = [record] /\
      of_pair endpoint userType record = true /\
      calls w' =
        [ CFindOne "ticket_subscriptions"; CInsertOne "ticket_subscriptions";
          CDeleteMany "ticket_subscriptions"; CFind "ticket_subscriptions";
          CConnect ] ++ calls w.
Proof.
  intros request json endpoint userType w w' r Hb He Hu Hplain Hrun Hst
    pair before after.
  destruct (POST_created_inv request w w' r Hrun Hst)
    as (json' & e & u & Hb' & He' & Hu' & _ & record & Hdb & Hre & Hru & Hcalls).
  rewrite Hb in Hb'. injection Hb' as <-.
  rewrite He in He'. injection He' as ->.
  rewrite Hu in Hu'. injection Hu' as <-.
  exists record. subst pair before after.
  pose proof (record_of_pair (ops w) (VStr e) userType record eq_refl Hplain Hre Hru)
    as Hm.
  split; [exact Hdb|]. split; [apply find_after_delete|].
  split; [|split; [|exact Hcalls]].
  - rewrite Hdb. unfold find at 1. rewrite filter_app.
    fold (find (ops w) (subscription_filter (VStr e) userType)
            (fst (deleteMany (ops w) (subscription_filter (VStr e) userType)
                    (db w "ticket_subscriptions")))).
    rewrite find_after_delete. cbn [List.filter app]. now rewrite Hm.
  - unfold of_pair. rewrite Hre, Hru. now rewrite !value_eqb_refl.
Qed.

Lemma POST_keeps_one_record_per_pair_witness :
  exists record,
    find Samples.comparison
      (subscription_filter (VStr "https://push.example/a") (VStr "user"))
      (db (snd (POST (Samples.subscribe "https://push.example/a" "user") Samples.world0))
         "ticket_subscriptions")
    = [record] /\
    List.length
      (db (snd (POST (Samples.subscribe "https://push.example/a" "user") Samples.world0))
         "ticket_subscriptions") = 3%nat.
Proof.
  pose (request := Samples.subscribe "https://push.example/a" "user").
  assert (Hrun : POST request Samples.world0
                 = (Ok (Samples.response_of (POST request Samples.world0)),
                    snd (POST request Samples.world0))).
  { vm_compute. reflexivity. }
  assert (Hst : status (Samples.response_of (POST request Samples.world0)) = 201).
  { vm_compute. reflexivity. }
  destruct (POST_keeps_one_record_per_pair request
              (VObj [ ("subscription",
                     VObj [ ("endpoint", VStr "https://push.example/a");
                            ("keys", VObj [ ("p256dh", VStr "BNc");
                                            ("auth", VStr "tBH") ]) ]);
                    ("userType", VStr "user");
                    ("ticketCode", VStr "T-002") ])
              (VStr "https://push.example/a") (VStr "user")
              Samples.world0 _ _ eq_refl eq_refl eq_refl eq_refl Hrun Hst)
    as (record & _ & _ & H & _).
  exists record. split; [exact H|]. vm_compute. reflexivity.
Defined.

(* ================================================================== *)
(** ** Further properties of the component *)
(* ================================================================== *)

Import CarLists CarListFacts TrimDefs TrimFacts.
Local Open Scope nat_scope.

(** [areArraysEqual] holds exactly when the arrays have the same length and,
    position by position, every field of the item of the first array has a
    strictly equal value in the item of the second; fields that only the
    second item has are not looked at. *)
Theorem areArraysEqual_compares_fields_of_first :
  forall arr1 arr2 : list object,
    areArraysEqual arr1 arr2 = true <->
    List.length arr1 = List.length arr2 /\
    forall i item1 item2,
      nth_error arr1 i = Some item1 ->
      nth_error arr2 i = Some item2 ->
      agrees item1 item2.
Proof.
  intros arr1 arr2. rewrite areArraysEqual_agrees. split.
  - intros H. split; [eapply Forall2_length; eauto|].
    induction H as [|a b l l' Hab _ IH]; intros [|i] item1 item2 H1 H2;
      simpl in *; try discriminate.
    + injection H1 as <-. injection H2 as <-. exact Hab.
    + eauto.
  - intros [Hlen H]. revert arr2 Hlen H.
    induction arr1 as [|a arr1 IH]; intros [|b arr2] Hlen H; try discriminate.
    + constructor.
    + constructor; [apply (H 0); reflexivity|].
      apply IH; [simpl in Hlen; lia|].
      intros i. apply (H (S i)).
Qed.

(** On tickets as the server sends them (three strings each)
    [areArraysEqual] is equality, so that after a successful fetch
    [availableTickets] always has the content of the fetched list, whether
    the updater kept the previous array or took the new one. *)
Theorem fetched_tickets_are_shown :
  forall prev data : list AvailableTicket,
    (areArraysEqual (map ticket_object prev) (map ticket_object data) = true
     <-> prev = data) /\
    fetchAvailableTickets (Fetched (map ticket_object data)) (map ticket_object prev)
    = map ticket_object data.
Proof.
  intros prev data.
  assert (H : areArraysEqual (map ticket_object prev) (map ticket_object data) = true
              <-> prev = data).
  { rewrite areArraysEqual_agrees. apply Forall2_map_eq. apply ticket_objects_agree. }
  split; [exact H|].
  unfold fetchAvailableTickets.
  destruct (areArraysEqual (map ticket_object prev) (map ticket_object data)) eqn:E;
    cbn [negb]; [|reflexivity].
  destruct H as [H _]. now rewrite (H eq_refl).
Qed.

(** When the fetched items are the held ones with further fields added,
    [areArraysEqual] holds and [fetchAvailableTickets] keeps the held array:
    the added fields do not reach the state.  (Stated for held items whose
    values are primitive.) *)
Theorem added_fields_are_not_noticed :
  forall (prev : list object) (extra : object),
    Forall (Forall (fun kv => primitive (snd kv) = true)) prev ->
    areArraysEqual prev (map (fun item => item ++ extra) prev) = true /\
    fetchAvailableTickets (Fetched (map (fun item => item ++ extra) prev)) prev = prev.
Proof.
  intros prev extra Hprim.
  assert (H : areArraysEqual prev (map (fun item => item ++ extra) prev) = true).
  { apply areArraysEqual_agrees.
    induction Hprim as [|item prev Hitem _ IH]; simpl; constructor; [|exact IH].
    intros key Hk. rewrite (lookup_app_left key item extra Hk).
    destruct (lookup_in key item Hk) as (v & -> & Hin).
    apply strict_eq_refl.
    rewrite Forall_forall in Hitem. exact (Hitem _ Hin). }
  split; [exact H|]. unfold fetchAvailableTickets. now rewrite H.
Qed.

Lemma added_fields_are_not_noticed_witness :
  fetchAvailableTickets
    (Fetched
       [ [ ("_id", VStr "t1"); ("codigoTicket", VStr "T-001");
           ("estado", VStr "disponible"); ("precio", VNum 5) ] ])
    [ ticket_object {| _id := "t1"; codigoTicket := "T-001"; estado := "disponible" |} ]
  = [ ticket_object {| _id := "t1"; codigoTicket := "T-001"; estado := "disponible" |} ].
Proof.
  apply (added_fields_are_not_noticed
           [ ticket_object {| _id := "t1"; codigoTicket := "T-001";
                              estado := "disponible" |} ]
           [ ("precio", VNum 5) ]).
  repeat constructor.
Defined.

Lemma step_stays_submitting (s : state) (e : event) :
  not_settled e = true -> isSubmitting s = true -> isSubmitting (step s e) = true.
Proof.
  intros H Hs. destruct e; simpl; try exact Hs; try reflexivity; try discriminate.
  unfold openCamera. now destruct (_ <? _).
Qed.

(** From the moment [handleSubmit] has sent its request until the [fetch]
    settles, whatever else happens, the submit button is disabled; and
    however the [fetch] settles, [isSubmitting] is cleared and a banner is
    shown. *)
Theorem submit_button_is_held_then_released :
  forall (s : state) (es : list event) (o : outcome),
    forallb not_settled es = true ->
    let busy := run (fst (handleSubmit_send s)) es in
    submit_disabled busy = true /\
    isSubmitting (handleSubmit_settle o busy) = false /\
    banner (handleSubmit_settle o busy) <> NoMessage.
Proof.
  intros s es o Hes busy.
  assert (Hbusy : isSubmitting busy = true).
  { subst busy. induction es as [|e es IH] using rev_ind; [reflexivity|].
    rewrite forallb_app in Hes. apply andb_true_iff in Hes. destruct Hes as [Hes He].
    rewrite run_app. change (run ?x [e]) with (step x e).
    apply step_stays_submitting; [|now apply IH].
    simpl in He. now rewrite andb_true_r in He. }
  split; [unfold submit_disabled; rewrite Hbusy; apply orb_true_r|].
  destruct o as [|[] [[]|] []]; split; simpl; try reflexivity; discriminate.
Qed.

Lemma submit_button_is_held_then_released_witness :
  submit_disabled
    (run (fst (handleSubmit_send (initial true)))
       [InputChange Placa "ABC123"; TicketChange "T-001"; OpenCamera]) = true.
Proof.
  apply (submit_button_is_held_then_released (initial true)
           [InputChange Placa "ABC123"; TicketChange "T-001"; OpenCamera]
           FetchRejected eq_refl).
Defined.

(** A value made only of white-space characters is blank: the form is then
    invalid on both layouts when it is the plate, and on desktop when it is
    any of the eight fields. *)
Theorem blank_values_are_rejected :
  forall (ws : list string) (s : state) (name : field),
    Forall (fun w => In w white_space) ws ->
    not_blank (blanks ws) = false /\
    isFormValid (handleInputChange Placa (blanks ws) s) = false /\
    (isMobile s = false ->
     isFormValid (handleInputChange name (blanks ws) s) = false).
Proof.
  intros ws s name Hws.
  assert (Hb : not_blank (blanks ws) = false).
  { unfold not_blank. now rewrite (trim_blanks ws Hws). }
  split; [exact Hb|]. split.
  - unfold isFormValid, handleInputChange. simpl.
    rewrite Hb. now destruct (isMobile s).
  - intros Hm. unfold isFormValid, handleInputChange. simpl. rewrite Hm.
    destruct name; simpl; rewrite Hb; rewrite ?andb_false_r; reflexivity.
Qed.

Lemma blank_values_are_rejected_witness :
  isFormValid (handleInputChange Placa "   " (initial true)) = false.
Proof.
  assert (H : Forall (fun w => In w white_space) [" "; " "; " "]).
  { repeat (apply Forall_cons; [do 5 right; left; reflexivity|]). apply Forall_nil. }
  exact (proj1 (proj2 (blank_values_are_rejected [" "; " "; " "] (initial true)
                         Placa H))).
Defined.

(** A value whose first character does not begin a white-space character is
    never blank, whatever follows it: trimming leaves that character in
    front. *)
Theorem ordinary_values_are_not_blank :
  forall (c : ascii) (rest : string),
    starts_white c = false ->
    not_blank (String c rest) = true /\
    exists rest', trim (String c rest) = String c rest'.
Proof.
  intros c rest H. destruct (trim_ordinary c rest H) as [rest' E].
  split; [|eauto]. unfold not_blank. now rewrite E.
Qed.

Lemma ordinary_values_are_not_blank_witness : not_blank "A  " = true.
Proof.
  apply (ordinary_values_are_not_blank "A"%char "  "). reflexivity.
Defined.

(** On the desktop layout the notice "No hay carros estacionados" is shown
    exactly when no car at all was fetched.  Otherwise the rows are the cars
    whose [estado] is "estacionado" or "estacionado_confirmado", in the
    fetched order, with the badge "Confirmado" for the latter and "Pendiente"
    for the former; when none of the fetched cars is parked neither the
    notice nor any row is shown. *)
Theorem desktop_list_shows_parked_cars :
  forall cars : list Car.t,
    (desktop_cars cars = NoCarsNotice <-> cars = []) /\
    (cars <> [] ->
     exists rows,
       desktop_cars cars = Rows rows /\
       map row_car rows = List.filter parked cars /\
       (rows = [] <-> Forall (fun car => parked car = false) cars) /\
       Forall
         (fun r =>
            (row_badge r = Confirmado
             <-> Car.estado (row_car r) = "estacionado_confirmado") /\
            (row_badge r = Pendiente <-> Car.estado (row_car r) = "estacionado"))
         rows).
Proof.
  intros cars. unfold desktop_cars. split.
  - destruct cars; simpl; split; intros H; try reflexivity; discriminate.
  - intros Hne. destruct cars as [|car cars]; [contradiction|]. cbn [List.length Nat.eqb].
    eexists. split; [reflexivity|]. split; [|split].
    + rewrite map_map. cbn [car_row row_car]. apply map_id.
    + generalize (car :: cars). intros l. induction l as [|x l IH]; simpl.
      * split; constructor.
      * destruct (parked x) eqn:P; simpl.
        -- split; [discriminate|]. intros H. inversion H; subst. congruence.
        -- rewrite IH. split; [now constructor|]. intros H. now inversion H.
    + apply Forall_map. apply Forall_forall. intros x Hx.
      apply filter_In in Hx. destruct Hx as [_ Hx]. unfold parked in Hx.
      cbn [car_row row_car row_badge].
      destruct (String.eqb (Car.estado x) "estacionado_confirmado") eqn:E2.
      * apply String.eqb_eq in E2. rewrite E2.
        split; split; intros H; try reflexivity; discriminate.
      * rewrite orb_false_r in Hx. apply String.eqb_eq in Hx.
        rewrite Hx. split; split; intros H; try reflexivity; discriminate.
Qed.

Lemma desktop_list_shows_parked_cars_witness :
  desktop_cars
    [ {| Car._id := "c1"; Car.placa := "ABC123"; Car.marca := "Toyota";
         Car.modelo := "Corolla"; Car.color := "Blanco"; Car.nombreDueño := "Ana";
         Car.telefono := "0414"; Car.ticketAsociado := "T-001";
         Car.horaIngreso := ""; Car.estado := "salido";
         Car.nota := None; Car.imagenes := None |} ]
  = Rows [].
Proof.
  destruct (desktop_list_shows_parked_cars
              [ {| Car._id := "c1"; Car.placa := "ABC123"; Car.marca := "Toyota";
                   Car.modelo := "Corolla"; Car.color := "Blanco";
                   Car.nombreDueño := "Ana"; Car.telefono := "0414";
                   Car.ticketAsociado := "T-001"; Car.horaIngreso := "";
                   Car.estado := "salido"; Car.nota := None;
                   Car.imagenes := None |} ])
    as [_ H].
  destruct (H ltac:(discriminate)) as (rows & Hd & _ & Hrows & _).
  rewrite Hd. f_equal. apply Hrows. repeat constructor.
Defined.

(** What is typed into a control is what [handleSubmit] sends under the
    name of that control; the other seven fields and the [imagenes] field of
    the body are as they would have been. *)
Theorem typed_value_is_sent :
  forall (s : state) (name : field) (value : string) (key : string),
    lookup (field_name name) (submitData (handleInputChange name value s))
    = Some (VStr value) /\
    (key <> field_name name ->
     lookup key (submitData (handleInputChange name value s))
     = lookup key (submitData s)).
Proof.
  intros s name value key. split.
  - destruct name; unfold submitData; simpl; destruct (capturedImages s); reflexivity.
  - intros Hk. unfold submitData, handleInputChange.
    cbn [formData setFormData capturedImages isMobile with_field
         placa marca modelo color nombreDueño telefono ticketAsociado nota].
    destruct (capturedImages s); cbn [stringify_object lookup];
      destruct name; cbn [field_name] in Hk;
      repeat match goal with
             | |- context [String.eqb key ?k] =>
                 destruct (String.eqb_spec key k); [try contradiction; subst|]
             end; try reflexivity.
Qed.

Lemma typed_value_is_sent_witness :
  lookup "marca" (submitData (handleInputChange Placa "ABC123" (initial false)))
  = lookup "marca" (submitData (initial false)).
Proof.
  apply (typed_value_is_sent (initial false) Placa "ABC123" "marca").
  discriminate.
Defined.

(** A detection fills [placa], [marca], [modelo] and [color] from the
    vehicle data and leaves the owner, the telephone, the ticket and the
    note as typed; it closes the capture screen.  On mobile the form is then
    valid exactly when the detected plate and the ticket chosen before are
    not blank. *)
Theorem detection_fills_the_form :
  forall (s : state) (v : VehicleData.t),
    let s' := handleVehicleDetected v s in
    formData s' =
      {| placa := VehicleData.placa v; marca := VehicleData.marca v;
         modelo := VehicleData.modelo v; color := VehicleData.color v;
         nombreDueño := nombreDueño (formData s);
         telefono := telefono (formData s);
         ticketAsociado := ticketAsociado (formData s);
         nota := nota (formData s) |} /\
    showVehicleCapture s' = false /\
    cameraRetryCount s' = cameraRetryCount s /\
    (isMobile s = true ->
     (isFormValid s' = true <->
      trim (VehicleData.placa v) <> "" /\ trim (ticketAsociado (formData s)) <> "")).
Proof.
  intros s v s'. subst s'.
  split; [reflexivity|]. split; [reflexivity|]. split; [reflexivity|].
  intros Hm. unfold isFormValid, handleVehicleDetected.
  cbn [isMobile formData setMessage setShowVehicleCapture setCapturedImages
       setFormData placa ticketAsociado].
  rewrite Hm. now rewrite andb_true_iff, !not_blank_iff.
Qed.

Lemma detection_fills_the_form_witness :
  isFormValid
    (handleVehicleDetected Samples.vehicle
       (handleTicketChange "T-001" (openCamera (initial true))))
  = true.
Proof.
  apply (detection_fills_the_form
           (handleTicketChange "T-001" (openCamera (initial true))) Samples.vehicle).
  - reflexivity.
  - split; vm_compute; discriminate.
Defined.
